(** * Convergence of one compose service against the container runtime

    A shallow embedding of [local/convergence.go] (package [local] of the
    Docker Compose CLI) and the properties of its reconciliation loop:
    numbering of new containers, scale up and scale down, drift detection,
    the stop / rename / create / delete sequence of a recreate, propagation
    of the lifecycle annotation to dependent services and the health gate
    on dependencies. *)

From Stdlib Require Import ZArith String Ascii List Lia.
From stdpp Require Import base option list strings gmap pretty.

Local Open Scope string_scope.
Local Open Scope Z_scope.
Local Open Scope list_scope.

(** ** Go's [int] and [error] *)

Module GoInt.

  (** [int] is 64 bits wide on the platforms the CLI is built for. *)
Definition intSize : Z := 64.
Definition MaxInt : Z := 2 ^ (intSize - 1) - 1.
Definition MinInt : Z := - 2 ^ (intSize - 1).

  (** Two's complement wrap-around of an arithmetic result. *)
Definition wrap (z : Z) : Z :=
    (z + 2 ^ (intSize - 1)) mod 2 ^ intSize - 2 ^ (intSize - 1).

Definition in_range (z : Z) : bool := (MinInt <=? z) && (z <=? MaxInt).

End GoInt.
Export GoInt.

(** The errors that travel through the reconciler.  [NumError] is the
    error of [strconv.Atoi], [NoHealthcheck] the error that
    [isServiceHealthy] builds with [fmt.Errorf] for a service, [ApiError] whatever the runtime client or another collaborator
    reports. *)
Inductive num_error_kind := ErrSyntax | ErrRange.

Inductive error :=
| NumError (func : string) (num : string) (kind : num_error_kind)
| NoHealthcheck (service : string)
| ApiError (msg : string).

Inductive result (A : Type) :=
| Ok (a : A)
| Err (e : error).
Arguments Ok {A} a.
Arguments Err {A} e.

Definition is_err {A} (r : result A) : bool :=
  match r with Ok _ => false | Err _ => true end.

#[global] Instance num_error_kind_eq_dec : EqDecision num_error_kind.
Proof. solve_decision. Defined.
#[global] Instance error_eq_dec : EqDecision error.
Proof. solve_decision. Defined.

(** ** [strconv.Atoi]

    The standard library function: an optional sign, then one or more
    decimal digits and nothing else.  The digits are read from the left
    as [ParseUint] reads them in base 10: a byte that is not a digit is a
    syntax error, a digit that takes the value past [uint64] is a range
    error that ends the loop before the bytes after it are looked at.  A
    value that [uint64] holds and [int] does not is a range error as
    well.  The short path of [Atoi] for strings of less than 19 bytes
    gives the same answers: no such string overflows. *)
Module Strconv.

Definition is_digit (a : ascii) : bool :=
    let n := nat_of_ascii a in (48 <=? n)%nat && (n <=? 57)%nat.

Definition digit_value (a : ascii) : Z := Z.of_nat (nat_of_ascii a) - 48.

Definition maxUint64 : Z := 2 ^ 64 - 1.

  (** The smallest number such that [cutoff * 10 > maxUint64]. *)
Definition cutoff : Z := maxUint64 / 10 + 1.

  (** The loop of [ParseUint] over the bytes, with [n] the value so far.
      Go tests [n1 < n] on the wrapped sum; below [cutoff] that is the
      sum being past [maxUint64]. *)
Fixpoint ParseUint_loop (n : Z) (s : string) : num_error_kind + Z :=
    match s with
    | EmptyString => inr n
    | String c rest =>
        if negb (is_digit c) then inl ErrSyntax
        else if cutoff <=? n then inl ErrRange
        else
          let n1 := n * 10 + digit_value c in
          if maxUint64 <? n1 then inl ErrRange
          else ParseUint_loop n1 rest
    end.

Definition split_sign (s : string) : bool * string :=
    match s with
    | String "-" rest => (true, rest)
    | String "+" rest => (false, rest)
    | _ => (false, s)
    end.

Definition Atoi (s : string) : result Z :=
    let '(neg, body) := split_sign s in
    match body with
    | EmptyString => Err (NumError "Atoi" s ErrSyntax)
    | _ =>
        match ParseUint_loop 0 body with
        | inl kind => Err (NumError "Atoi" s kind)
        | inr un =>
            let n := if neg then - un else un in
            if in_range n then Ok n else Err (NumError "Atoi" s ErrRange)
        end
    end.

  (** What the specification calls a valid non-negative integer: a
      non-empty run of decimal digits. *)
Definition all_digits (s : string) : bool :=
    forallb is_digit (list_ascii_of_string s).

Definition is_nonneg_decimal (s : string) : bool :=
    match s with
    | EmptyString => false
    | _ => all_digits s
    end.

Definition decimal_value (s : string) : Z :=
    foldl (fun acc a => acc * 10 + digit_value a) 0 (list_ascii_of_string s).

  (** The literals [Atoi] reads, with the number each one denotes: a run
      of digits, alone or after one sign. *)
Inductive int_literal : string -> Z -> Prop :=
  | literal_unsigned body :
      is_nonneg_decimal body = true ->
      int_literal body (decimal_value body)
  | literal_plus body :
      is_nonneg_decimal body = true ->
      int_literal (String "+" body) (decimal_value body)
  | literal_minus body :
      is_nonneg_decimal body = true ->
      int_literal (String "-" body) (- decimal_value body).

End Strconv.
Export Strconv.

(** ** The runtime's container summary, [moby.Container] *)

Record Container := mkContainer {
  ID : string;
  Names : list string;
  Labels : gmap string string;
  State : string;
}.

#[global] Instance Container_eq_dec : EqDecision Container.
Proof. solve_decision. Defined.

(** Indexing a Go [map[string]string]: the empty string when the key is
    absent (also on a nil map). *)
Definition label (c : Container) (key : string) : string :=
  default "" (Labels c !! key).

(** The label keys of package [local]; their values are declared in a
    file of the package other than [convergence.go]. *)
Class LabelKeys := {
  projectLabel : string;
  serviceLabel : string;
  containerNumberLabel : string;
  configHashLabel : string;
}.

Section Numbering.
Context `{LabelKeys}.

  (** [nextContainerNumber], the loop with its running maximum.  On a
      parse error Go returns [(0, err)]; callers look at [err] only. *)
Fixpoint nextContainerNumber_from (max : Z) (containers : list Container)
    : result Z :=
    match containers with
    | [] => Ok (wrap (max + 1))
    | c :: rest =>
        match Atoi (label c containerNumberLabel) with
        | Err err => Err err
        | Ok n =>
            nextContainerNumber_from (if n >? max then n else max) rest
        end
    end.

Definition nextContainerNumber (containers : list Container) : result Z :=
    nextContainerNumber_from 0 containers.

End Numbering.

(** ** The compose model, [types.ServiceConfig] and [types.Project] *)

(** A value of Go's [interface{}] as stored in [Extensions]. *)
Inductive ext_value :=
| ExtString (s : string)
| ExtBool (b : bool)
| ExtInt (n : Z).

#[global] Instance ext_value_eq_dec : EqDecision ext_value.
Proof. solve_decision. Defined.

Record DeployConfig := mkDeploy {
  Replicas : option Z;          (* *uint64 *)
}.

Record ServiceDependency := mkDependency {
  Condition : string;
}.

Module ServiceConfig.
Record t := mk {
    Name : string;
    Scale : Z;
    Deploy : option DeployConfig;                  (* *DeployConfig *)
    DependsOn : list (string * ServiceDependency); (* a Go map, in the order
                                                      its range visits it *)
    Networks : list string;                        (* keys of a Go map *)
    Extensions : option (gmap string ext_value);   (* None is the nil map *)
  }.
End ServiceConfig.
Abbreviation ServiceConfig := ServiceConfig.t.

Module Project.
Record t := mk {
    Name : string;
    Services : list ServiceConfig;
  }.
End Project.
Abbreviation Project := Project.t.

Definition extLifecycle : string := "x-lifecycle".
Definition forceRecreate : string := "force_recreate".

(** [service.Extensions[key]]: reading a nil map gives the nil interface. *)
Definition extension (s : ServiceConfig) (key : string) : option ext_value :=
  match ServiceConfig.Extensions s with
  | None => None
  | Some m => m !! key
  end.

Definition getScale (config : ServiceConfig) : Z :=
  let by_scale :=
    if negb (ServiceConfig.Scale config =? 0) then ServiceConfig.Scale config
    else 1 in
  match ServiceConfig.Deploy config with
  | Some deploy =>
      match Replicas deploy with
      | Some replicas => wrap replicas       (* int(uint64) *)
      | None => by_scale
      end
  | None => by_scale
  end.

(** ** Collaborators of [convergence.go] *)

(** What [getContainerCreateOptions] hands to the runtime's create call. *)
Record CreateOptions := mkCreateOptions {
  Image : string;
  CreateLabels : gmap string string;
}.

(** Functions of the package and of compose-go that [convergence.go]
    calls and that live elsewhere. *)
Class Collaborators := {
  jsonHash : ServiceConfig -> result string;
  getContainerName : Container -> string;
  getContainerCreateOptions :
    Project -> ServiceConfig -> Z -> option Container -> result CreateOptions;
  GetDependencies : ServiceConfig -> list string;
}.

(** Modelled from the spec: [contains], the helper of package [local]
    that tells whether a dependency list includes a service name. *)
Fixpoint contains (slice : list string) (item : string) : bool :=
  match slice with
  | [] => false
  | v :: rest => if String.eqb v item then true else contains rest item
  end.

(** The result of inspecting a container, [moby.ContainerJSON]. *)
Module Inspect.
Record Health := mkHealth { Status : string }.
Record ContainerState := mkState { Health_ : option Health }.
Record ContainerJSON := mk { State : option ContainerState }.
End Inspect.
Abbreviation ContainerJSON := Inspect.ContainerJSON.

(** The container runtime as [convergence.go] reaches it: the methods of
    [containerService] ([Stop], [Delete], [Start], [create]) and of its
    [apiClient], over a runtime state [RT]. *)
Class Runtime (RT : Type) := {
  ContainerList : list string -> RT -> result (list Container) * RT;
  ContainerInspect : string -> RT -> result ContainerJSON * RT;
  Stop : string -> RT -> result unit * RT;
  Delete : string -> RT -> result unit * RT;
  Start : string -> RT -> result unit * RT;
  create : CreateOptions -> string -> RT -> result string * RT;
  ContainerRename : string -> string -> RT -> result unit * RT;
  ContainerStart : string -> RT -> result unit * RT;
  NetworkConnect : string -> string -> list string -> RT -> result unit * RT;
}.

(** A call made to the runtime, as logged by the model. *)
Inductive Call :=
| CallContainerList (labels : list string)
| CallContainerInspect (id : string)
| CallStop (id : string)
| CallDelete (id : string)
| CallStart (id : string)
| CallCreate (opts : CreateOptions) (name : string)
| CallContainerRename (id name : string)
| CallContainerStart (id : string)
| CallNetworkConnect (net id : string) (aliases : list string).

#[global] Instance CreateOptions_eq_dec : EqDecision CreateOptions.
Proof. solve_decision. Defined.
#[global] Instance Call_eq_dec : EqDecision Call.
Proof. solve_decision. Defined.

(** The calls that change the runtime; listing and inspecting do not. *)
Definition is_mutation (c : Call) : bool :=
  match c with
  | CallContainerList _ | CallContainerInspect _ => false
  | _ => true
  end.

(** Progress events; [ID] is ["Service %q"] of the service name held in
    [EventService]. *)
Inductive EventStatus := Working | Done.
Record Event := mkEvent {
  EventService : string;
  Status : EventStatus;
  StatusText : string;
}.

(** The closures handed to the reconciler's errgroup. *)
Inductive Task :=
| TaskCreate (service : ServiceConfig) (name : string) (number : Z)
| TaskStopDelete (container : Container)
| TaskRecreate (service : ServiceConfig) (container : Container)
| TaskRestart (service : ServiceConfig) (container : Container).

(** ** The state the code runs in *)

Record World (RT : Type) := mkWorld {
  runtime : RT;                 (* the container runtime *)
  calls : list Call;            (* runtime calls so far, oldest first *)
  events : list Event;          (* progress events so far *)
  project : Project;            (* the object behind [*types.Project] *)
  dispatched : list Task;       (* closures given to [eg.Go], in order *)
  group_err : option error;     (* the errgroup's first error *)
}.
Arguments mkWorld {RT}.
Arguments runtime {RT}.
Arguments calls {RT}.
Arguments events {RT}.
Arguments project {RT}.
Arguments dispatched {RT}.
Arguments group_err {RT}.

(** How a Go function ends: it returns, returns a non-nil error, panics,
    or is still polling when the model's fuel is spent. *)
Inductive outcome (A : Type) :=
| Returns (a : A)
| Fails (e : error)
| Panics
| Polling.
Arguments Returns {A} a.
Arguments Fails {A} e.
Arguments Panics {A}.
Arguments Polling {A}.

Definition M (RT A : Type) : Type := World RT -> outcome A * World RT.

Definition ret {RT A} (a : A) : M RT A := fun w => (Returns a, w).

Definition bind {RT A B} (m : M RT A) (k : A -> M RT B) : M RT B :=
  fun w =>
    match m w with
    | (Returns a, w') => k a w'
    | (Fails e, w') => (Fails e, w')
    | (Panics, w') => (Panics, w')
    | (Polling, w') => (Polling, w')
    end.

Definition fail {RT A} (e : error) : M RT A := fun w => (Fails e, w).
Definition panic {RT A} : M RT A := fun w => (Panics, w).
Definition polling {RT A} : M RT A := fun w => (Polling, w).

Definition lift {RT A} (r : result A) : M RT A :=
  match r with
  | Ok a => ret a
  | Err e => fail e
  end.

Declare Scope go_scope.
Delimit Scope go_scope with go.
Notation "x <- m ;; k" := (bind m (fun x => k))
  (at level 100, m at next level, right associativity) : go_scope.
Notation "m ;;; k" := (bind m (fun _ => k))
  (at level 100, k at level 200, right associativity) : go_scope.

(** [for _, x := range xs { body }] *)
Fixpoint for_range {RT A} (xs : list A) (body : A -> M RT unit) : M RT unit :=
  match xs with
  | [] => ret tt
  | x :: rest => bind (body x) (fun _ => for_range rest body)
  end.

(** ** Go's strings and slices *)

(** [s[:n]] on a string: a run-time panic when [n] exceeds the length. *)
Definition string_prefix (s : string) (n : nat) : option string :=
  if (String.length s <? n)%nat then None else Some (substring 0 n s).

(** [xs[i]] for an [int] index: a run-time panic out of range. *)
Definition index {A} (xs : list A) (i : Z) : option A :=
  if i <? 0 then None else xs !! Z.to_nat i.

(** [xs[:n]] for [n] not above the length: a run-time panic when [n] is
    negative. *)
Definition slice_to {A} (xs : list A) (n : Z) : option (list A) :=
  if (n <? 0) || (Z.of_nat (length xs) <? n) then None
  else Some (take (Z.to_nat n) xs).

Definition len {A} (xs : list A) : Z := Z.of_nat (length xs).

(** ** [convergence.go] *)

Section Convergence.
Context `{LabelKeys} `{Collaborators} {RT : Type} `{Runtime RT}.
  Local Open Scope go_scope.

  (** A call to the runtime: logged, then answered by the runtime. *)
Definition invoke {A} (c : Call) (op : RT -> result A * RT) : M RT A :=
    fun w =>
      let '(r, rt') := op (runtime w) in
      let w' := mkWorld rt' (calls w ++ [c]) (events w) (project w)
                        (dispatched w) (group_err w) in
      match r with
      | Ok a => (Returns a, w')
      | Err e => (Fails e, w')
      end.

  (** [w.Event(...)] on the progress writer of the context. *)
Definition emit (e : Event) : M RT unit :=
    fun w =>
      (Returns tt,
       mkWorld (runtime w) (calls w) (events w ++ [e]) (project w)
               (dispatched w) (group_err w)).

Definition get_project : M RT Project :=
    fun w => (Returns (project w), w).

Definition set_project (p : Project) : M RT unit :=
    fun w =>
      (Returns tt,
       mkWorld (runtime w) (calls w) (events w) p (dispatched w)
               (group_err w)).

  (** *** errgroup *)

Definition errgroup_WithContext : M RT unit :=
    fun w =>
      (Returns tt,
       mkWorld (runtime w) (calls w) (events w) (project w) [] None).

  (** A goroutine of the group, run to its end as soon as it is started:
      its error, if it is the group's first, is kept for [Wait]. *)
Definition go (body : M RT unit) : M RT unit :=
    fun w =>
      match body w with
      | (Returns _, w') => (Returns tt, w')
      | (Fails e, w') =>
          (Returns tt,
           mkWorld (runtime w') (calls w') (events w') (project w')
                   (dispatched w')
                   (match group_err w' with
                    | None => Some e
                    | Some first => Some first
                    end))
      | (Panics, w') => (Panics, w')
      | (Polling, w') => (Polling, w')
      end.

Definition eg_Wait : M RT unit :=
    fun w =>
      match group_err w with
      | None => (Returns tt, w)
      | Some e => (Fails e, w)
      end.

Definition record_task (t : Task) : M RT unit :=
    fun w =>
      (Returns tt,
       mkWorld (runtime w) (calls w) (events w) (project w)
               (dispatched w ++ [t]) (group_err w)).

  (** *** The health gate *)

Definition list_filters (projectName serviceName : string) : list string :=
    [projectLabel ++ "=" ++ projectName; serviceLabel ++ "=" ++ serviceName]%string.

Fixpoint isServiceHealthy_range (service : string)
      (containers : list Container) : M RT bool :=
    match containers with
    | [] => ret true
    | c :: rest =>
        container <- invoke (CallContainerInspect (ID c))
                            (ContainerInspect (ID c)) ;;
        match Inspect.State container with
        | None => fail (NoHealthcheck service)
        | Some state =>
            match Inspect.Health_ state with
            | None => fail (NoHealthcheck service)
            | Some health =>
                if String.eqb (Inspect.Status health) "starting" then ret false
                else if String.eqb (Inspect.Status health) "unhealthy"
                then ret false
                else isServiceHealthy_range service rest
            end
        end
    end.

Definition isServiceHealthy (service : string) : M RT bool :=
    p <- get_project ;;
    let filters := list_filters (Project.Name p) service in
    containers <- invoke (CallContainerList filters) (ContainerList filters) ;;
    isServiceHealthy_range service containers.

  (** The poll loop of one dependency; a tick of the ticker per round. *)
Fixpoint poll (fuel : nat) (dep : string) : M RT unit :=
    match fuel with
    | O => polling
    | S fuel' =>
        healthy <- isServiceHealthy dep ;;
        if healthy : bool then ret tt else poll fuel' dep
    end.

  (** The key the range loop over [DependsOn] visits last; the list is in
      the order of the visit. *)
Definition last_visited (deps : list (string * ServiceDependency)) : string :=
    default "" (last deps.*1).

  (** The range variable [dep] is one variable for the whole loop (the
      package is built with the loop semantics of Go before 1.22, and the
      loop does not rebind it as the drift loop rebinds [container]).  The
      closures read it after their first tick, 500ms after the loop that
      does not block is over: every goroutine of the gate polls the key
      that was visited last. *)
Definition waitDependencies (fuel : nat) (service : ServiceConfig)
    : M RT unit :=
    errgroup_WithContext ;;;
    let dep := last_visited (ServiceConfig.DependsOn service) in
    for_range (ServiceConfig.DependsOn service)
      (fun '(_, config) =>
         if String.eqb (Condition config) "service_healthy"
         then go (poll fuel dep)
         else ret tt) ;;;
    eg_Wait.

  (** *** Lifecycle operations *)

Definition connectContainerToNetwork (id service n : string) : M RT unit :=
    invoke (CallNetworkConnect n id [service]) (NetworkConnect n id [service]).

Definition runContainer (service : ServiceConfig) (name : string)
      (number : Z) (container : option Container) : M RT unit :=
    p <- get_project ;;
    opts <- lift (getContainerCreateOptions p service number container) ;;
    id <- invoke (CallCreate opts name) (create opts name) ;;
    for_range (ServiceConfig.Networks service)
      (fun net =>
         let name := (Project.Name p ++ "_" ++ net)%string in
         connectContainerToNetwork id (ServiceConfig.Name service) name) ;;;
    invoke (CallContainerStart id) (ContainerStart id).

Definition createContainer (service : ServiceConfig) (name : string)
      (number : Z) : M RT unit :=
    emit (mkEvent (ServiceConfig.Name service) Working "Create") ;;;
    runContainer service name number None ;;;
    emit (mkEvent (ServiceConfig.Name service) Done "Created").

  (** One service of the range loop of [setDependentLifecycle]: the copy
      [s] gets the annotation and is written back at its index. *)
Definition setDependentLifecycle_step (service strategy : string)
      (services : list ServiceConfig) (i : nat) : list ServiceConfig :=
    match services !! i with
    | None => services
    | Some s =>
        if contains (GetDependencies s) service then
          let extensions := default ∅ (ServiceConfig.Extensions s) in
          let s' := ServiceConfig.mk
                      (ServiceConfig.Name s) (ServiceConfig.Scale s)
                      (ServiceConfig.Deploy s) (ServiceConfig.DependsOn s)
                      (ServiceConfig.Networks s)
                      (Some (<[extLifecycle := ExtString strategy]> extensions)) in
          <[i := s']> services
        else services
    end.

Definition setDependentLifecycle (p : Project) (service strategy : string)
    : Project :=
    Project.mk (Project.Name p)
      (foldl (setDependentLifecycle_step service strategy)
             (Project.Services p) (seq 0 (length (Project.Services p)))).

Definition recreateContainer (service : ServiceConfig)
      (container : Container) : M RT unit :=
    emit (mkEvent (ServiceConfig.Name service) Working "Recreate") ;;;
    invoke (CallStop (ID container)) (Stop (ID container)) ;;;
    let name := getContainerName container in
    match string_prefix (ID container) 12 with
    | None => panic
    | Some prefix =>
        let tmpName := (prefix ++ "_" ++ name)%string in
        invoke (CallContainerRename (ID container) tmpName)
               (ContainerRename (ID container) tmpName) ;;;
        number <- lift (Atoi (label container containerNumberLabel)) ;;
        runContainer service name number (Some container) ;;;
        invoke (CallDelete (ID container)) (Delete (ID container)) ;;;
        emit (mkEvent (ServiceConfig.Name service) Done "Recreated") ;;;
        p <- get_project ;;
        set_project
          (setDependentLifecycle p (ServiceConfig.Name service) forceRecreate)
    end.

  (** The name the old container is parked under. *)
Definition tmpName (container : Container) : string :=
    (substring 0 12 (ID container) ++ "_" ++ getContainerName container)%string.

  (** The steps of [recreateContainer] up to the create step: the event,
      stop, rename and the parse of the instance number. *)
Definition recreate_prepare (service : ServiceConfig)
      (container : Container) : M RT Z :=
    emit (mkEvent (ServiceConfig.Name service) Working "Recreate") ;;;
    invoke (CallStop (ID container)) (Stop (ID container)) ;;;
    match string_prefix (ID container) 12 with
    | None => panic
    | Some prefix =>
        let tmpName := (prefix ++ "_" ++ getContainerName container)%string in
        invoke (CallContainerRename (ID container) tmpName)
               (ContainerRename (ID container) tmpName) ;;;
        lift (Atoi (label container containerNumberLabel))
    end.

  (** The steps after it: delete the old container, the event, the
      propagation to dependent services. *)
Definition recreate_finish (service : ServiceConfig)
      (container : Container) : M RT unit :=
    invoke (CallDelete (ID container)) (Delete (ID container)) ;;;
    emit (mkEvent (ServiceConfig.Name service) Done "Recreated") ;;;
    p <- get_project ;;
    set_project
      (setDependentLifecycle p (ServiceConfig.Name service) forceRecreate).

Definition restartContainer (service : ServiceConfig)
      (container : Container) : M RT unit :=
    emit (mkEvent (ServiceConfig.Name service) Working "Restart") ;;;
    invoke (CallStart (ID container)) (Start (ID container)) ;;;
    emit (mkEvent (ServiceConfig.Name service) Done "Restarted").

  (** The closure of the scale-down loop. *)
Definition stopAndDelete (container : Container) : M RT unit :=
    invoke (CallStop (ID container)) (Stop (ID container)) ;;;
    invoke (CallDelete (ID container)) (Delete (ID container)).

Definition run_task (t : Task) : M RT unit :=
    match t with
    | TaskCreate service name number => createContainer service name number
    | TaskStopDelete container => stopAndDelete container
    | TaskRecreate service container => recreateContainer service container
    | TaskRestart service container => restartContainer service container
    end.

  (** [eg.Go(func() error { ... })] *)
Definition eg_Go (t : Task) : M RT unit :=
    record_task t ;;; go (run_task t).

  (** *** The reconciler *)

Definition scaleUp (service : ServiceConfig) (actual : list Container)
      (scale : Z) : M RT unit :=
    if len actual <? scale then
      next <- lift (nextContainerNumber actual) ;;
      let missing := scale - len actual in
      p <- get_project ;;
      for_range (seqZ 0 missing)
        (fun i =>
           let number := wrap (next + i) in
           let name := (Project.Name p ++ "_" ++ ServiceConfig.Name service
                        ++ "_" ++ pretty number)%string in
           eg_Go (TaskCreate service name number))
    else ret tt.

Definition scaleDown (actual : list Container) (scale : Z)
    : M RT (list Container) :=
    if len actual >? scale then
      for_range (seqZ scale (len actual - scale))
        (fun i =>
           match index actual i with
           | None => panic
           | Some container => eg_Go (TaskStopDelete container)
           end) ;;;
      match slice_to actual scale with
      | None => panic
      | Some prefix => ret prefix
      end
    else ret actual.

Definition driftPass (service : ServiceConfig) (expected : string)
      (actual : list Container) : M RT unit :=
    for_range actual
      (fun container =>
         let diverged :=
           negb (String.eqb (label container configHashLabel) expected) in
         if diverged
            || bool_decide (extension service extLifecycle
                            = Some (ExtString forceRecreate))
         then eg_Go (TaskRecreate service container)
         else if String.eqb (State container) "running" then ret tt
         else eg_Go (TaskRestart service container)).

  (** The part of [ensureService] that follows the listing. *)
Definition reconcile (service : ServiceConfig) (actual : list Container)
    : M RT unit :=
    let scale := getScale service in
    errgroup_WithContext ;;;
    scaleUp service actual scale ;;;
    actual <- scaleDown actual scale ;;
    expected <- lift (jsonHash service) ;;
    driftPass service expected actual ;;;
    eg_Wait.

Definition ensureService (fuel : nat) (service : ServiceConfig)
    : M RT unit :=
    waitDependencies fuel service ;;;
    p <- get_project ;;
    let filters := list_filters (Project.Name p) (ServiceConfig.Name service) in
    actual <- invoke (CallContainerList filters) (ContainerList filters) ;;
    reconcile service actual.

End Convergence.

(** ** What the proofs ask of a runtime

    Only a rename or a delete changes under which name the runtime holds
    a container, where [name_of rt id] is the name of the container [id]
    when the runtime [rt] holds one. *)
Class RuntimeLaws (RT : Type) `{Runtime RT}
    (name_of : RT -> string -> option string) : Prop := {
  Stop_name_of : forall id rt id',
    name_of (Stop id rt).2 id' = name_of rt id';
  ContainerRename_name_of : forall id name rt,
    (ContainerRename id name rt).1 = Ok tt ->
    name_of (ContainerRename id name rt).2 id = Some name;
  create_name_of : forall opts name rt id' name',
    name_of rt id' = Some name' ->
    name_of (create opts name rt).2 id' = Some name';
  NetworkConnect_name_of : forall net id aliases rt id',
    name_of (NetworkConnect net id aliases rt).2 id' = name_of rt id';
  ContainerStart_name_of : forall id rt id',
    name_of (ContainerStart id rt).2 id' = name_of rt id';
}.

(** ** A reference runtime

    A runtime small enough to run: a list of containers, a script of
    injected faults (one entry per call, [Some e] makes the call fail
    with [e] and change nothing) and a supply of identifiers for new
    containers. *)
Module Sim.

Record entry := mkEntry {
    summary : Container;
    health : option string;       (* None: no health check configured *)
  }.

Record t := mk {
    entries : list entry;
    faults : list (option error);
    fresh : list string;
  }.

Definition has_id (id : string) (e : entry) : bool :=
    String.eqb (ID (summary e)) id.

Definition find (id : string) (rt : t) : option entry :=
    List.find (has_id id) (entries rt).

Definition update (id : string) (f : entry -> entry) (rt : t) : t :=
    mk (map (fun e => if has_id id e then f e else e) (entries rt))
       (faults rt) (fresh rt).

  (** One entry of the fault script is used up by every call. *)
Definition guarded {A} (op : t -> result A * t) (rt : t) : result A * t :=
    match faults rt with
    | Some e :: rest => (Err e, mk (entries rt) rest (fresh rt))
    | None :: rest => op (mk (entries rt) rest (fresh rt))
    | [] => op rt
    end.

Definition no_such_container : error := ApiError "No such container".

Definition on_container (id : string) (f : entry -> entry) (rt : t)
    : result unit * t :=
    match find id rt with
    | None => (Err no_such_container, rt)
    | Some _ => (Ok tt, update id f rt)
    end.

Definition set_state (state : string) (e : entry) : entry :=
    let c := summary e in
    mkEntry (mkContainer (ID c) (Names c) (Labels c) state) (health e).

Definition set_name (name : string) (e : entry) : entry :=
    let c := summary e in
    mkEntry (mkContainer (ID c) ["/" ++ name]%string (Labels c) (State c))
            (health e).

Definition matches (c : Container) (filter : string) : bool :=
    existsb (fun kv => String.eqb (kv.1 ++ "=" ++ kv.2)%string filter)
            (map_to_list (Labels c)).

Definition list (filters : list string) (rt : t)
    : result (list Container) * t :=
    (Ok (List.filter (fun c => forallb (matches c) filters)
                     (map summary (entries rt))), rt).

Definition inspect (id : string) (rt : t) : result ContainerJSON * t :=
    match find id rt with
    | None => (Err no_such_container, rt)
    | Some e =>
        (Ok (Inspect.mk
               (Some (Inspect.mkState (Inspect.mkHealth <$> health e)))), rt)
    end.

Definition remove (id : string) (rt : t) : result unit * t :=
    match find id rt with
    | None => (Err no_such_container, rt)
    | Some _ =>
        (Ok tt, mk (List.filter (fun e => negb (has_id id e)) (entries rt))
                   (faults rt) (fresh rt))
    end.

Definition new (opts : CreateOptions) (name : string) (rt : t)
    : result string * t :=
    match fresh rt with
    | [] => (Err (ApiError "no identifier left"), rt)
    | id :: ids =>
        match find id rt with
        | Some _ => (Err (ApiError "Conflict"), rt)
        | None =>
            let c := mkContainer id ["/" ++ name]%string (CreateLabels opts)
                                 "created" in
            (Ok id, mk (entries rt ++ [mkEntry c None]) (faults rt) ids)
        end
    end.

Definition connect (id : string) (rt : t) : result unit * t :=
    match find id rt with
    | None => (Err no_such_container, rt)
    | Some _ => (Ok tt, rt)
    end.

#[export] Instance api : Runtime t := {|
    ContainerList filters := guarded (list filters);
    ContainerInspect id := guarded (inspect id);
    Stop id := guarded (on_container id (set_state "exited"));
    Delete id := guarded (remove id);
    Start id := guarded (on_container id (set_state "running"));
    create opts name := guarded (new opts name);
    ContainerRename id name := guarded (on_container id (set_name name));
    ContainerStart id := guarded (on_container id (set_state "running"));
    NetworkConnect net id aliases := guarded (connect id);
  |}.

  (** The canonical name of a container: its first name without the
      leading slash. *)
Definition canonical (c : Container) : string :=
    match Names c with
    | [] => ""
    | n :: _ => substring 1 (String.length n - 1) n
    end.

Definition name (rt : t) (id : string) : option string :=
    canonical ∘ summary <$> find id rt.

  (** The collaborators the reference runtime is run with: the hash of a
      service is its name, a new container gets the four labels. *)
#[export] Instance keys : LabelKeys := {|
    projectLabel := "com.docker.compose.project";
    serviceLabel := "com.docker.compose.service";
    containerNumberLabel := "com.docker.compose.container-number";
    configHashLabel := "com.docker.compose.config-hash";
  |}.

#[export] Instance collaborators : Collaborators := {|
    jsonHash service := Ok (ServiceConfig.Name service);
    getContainerName := canonical;
    getContainerCreateOptions p service number container :=
      Ok (mkCreateOptions "image"
            (<[projectLabel := Project.Name p]>
               (<[serviceLabel := ServiceConfig.Name service]>
                  (<[containerNumberLabel := pretty number]>
                     {[configHashLabel := ServiceConfig.Name service]}))));
    GetDependencies service := (ServiceConfig.DependsOn service).*1;
  |}.

Definition world (rt : t) (p : Project) : World t :=
    mkWorld rt [] [] p [] None.

  (** A container that carries the instance number [number], and nothing
      unusual otherwise. *)
Definition numbered (number : string) : Container :=
    mkContainer "4f2a9c01d7e3b8a6" ["/proj_web_1"]
      {[ containerNumberLabel := number ]} "running".

End Sim.

(** ** A project to run the model on

    Service [web] wants two containers; [api] and [worker] depend on it,
    [db] does not. *)
Module Scenario.
Import Sim.

Definition labels (service number hash : string) : gmap string string :=
  <[projectLabel := "proj"]>
    (<[serviceLabel := service]>
       (<[containerNumberLabel := number]> {[configHashLabel := hash]})).

Definition web : ServiceConfig :=
  ServiceConfig.mk "web" 2 None [] ["default"] None.

Definition api : ServiceConfig :=
  ServiceConfig.mk "api" 1 None
    [("web", mkDependency "service_healthy");
     ("db", mkDependency "service_started")] ["default"] None.

Definition worker : ServiceConfig :=
  ServiceConfig.mk "worker" 0 None [("web", mkDependency "service_started")] []
    (Some (<[extLifecycle := ExtString "keep"]> {["x-team" := ExtString "ops"]})).

Definition db : ServiceConfig :=
  ServiceConfig.mk "db" 0 None [] [] None.

Definition proj : Project := Project.mk "proj" [web; api; worker; db].

(** [web_1] is up to date and running, [web_2] was created from an older
    configuration, [web_3] is up to date and stopped, [web_4] has an
    identifier of 7 bytes. *)
Definition web_1 : Container :=
  mkContainer "0a1b2c3d4e5f60718293" ["/proj_web_1"] (labels "web" "1" "web")
              "running".
Definition web_2 : Container :=
  mkContainer "1b2c3d4e5f6071829304" ["/proj_web_2"] (labels "web" "2" "stale")
              "running".
Definition web_3 : Container :=
  mkContainer "2c3d4e5f607182930415" ["/proj_web_3"] (labels "web" "3" "web")
              "exited".
Definition web_4 : Container :=
  mkContainer "3d4e5f6" ["/proj_web_4"] (labels "web" "4" "stale") "running".
Definition api_1 : Container :=
  mkContainer "4e5f60718293041526a7" ["/proj_api_1"] (labels "api" "1" "api")
              "running".
Definition db_1 : Container :=
  mkContainer "5f60718293041526a7b8" ["/proj_db_1"] (labels "db" "1" "db")
              "running".
Definition db_2 : Container :=
  mkContainer "60718293041526a7b8c9" ["/proj_db_2"] (labels "db" "2" "db")
              "running".

Definition new_id : string := "718293041526a7b8c9d0".

(** Three [web] containers, none with a health check. *)
Definition three_web : Sim.t :=
  Sim.mk [mkEntry web_1 None; mkEntry web_2 None; mkEntry web_3 None] []
         [new_id].

(** The same, with a runtime that fails the third call made to it. *)
Definition create_fails : Sim.t :=
  Sim.mk [mkEntry web_1 None; mkEntry web_2 None; mkEntry web_3 None]
         [None; None; Some (ApiError "create failed")] [new_id].

Definition short_id : Sim.t := Sim.mk [mkEntry web_4 None] [] [new_id].

(** At scale, in sync and running; [web] reports healthy. *)
Definition converged : Sim.t :=
  Sim.mk [mkEntry web_1 (Some "healthy"); mkEntry api_1 None] [] [new_id].

(** [db_1] is starting and [db_2] has no health check, listed in this
    order and in the other. *)
Definition starting_then_unchecked : Sim.t :=
  Sim.mk [mkEntry db_1 (Some "starting"); mkEntry db_2 None] [] [].
Definition unchecked_then_starting : Sim.t :=
  Sim.mk [mkEntry db_2 None; mkEntry db_1 (Some "starting")] [] [].
Definition healthy_then_starting : Sim.t :=
  Sim.mk [mkEntry db_1 (Some "healthy"); mkEntry db_2 (Some "starting")] [] [].

End Scenario.

(** ** Vocabulary of the proofs *)

(** The calls that [runContainer] makes. *)
Definition is_run_call (c : Call) : bool :=
  match c with
  | CallCreate _ _ | CallNetworkConnect _ _ _ | CallContainerStart _ => true
  | _ => false
  end.

Definition run_call (c : Call) : Prop := is_run_call c = true.

Definition reads_only (c : Call) : Prop := is_mutation c = false.

(** A service with its lifecycle annotation set to [strategy]. *)
Definition with_lifecycle (strategy : string) (s : ServiceConfig)
  : ServiceConfig :=
  ServiceConfig.mk
    (ServiceConfig.Name s) (ServiceConfig.Scale s) (ServiceConfig.Deploy s)
    (ServiceConfig.DependsOn s) (ServiceConfig.Networks s)
    (Some (<[extLifecycle := ExtString strategy]>
             (default ∅ (ServiceConfig.Extensions s)))).

(** The health status an inspection reports; [None] when no health check
    is configured. *)
Definition health_status (j : ContainerJSON) : option string :=
  match Inspect.State j with
  | None => None
  | Some state => Inspect.Status <$> Inspect.Health_ state
  end.

(** A container that does not hold the gate back: it has a health check
    and is neither starting nor unhealthy. *)
Definition passes (j : ContainerJSON) : Prop :=
  exists status, health_status j = Some status
                 /\ status <> "starting" /\ status <> "unhealthy".

(** Inspecting the containers [cs] one after the other, from the runtime
    state [rt], succeeds with the answers [js] and leaves [rt']. *)
Inductive inspected {RT} `{Runtime RT}
  : RT -> list Container -> list ContainerJSON -> RT -> Prop :=
| inspected_nil rt : inspected rt [] [] rt
| inspected_cons rt c j rt1 cs js rt2 :
    ContainerInspect (ID c) rt = (Ok j, rt1) ->
    inspected rt1 cs js rt2 ->
    inspected rt (c :: cs) (j :: js) rt2.

(** The container a task works on, if it works on an existing one. *)
Definition task_container (t : Task) : option Container :=
  match t with
  | TaskCreate _ _ _ => None
  | TaskStopDelete c | TaskRecreate _ c | TaskRestart _ c => Some c
  end.

(** The calls a recreate makes on the container it replaces. *)
Definition recreate_call `{Collaborators} (c : Container) (call : Call)
  : Prop :=
  call = CallStop (ID c)
  \/ call = CallContainerRename (ID c) (tmpName c)
  \/ call = CallDelete (ID c).

(** The calls the drift pass makes on a container of the listing: those
    of a recreate when the fingerprint label differs from the expected
    one or the service carries the force-recreate annotation; otherwise
    a start, when the container is not running. *)
Definition drift_call `{LabelKeys} `{Collaborators} (service : ServiceConfig)
    (expected : string) (c : Container) (call : Call) : Prop :=
  let recreate :=
    label c configHashLabel <> expected
    \/ extension service extLifecycle = Some (ExtString forceRecreate) in
  (recreate /\ recreate_call c call)
  \/ (~ recreate /\ State c <> "running" /\ call = CallStart (ID c)).

(** The call a task of the drift pass begins with. *)
Definition first_call (t : Task) : option Call :=
  match t with
  | TaskRecreate _ c => Some (CallStop (ID c))
  | TaskRestart _ c => Some (CallStart (ID c))
  | _ => None
  end.

(** The specification's rule for one container of the drift pass: a
    recreate when the fingerprint label differs from the expected one or
    the service carries the force-recreate annotation; otherwise nothing
    for a running container and a restart for any other. *)
Definition drift_task `{LabelKeys} (service : ServiceConfig)
    (expected : string) (c : Container) : option Task :=
  if decide (label c configHashLabel <> expected
             \/ extension service extLifecycle = Some (ExtString forceRecreate))
  then Some (TaskRecreate service c)
  else if decide (State c = "running") then None
  else Some (TaskRestart service c).

(** Hand a task to the group, or do nothing. *)
Definition dispatch `{LabelKeys} `{Collaborators} {RT} `{Runtime RT}
    (o : option Task) : M RT unit :=
  match o with
  | Some t => eg_Go t
  | None => ret tt
  end.

Inductive ending := Returned | Failed | Panicked | StillPolling.

Definition returns_or_fails (e : ending) : Prop :=
  e = Returned \/ e = Failed.

Definition no_panic (e : ending) : Prop := e <> Panicked.

Definition no_polling (e : ending) : Prop := e <> StillPolling.

Definition ending_of {A} (r : outcome A) : ending :=
  match r with
  | Returns _ => Returned
  | Fails _ => Failed
  | Panics => Panicked
  | Polling => StillPolling
  end.

Section Vocabulary.
Context {RT : Type}.

  (** Every run of [m] ends in a way that [ok] allows. *)
Definition ends_in (ok : ending -> Prop) {A} (m : M RT A) : Prop :=
    forall w, ok (ending_of (m w).1).

  (** Every run of [m] takes a world to one related to it by [R]. *)
Definition respects (R : relation (World RT)) {A} (m : M RT A) : Prop :=
    forall w, R w (m w).2.

  (** The log of calls grows by calls that satisfy [P]. *)
Definition calls_grow (P : Call -> Prop) : relation (World RT) :=
    fun w w' => exists tr, calls w' = calls w ++ tr /\ Forall P tr.

  (** Nothing is handed to the errgroup. *)
Definition same_dispatched : relation (World RT) :=
    fun w w' => dispatched w' = dispatched w.

  (** The runtime is not called and the group is left alone. *)
Definition same_runtime : relation (World RT) :=
    fun w w' => runtime w' = runtime w /\ calls w' = calls w.

  (** Containers keep their names. *)
Definition names_kept (name_of : RT -> string -> option string)
  : relation (World RT) :=
    fun w w' => forall id name,
      name_of (runtime w) id = Some name ->
      name_of (runtime w') id = Some name.

  (** What a relation must allow for a call [c] to respect it. *)
Definition allows (R : relation (World RT)) {A} (c : Call)
      (op : RT -> result A * RT) : Prop :=
    forall w,
      R w (mkWorld (op (runtime w)).2 (calls w ++ [c]) (events w) (project w)
                   (dispatched w) (group_err w)).

  (** Relations that do not look at the events, the project or the
      group's error. *)
Class Frame (R : relation (World RT)) := {
    frame_preorder :: PreOrder R;
    frame_events : forall w evs,
      R w (mkWorld (runtime w) (calls w) evs (project w) (dispatched w)
                   (group_err w));
    frame_project : forall w p,
      R w (mkWorld (runtime w) (calls w) (events w) p (dispatched w)
                   (group_err w));
    frame_group_err : forall w err,
      R w (mkWorld (runtime w) (calls w) (events w) (project w)
                   (dispatched w) err);
  }.

End Vocabulary.

(** ** More of the project to run the model on *)
Module Scenario2.
Import Sim Scenario.

(** A container of [web] whose instance-number label is not a number. *)
Definition web_x : Container :=
  mkContainer "8293041526a7b8c9d0e1" ["/proj_web_x"] (labels "web" "x" "web")
              "running".

Definition unnumbered : Sim.t := Sim.mk [mkEntry web_x None] [] [new_id].

(** A service gated on the health of [db] and of [web], visited in this
    order: both goroutines of its gate poll [web]. *)
Definition edge : ServiceConfig :=
  ServiceConfig.mk "edge" 1 None
    [("db", mkDependency "service_healthy");
     ("web", mkDependency "service_healthy")] [] None.

(** The converged runtime, failing the fifth call made to it: the one
    that follows the two polls, a list and an inspect each, of the gate
    of [edge]. *)
Definition listing_fails : Sim.t :=
  Sim.mk [mkEntry web_1 (Some "healthy"); mkEntry api_1 None]
         [None; None; None; None; Some (ApiError "list failed")] [new_id].

(** The stale [web_2] and a container of [api] that is in sync and
    running, with an identifier for the replacement of each. *)
Definition cascade : Sim.t :=
  Sim.mk [mkEntry web_2 None; mkEntry api_1 None] []
         [new_id; "93041526a7b8c9d0e1f2"].

(** [web_1] is still starting. *)
Definition web_starting : Sim.t :=
  Sim.mk [mkEntry web_1 (Some "starting"); mkEntry api_1 None] [] [new_id].

(** A service that asks for a negative number of containers. *)
Definition negative : ServiceConfig :=
  ServiceConfig.mk "web" (-1) None [] [] None.

(** Collaborators whose [jsonHash] fails. *)
Definition hash_fails : Collaborators := {|
  jsonHash service := Err (ApiError "hash failed");
  getContainerName := getContainerName;
  getContainerCreateOptions := getContainerCreateOptions;
  GetDependencies := GetDependencies;
|}.

End Scenario2.

(** ** Vocabulary of the further properties *)

Definition is_create_task (t : Task) : bool :=
  match t with TaskCreate _ _ _ => true | _ => false end.

Definition is_stop_delete_task (t : Task) : bool :=
  match t with TaskStopDelete _ => true | _ => false end.

Definition task_number (t : Task) : option Z :=
  match t with TaskCreate _ _ number => Some number | _ => None end.

Definition task_name (t : Task) : option string :=
  match t with TaskCreate _ name _ => Some name | _ => None end.

(** The event a task emits when it starts, and the one it emits when it
    is done; the closure of the scale-down emits none. *)
Definition started_events (t : Task) : list Event :=
  match t with
  | TaskCreate s _ _ => [mkEvent (ServiceConfig.Name s) Working "Create"]
  | TaskRecreate s _ => [mkEvent (ServiceConfig.Name s) Working "Recreate"]
  | TaskRestart s _ => [mkEvent (ServiceConfig.Name s) Working "Restart"]
  | TaskStopDelete _ => []
  end.

Definition done_events (t : Task) : list Event :=
  match t with
  | TaskCreate s _ _ => [mkEvent (ServiceConfig.Name s) Done "Created"]
  | TaskRecreate s _ => [mkEvent (ServiceConfig.Name s) Done "Recreated"]
  | TaskRestart s _ => [mkEvent (ServiceConfig.Name s) Done "Restarted"]
  | TaskStopDelete _ => []
  end.

(** The network calls of [runContainer] for the container [id]. *)
Definition connect_calls (projectName : string) (service : ServiceConfig)
    (id : string) : list Call :=
  (fun net => CallNetworkConnect (projectName ++ "_" ++ net)%string id
                                 [ServiceConfig.Name service])
    <$> ServiceConfig.Networks service.

Definition parses `{LabelKeys} (c : Container) : Prop :=
  exists n, Atoi (label c containerNumberLabel) = Ok n.

Section FurtherVocabulary.
Context {RT : Type}.

(** The group is handed tasks that satisfy [P], and no other. *)
Definition dispatched_grow (P : Task -> Prop) : relation (World RT) :=
  fun w w' => exists ts, dispatched w' = dispatched w ++ ts /\ Forall P ts.

Definition same_project : relation (World RT) :=
  fun w w' => project w' = project w.

Definition same_events : relation (World RT) :=
  fun w w' => events w' = events w.

End FurtherVocabulary.

(** The list call of a poll of the dependency [dep]. *)
Definition poll_list_call `{LabelKeys} (p : Project) (dep : string) : Call :=
  CallContainerList (list_filters (Project.Name p) dep).

(** The calls of a poll of [dep]: its list call, and inspect calls. *)
Definition poll_call `{LabelKeys} (p : Project) (dep : string) (call : Call)
  : Prop :=
  call = poll_list_call p dep \/ exists id, call = CallContainerInspect id.

(** The project is kept and the runtime is only asked what a poll of
    [dep] asks. *)
Definition polls `{LabelKeys} {RT} (dep : string) : relation (World RT) :=
  fun w w' => project w' = project w
              /\ calls_grow (poll_call (project w) dep) w w'.

(** * Properties *)

(** ** Integers and [Atoi] *)

Lemma wrap_id z : MinInt <= z <= MaxInt -> wrap z = z.
Proof.
  unfold wrap, MinInt, MaxInt, intSize. intros Hz.
  rewrite Z.mod_small; lia.
Qed.

Lemma in_range_spec z : in_range z = true <-> MinInt <= z <= MaxInt.
Proof. unfold in_range. rewrite andb_true_iff, !Z.leb_le. tauto. Qed.

Lemma is_digit_not_sign a :
  is_digit a = true -> a <> "-"%char /\ a <> "+"%char.
Proof. split; intros ->; discriminate. Qed.

Lemma digit_value_range a : is_digit a = true -> 0 <= digit_value a <= 9.
Proof.
  unfold is_digit, digit_value. intros Ha.
  apply andb_prop in Ha as [Hlo Hhi].
  apply Nat.leb_le in Hlo, Hhi. lia.
Qed.

Lemma decimal_foldl_ge s : forall acc,
  all_digits s = true -> 0 <= acc ->
  acc <= foldl (fun acc a => acc * 10 + digit_value a) acc
               (list_ascii_of_string s).
Proof.
  unfold all_digits.
  induction s as [|a s IH]; intros acc Hs Hacc; simpl in *; [lia|].
  apply andb_prop in Hs as [Ha Hs]. apply digit_value_range in Ha.
  specialize (IH (acc * 10 + digit_value a) Hs). lia.
Qed.

(** On a run of digits the loop gives the number the digits denote, or a
    range error when [uint64] does not hold it. *)
Lemma ParseUint_loop_digits s : forall acc,
  all_digits s = true -> 0 <= acc <= maxUint64 ->
  ParseUint_loop acc s
  = let v := foldl (fun acc a => acc * 10 + digit_value a) acc
                   (list_ascii_of_string s) in
    if v <=? maxUint64 then inr v else inl ErrRange.
Proof.
  induction s as [|a s IH]; intros acc Hs Hacc.
  - simpl. destruct (Z.leb_spec acc maxUint64); [done|lia].
  - pose proof (decimal_foldl_ge (String a s) acc Hs ltac:(lia)) as Hge.
    unfold all_digits in Hs. simpl in Hs, Hge |- *.
    apply andb_prop in Hs as [Ha Hs]. rewrite Ha. simpl. cbv zeta.
    pose proof (digit_value_range a Ha) as Hd.
    pose proof (decimal_foldl_ge s (acc * 10 + digit_value a) Hs ltac:(lia))
      as Hge1.
    destruct (Z.leb_spec cutoff acc) as [Hcut|Hcut].
    { assert (maxUint64 < cutoff * 10) as Hc by done.
      match goal with
      | |- context [?v <=? maxUint64] => destruct (Z.leb_spec v maxUint64)
      end; [lia|done]. }
    destruct (Z.ltb_spec maxUint64 (acc * 10 + digit_value a)) as [Hover|Hfit].
    { match goal with
      | |- context [?v <=? maxUint64] => destruct (Z.leb_spec v maxUint64)
      end; [lia|done]. }
    apply IH; [done|lia].
Qed.

Lemma ParseUint_loop_inr s : forall acc v,
  ParseUint_loop acc s = inr v -> all_digits s = true.
Proof.
  unfold all_digits.
  induction s as [|a s IH]; intros acc v; simpl; [done|].
  destruct (is_digit a); [|done]. simpl.
  destruct (cutoff <=? acc); [done|].
  destruct (maxUint64 <? _); [done|]. apply IH.
Qed.

Lemma maxUint64_nonneg : 0 <= 0 <= maxUint64.
Proof. unfold maxUint64. lia. Qed.

Lemma is_nonneg_decimal_digits body :
  is_nonneg_decimal body = true -> all_digits body = true /\ body <> "".
Proof. destruct body; [done|]. simpl. by intros ->. Qed.

Lemma split_sign_decimal body :
  is_nonneg_decimal body = true -> split_sign body = (false, body).
Proof.
  destruct body as [|a body]; [done|]. unfold is_nonneg_decimal, all_digits.
  simpl. intros Hd. apply andb_prop in Hd as [Ha _].
  apply is_digit_not_sign in Ha as [Hm Hp].
  unfold split_sign.
  destruct (ascii_dec a "-") as [->|_]; [done|].
  destruct (ascii_dec a "+") as [->|_]; [done|].
  destruct a as [[] [] [] [] [] [] [] []]; try reflexivity; congruence.
Qed.

Lemma Atoi_split s neg body v :
  split_sign s = (neg, body) -> is_nonneg_decimal body = true ->
  v = decimal_value body ->
  Atoi s = let n := if neg then - v else v in
           if in_range n then Ok n else Err (NumError "Atoi" s ErrRange).
Proof.
  intros Hs Hb ->. unfold Atoi. rewrite Hs.
  apply is_nonneg_decimal_digits in Hb as [Hd Hne].
  rewrite (ParseUint_loop_digits _ _ Hd maxUint64_nonneg).
  fold (decimal_value body). cbv zeta.
  destruct body as [|a body]; [done|].
  destruct (Z.leb_spec (decimal_value (String a body)) maxUint64)
    as [_|Hover]; [done|].
  assert (in_range (if neg then - decimal_value (String a body)
                    else decimal_value (String a body)) = false) as ->; [|done].
  apply not_true_iff_false. rewrite in_range_spec.
  unfold MinInt, MaxInt, intSize, maxUint64 in *. destruct neg; lia.
Qed.

(** [Atoi] returns [n] exactly on the literals that denote [n], when [n]
    fits [int]. *)
Lemma Atoi_Ok_iff s n :
  Atoi s = Ok n <-> int_literal s n /\ MinInt <= n <= MaxInt.
Proof.
  split.
  - unfold Atoi. destruct (split_sign s) as [neg body] eqn:Hs.
    destruct body as [|a body]; [done|].
    destruct (ParseUint_loop 0 (String a body)) as [kind|v] eqn:Hv; [done|].
    pose proof (ParseUint_loop_inr _ _ _ Hv) as Hd.
    rewrite (ParseUint_loop_digits _ _ Hd maxUint64_nonneg) in Hv.
    cbv zeta in Hv. fold (decimal_value (String a body)) in Hv.
    destruct (decimal_value (String a body) <=? maxUint64); [|done].
    injection Hv as <-.
    destruct (in_range _) eqn:Hr; [|done].
    intros [= <-]. apply in_range_spec in Hr. split; [|done].
    assert (is_nonneg_decimal (String a body) = true) as Hb by done.
    unfold split_sign in Hs.
    destruct s as [|b s]; [done|].
    destruct (ascii_dec b "-") as [->|Hm].
    { injection Hs as Hneg Hbody. subst neg s. by constructor. }
    destruct (ascii_dec b "+") as [->|Hp].
    { injection Hs as Hneg Hbody. subst neg s. by constructor. }
    assert (split_sign (String b s) = (false, String b s)) as Hplain.
    { destruct b as [[] [] [] [] [] [] [] []]; try reflexivity; congruence. }
    unfold split_sign in Hplain. rewrite Hplain in Hs.
    injection Hs as Hneg Hb' Hs'. subst neg b s. by constructor.
  - intros [Hl Hr]. apply in_range_spec in Hr.
    destruct Hl as [body Hb|body Hb|body Hb].
    + rewrite (Atoi_split _ false body _ (split_sign_decimal _ Hb) Hb eq_refl).
      simpl. by rewrite Hr.
    + rewrite (Atoi_split (String "+" body) false body _ eq_refl Hb eq_refl).
      simpl. by rewrite Hr.
    + rewrite (Atoi_split (String "-" body) true body _ eq_refl Hb eq_refl).
      simpl. by rewrite Hr.
Qed.

Lemma Atoi_Err_iff s :
  (exists e, Atoi s = Err e)
  <-> ~ exists n, int_literal s n /\ MinInt <= n <= MaxInt.
Proof.
  split.
  - intros [e He] [n Hn]. apply Atoi_Ok_iff in Hn. congruence.
  - intros Hno. destruct (Atoi s) as [n|e] eqn:Hs; [|by eexists].
    destruct Hno. exists n. by apply Atoi_Ok_iff.
Qed.

(** The first error on the way decides its kind: digits that go past
    [uint64] are a range error even when a byte that is no digit follows
    them, and such a byte after digits that fit is a syntax error. *)
Example Atoi_error_kinds :
  Atoi "99999999999999999999x"
  = Err (NumError "Atoi" "99999999999999999999x" ErrRange)
  /\ Atoi "9999999999999999999x"
     = Err (NumError "Atoi" "9999999999999999999x" ErrSyntax)
  /\ Atoi "18446744073709551616"
     = Err (NumError "Atoi" "18446744073709551616" ErrRange)
  /\ Atoi "-9223372036854775809"
     = Err (NumError "Atoi" "-9223372036854775809" ErrRange)
  /\ Atoi "-9223372036854775808" = Ok (-9223372036854775808)
  /\ Atoi "+" = Err (NumError "Atoi" "+" ErrSyntax).
Proof. vm_compute. repeat split. Qed.

(** ** The numbering allocator *)

Section NumberingFacts.
Context `{LabelKeys}.

Lemma Zmax_foldr_acc ns : forall n m,
    foldr Z.max (Z.max n m) ns = Z.max n (foldr Z.max m ns).
  Proof. induction ns as [|k ns IH]; intros n m; simpl; [done|]. rewrite IH. lia. Qed.

Lemma nextContainerNumber_from_Ok cs : forall ns max,
    Forall2 (fun c n => Atoi (label c containerNumberLabel) = Ok n) cs ns ->
    nextContainerNumber_from max cs = Ok (wrap (foldr Z.max max ns + 1)).
  Proof.
    induction cs as [|c cs IH]; intros ns max Hns.
    - by apply Forall2_nil_inv_l in Hns as ->.
    - apply Forall2_cons_inv_l in Hns as (n & ns' & Hn & Hns & ->).
      simpl. rewrite Hn, (IH ns' _ Hns). do 3 f_equal.
      destruct (Z.gtb_spec n max).
      + replace n with (Z.max n max) at 1 by lia. apply Zmax_foldr_acc.
      + replace max with (Z.max n max) at 1 by lia. apply Zmax_foldr_acc.
  Qed.

Lemma nextContainerNumber_from_Err cs : forall max,
    (exists e, nextContainerNumber_from max cs = Err e)
    <-> exists c, c ∈ cs /\ exists e, Atoi (label c containerNumberLabel) = Err e.
  Proof.
    induction cs as [|c cs IH]; intros max; simpl.
    - split; [intros [e ?]; done|]. intros (c & Hc & _). by apply elem_of_nil in Hc.
    - destruct (Atoi (label c containerNumberLabel)) as [n|e] eqn:Hc.
      + rewrite IH. split; intros (c' & Hin & He).
        * exists c'. split; [by right|done].
        * apply elem_of_cons in Hin as [->|Hin]; [|by exists c'].
          destruct He as [e He]. congruence.
      + split; [|by eexists]. intros _. exists c. split; [by left|by eexists].
  Qed.

End NumberingFacts.

(** ** The monad of the model *)

Section MonadFacts.
Context {RT : Type}.
Implicit Types w : World RT.

Lemma bind_Returns {A B} (m : M RT A) (k : A -> M RT B) w a w1 :
    m w = (Returns a, w1) -> bind m k w = k a w1.
  Proof. unfold bind. by intros ->. Qed.

Lemma bind_Fails {A B} (m : M RT A) (k : A -> M RT B) w e w1 :
    m w = (Fails e, w1) -> bind m k w = (Fails e, w1).
  Proof. unfold bind. by intros ->. Qed.

Lemma bind_Panics {A B} (m : M RT A) (k : A -> M RT B) w w1 :
    m w = (Panics, w1) -> bind m k w = (Panics, w1).
  Proof. unfold bind. by intros ->. Qed.

  (** A bind that returns went through a returning first step. *)
Lemma bind_Returns_inv {A B} (m : M RT A) (k : A -> M RT B) w b w' :
    bind m k w = (Returns b, w') ->
    exists a w1, m w = (Returns a, w1) /\ k a w1 = (Returns b, w').
  Proof.
    unfold bind. destruct (m w) as [[a|e| |] w1]; try done. eauto.
  Qed.

Section Respects.
Context (R : relation (World RT)) `{!PreOrder R}.

Lemma respects_ret {A} (a : A) : respects R (ret a).
    Proof. intros w. reflexivity. Qed.

Lemma respects_fail {A} e : respects R (@fail RT A e).
    Proof. intros w. reflexivity. Qed.

Lemma respects_panic {A} : respects R (@panic RT A).
    Proof. intros w. reflexivity. Qed.

Lemma respects_polling {A} : respects R (@polling RT A).
    Proof. intros w. reflexivity. Qed.

Lemma respects_lift {A} (r : result A) : respects R (lift r).
    Proof. destruct r; [apply respects_ret|apply respects_fail]. Qed.

Lemma respects_bind {A B} (m : M RT A) (k : A -> M RT B) :
      respects R m -> (forall a, respects R (k a)) -> respects R (bind m k).
    Proof.
      intros Hm Hk w. specialize (Hm w). unfold bind.
      destruct (m w) as [[a|e| |] w1]; simpl in *; try done.
      etrans; [done|]. apply Hk.
    Qed.

Lemma respects_for_range {A} (xs : list A) (body : A -> M RT unit) :
      (forall x, respects R (body x)) -> respects R (for_range xs body).
    Proof.
      intros Hbody. induction xs as [|x xs IH]; simpl.
      - apply respects_ret.
      - apply respects_bind; [apply Hbody|done].
    Qed.

End Respects.

Section EndsIn.
Context (ok : ending -> Prop).

Lemma ends_in_ret {A} (a : A) : ok Returned -> ends_in (RT:=RT) ok (ret a).
    Proof. by intros ? w. Qed.

Lemma ends_in_fail {A} e : ok Failed -> ends_in ok (@fail RT A e).
    Proof. by intros ? w. Qed.

Lemma ends_in_panic {A} : ok Panicked -> ends_in ok (@panic RT A).
    Proof. by intros ? w. Qed.

Lemma ends_in_polling {A} : ok StillPolling -> ends_in ok (@polling RT A).
    Proof. by intros ? w. Qed.

Lemma ends_in_lift {A} (r : result A) :
      ok Returned -> ok Failed -> ends_in (RT:=RT) ok (lift r).
    Proof. intros ? ? w. by destruct r. Qed.

Lemma ends_in_bind {A B} (m : M RT A) (k : A -> M RT B) :
      ends_in ok m -> (forall a, ends_in ok (k a)) -> ends_in ok (bind m k).
    Proof.
      intros Hm Hk w. specialize (Hm w). unfold bind.
      destruct (m w) as [[a|e| |] w1]; simpl in *; try done. apply Hk.
    Qed.

Lemma ends_in_for_range {A} (xs : list A) (body : A -> M RT unit) :
      ok Returned ->
      (forall x, ends_in ok (body x)) -> ends_in ok (for_range xs body).
    Proof.
      intros Hok Hbody. induction xs as [|x xs IH]; simpl.
      - by apply ends_in_ret.
      - apply ends_in_bind; [apply Hbody|done].
    Qed.

End EndsIn.

  (** *** The relations between worlds *)

#[global] Instance calls_grow_preorder P : PreOrder (calls_grow (RT:=RT) P).
  Proof.
    split.
    - intros w. exists []. by rewrite app_nil_r.
    - intros w1 w2 w3 (tr1 & E1 & H1) (tr2 & E2 & H2).
      exists (tr1 ++ tr2). rewrite E2, E1, app_assoc. split; [done|].
      by apply Forall_app.
  Qed.

#[global] Instance calls_grow_frame P : Frame (calls_grow (RT:=RT) P).
  Proof.
    split; [apply _|..]; intros; exists []; simpl; by rewrite app_nil_r.
  Qed.

#[global] Instance same_dispatched_preorder :
    PreOrder (same_dispatched (RT:=RT)).
  Proof.
    split; [done|]. unfold same_dispatched. intros w1 w2 w3 E1 E2. congruence.
  Qed.

#[global] Instance same_dispatched_frame : Frame (same_dispatched (RT:=RT)).
  Proof. split; [apply _|..]; done. Qed.

#[global] Instance same_runtime_preorder : PreOrder (same_runtime (RT:=RT)).
  Proof.
    split; [done|]. unfold same_runtime.
    intros w1 w2 w3 [E1 E1'] [E2 E2']. split; congruence.
  Qed.

#[global] Instance same_runtime_frame : Frame (same_runtime (RT:=RT)).
  Proof. split; [apply _|..]; done. Qed.

#[global] Instance names_kept_preorder name_of :
    PreOrder (names_kept (RT:=RT) name_of).
  Proof.
    split.
    - by intros w id name Hn.
    - intros w1 w2 w3 H1 H2 id name Hn. by apply H2, H1.
  Qed.

#[global] Instance names_kept_frame name_of :
    Frame (names_kept (RT:=RT) name_of).
  Proof. split; [apply _|..]; by intros w ? id name Hn. Qed.

Lemma calls_grow_weaken (P Q : Call -> Prop) w w' :
    (forall c, P c -> Q c) -> calls_grow P w w' -> calls_grow Q w w'.
  Proof.
    intros HPQ (tr & E & Htr). exists tr. split; [done|].
    eapply Forall_impl; eauto.
  Qed.

End MonadFacts.

(** ** Steps of the model *)

Section StepFacts.
Context `{LabelKeys} `{Collaborators} {RT : Type} `{Runtime RT}.
Implicit Types w : World RT.

Lemma invoke_world {A} c (op : RT -> result A * RT) w :
    (invoke c op w).2
    = mkWorld (op (runtime w)).2 (calls w ++ [c]) (events w) (project w)
              (dispatched w) (group_err w).
  Proof. unfold invoke. by destruct (op (runtime w)) as [[a|e] rt']. Qed.

Lemma invoke_outcome {A} c (op : RT -> result A * RT) w :
    (invoke c op w).1
    = match (op (runtime w)).1 with Ok a => Returns a | Err e => Fails e end.
  Proof. unfold invoke. by destruct (op (runtime w)) as [[a|e] rt']. Qed.

Lemma invoke_eq {A} c (op : RT -> result A * RT) w :
    invoke c op w
    = (match (op (runtime w)).1 with Ok a => Returns a | Err e => Fails e end,
       mkWorld (op (runtime w)).2 (calls w ++ [c]) (events w) (project w)
               (dispatched w) (group_err w)).
  Proof. unfold invoke. by destruct (op (runtime w)) as [[a|e] rt']. Qed.

Section Respects.
Context (R : relation (World RT)) `{!Frame R}.

Lemma respects_emit e : respects R (emit e).
    Proof. intros w. apply frame_events. Qed.

Lemma respects_get_project : respects R get_project.
    Proof. intros w. reflexivity. Qed.

Lemma respects_set_project p : respects R (set_project p).
    Proof. intros w. apply frame_project. Qed.

Lemma respects_invoke {A} c (op : RT -> result A * RT) :
      allows R c op -> respects R (invoke c op).
    Proof. intros Hc w. rewrite invoke_world. apply Hc. Qed.

Lemma respects_go body : respects R body -> respects R (go body).
    Proof.
      intros Hbody w. specialize (Hbody w). unfold go.
      destruct (body w) as [[a|e| |] w1]; simpl in *; try done.
      etrans; [done|]. apply frame_group_err.
    Qed.

Lemma respects_eg_Wait : respects R eg_Wait.
    Proof. intros w. unfold eg_Wait. destruct (group_err w); reflexivity. Qed.

End Respects.

Lemma allows_calls_grow {A} (P : Call -> Prop) c (op : RT -> result A * RT) :
    P c -> allows (calls_grow P) c op.
  Proof. intros Hc w. exists [c]. split; [done|]. by constructor. Qed.

Lemma allows_same_dispatched {A} c (op : RT -> result A * RT) :
    allows same_dispatched c op.
  Proof. by intros w. Qed.

Lemma respects_calls_reset P :
    respects (RT:=RT) (calls_grow P) errgroup_WithContext.
  Proof. intros w. exists []. simpl. by rewrite app_nil_r. Qed.

Lemma respects_calls_record P t :
    respects (RT:=RT) (calls_grow P) (record_task t).
  Proof. intros w. exists []. simpl. by rewrite app_nil_r. Qed.

Section EndsIn.
Context (ok : ending -> Prop).

Lemma ends_in_emit e : ok Returned -> ends_in (RT:=RT) ok (emit e).
    Proof. by intros ? w. Qed.

Lemma ends_in_get_project : ok Returned -> ends_in (RT:=RT) ok get_project.
    Proof. by intros ? w. Qed.

Lemma ends_in_set_project p :
      ok Returned -> ends_in (RT:=RT) ok (set_project p).
    Proof. by intros ? w. Qed.

Lemma ends_in_invoke {A} c (op : RT -> result A * RT) :
      ok Returned -> ok Failed -> ends_in ok (invoke c op).
    Proof.
      intros ? ? w. rewrite invoke_outcome. by destruct (op (runtime w)).1.
    Qed.

Lemma ends_in_go (body : M RT unit) :
      ok Returned -> ends_in ok body -> ends_in ok (go body).
    Proof.
      intros ? Hbody w. specialize (Hbody w). unfold go.
      by destruct (body w) as [[a|e| |] w1].
    Qed.

End EndsIn.

End StepFacts.

(** Walks through a computation built from the steps above. *)
Ltac respects_steps :=
  repeat first
    [ progress intros
    | match goal with
      | |- PreOrder _ => apply _
      | |- Frame _ => apply _
      end
    | apply respects_ret | apply respects_fail | apply respects_panic
    | apply respects_polling | apply respects_lift
    | apply respects_emit | apply respects_get_project
    | apply respects_set_project | apply respects_eg_Wait
    | apply respects_bind | apply respects_for_range | apply respects_go
    | apply respects_invoke ].

Ltac ends_in_steps :=
  repeat first
    [ progress intros
    | apply ends_in_ret | apply ends_in_fail | apply ends_in_lift
    | apply ends_in_panic | apply ends_in_polling
    | apply ends_in_emit | apply ends_in_get_project
    | apply ends_in_set_project | apply ends_in_invoke
    | apply ends_in_bind | apply ends_in_for_range | apply ends_in_go ].

(** ** Lifecycle operations *)

Section LifecycleFacts.
Context `{LabelKeys} `{Collaborators} {RT : Type} `{Runtime RT}.
Implicit Types w : World RT.

Lemma runContainer_calls service name number container :
    respects (calls_grow run_call) (runContainer service name number container).
  Proof.
    unfold runContainer, connectContainerToNetwork.
    respects_steps; by apply allows_calls_grow.
  Qed.

Lemma runContainer_ends service name number container :
    ends_in returns_or_fails (runContainer service name number container).
  Proof.
    unfold runContainer, connectContainerToNetwork, returns_or_fails.
    ends_in_steps; auto.
  Qed.

Lemma runContainer_names name_of `{!RuntimeLaws RT name_of}
    service name number container :
    respects (names_kept name_of)
             (runContainer service name number container).
  Proof.
    unfold runContainer, connectContainerToNetwork.
    respects_steps; intros w id' name' Hn; simpl.
    - by apply (create_name_of (RT:=RT)).
    - by rewrite (NetworkConnect_name_of (RT:=RT) (name_of:=name_of)).
    - by rewrite (ContainerStart_name_of (RT:=RT) (name_of:=name_of)).
  Qed.

End LifecycleFacts.

(** ** Recreate *)

Section RecreateFacts.
Context `{LabelKeys} `{Collaborators} {RT : Type} `{Runtime RT}.
Implicit Types w : World RT.

Lemma string_prefix_Some s n :
    (n <= String.length s)%nat -> string_prefix s n = Some (substring 0 n s).
  Proof.
    intros Hn. unfold string_prefix.
    destruct (Nat.ltb_spec (String.length s) n); [lia|done].
  Qed.

Lemma string_prefix_None s n :
    string_prefix s n = None <-> (String.length s < n)%nat.
  Proof.
    unfold string_prefix.
    destruct (Nat.ltb_spec (String.length s) n); split; (done || lia).
  Qed.

Lemma string_prefix_inv s n prefix :
    string_prefix s n = Some prefix ->
    (n <= String.length s)%nat /\ prefix = substring 0 n s.
  Proof.
    unfold string_prefix.
    destruct (Nat.ltb_spec (String.length s) n); [done|].
    intros [= <-]. done.
  Qed.

  (** [recreateContainer] is its three phases in a row. *)
Lemma recreateContainer_phases service container w :
    recreateContainer service container w
    = bind (recreate_prepare service container)
        (fun number =>
           bind (runContainer service (getContainerName container) number
                              (Some container))
                (fun _ => recreate_finish service container)) w.
  Proof.
    unfold recreateContainer, recreate_prepare, recreate_finish, bind.
    destruct (emit _ w) as [[[]|e| |] w0]; try done.
    destruct (invoke _ _ w0) as [[[]|e| |] w1]; try done.
    destruct (string_prefix (ID container) 12) as [prefix|]; [|done].
    destruct (invoke _ _ w1) as [[[]|e| |] w2]; try done.
  Qed.

Lemma recreate_prepare_calls service container w :
    let w1 := (recreate_prepare service container w).2 in
    calls w1 = calls w ++ [CallStop (ID container)]
    \/ calls w1 = calls w ++ [CallStop (ID container);
                              CallContainerRename (ID container)
                                                  (tmpName container)].
  Proof.
    unfold recreate_prepare, bind, emit, panic. rewrite invoke_eq. simpl.
    destruct (Stop _ _).1 as [[]|e]; [|by left].
    destruct (string_prefix _ _) as [prefix|] eqn:Hp; [|by left].
    apply string_prefix_inv in Hp as [_ ->]. fold (tmpName container).
    rewrite invoke_eq. simpl. right.
    destruct (ContainerRename _ _ _).1 as [[]|e]; simpl.
    - destruct (Atoi _); simpl; by rewrite <- app_assoc.
    - by rewrite <- app_assoc.
  Qed.

Lemma recreate_prepare_Returns name_of `{!RuntimeLaws RT name_of}
      service container w number w1 :
    recreate_prepare service container w = (Returns number, w1) ->
    calls w1 = calls w ++ [CallStop (ID container);
                           CallContainerRename (ID container)
                                               (tmpName container)]
    /\ (12 <= String.length (ID container))%nat
    /\ Atoi (label container containerNumberLabel) = Ok number
    /\ name_of (runtime w1) (ID container) = Some (tmpName container).
  Proof.
    unfold recreate_prepare, bind, emit, panic. rewrite invoke_eq. simpl.
    destruct (Stop _ _).1 as [[]|e]; [|done].
    destruct (string_prefix _ _) as [prefix|] eqn:Hp; [|done].
    apply string_prefix_inv in Hp as [Hlen ->]. fold (tmpName container).
    rewrite invoke_eq. simpl.
    destruct (ContainerRename _ _ _).1 as [[]|e] eqn:Hrename; [|done].
    destruct (Atoi _) as [n|e]; [|done]. simpl.
    intros [= <- <-]. simpl. rewrite <- app_assoc.
    repeat split; try done. by apply (ContainerRename_name_of (RT:=RT)).
  Qed.

Lemma recreate_finish_calls service container w :
    calls (recreate_finish service container w).2
    = calls w ++ [CallDelete (ID container)].
  Proof.
    unfold recreate_finish, bind, emit, get_project, set_project.
    rewrite invoke_eq. simpl. by destruct (Delete _ _).1 as [[]|e].
  Qed.

Lemma new_calls_app w w' tr :
    calls w' = calls w ++ tr -> drop (length (calls w)) (calls w') = tr.
  Proof. intros ->. by rewrite drop_app_length. Qed.

Lemma early_end_shape id tmp tr :
    tr = [CallStop id] \/ tr = [CallStop id; CallContainerRename id tmp] ->
    ([CallStop id] `prefix_of` tr)
    /\ (tr `prefix_of` [CallStop id; CallContainerRename id tmp] ++ []
                        ++ [CallDelete id]).
  Proof.
    intros [->| ->]; split; try done.
    - by exists [CallContainerRename id tmp; CallDelete id].
    - by exists [CallContainerRename id tmp].
    - by exists [CallDelete id].
  Qed.


Lemma ends_in_weaken (ok ok' : ending -> Prop) {A} (m : M RT A) :
    (forall e, ok e -> ok' e) -> ends_in ok m -> ends_in ok' m.
  Proof. intros Hok Hm w. apply Hok, Hm. Qed.

Lemma recreateContainer_no_panic service container :
    (12 <= String.length (ID container))%nat ->
    ends_in no_panic (recreateContainer service container).
  Proof.
    intros Hlen. unfold recreateContainer.
    rewrite (string_prefix_Some _ _ Hlen).
    unfold runContainer, connectContainerToNetwork.
    ends_in_steps; done.
  Qed.

  (** C9. The temporary name is built from [container.ID[:12]]: the
      slice is out of range exactly for an identifier shorter than 12
      bytes.  With 12 bytes or more a recreate does not panic and renames
      the old container to its first 12 bytes, an underscore and its
      name; with fewer, it panics as soon as the stop has succeeded. *)
Theorem recreate_needs_12_byte_id service container w :
    let id := ID container in
    (string_prefix id 12 = None <-> (String.length id < 12)%nat)
    /\ ((12 <= String.length id)%nat ->
        (recreateContainer service container w).1 <> Panics
        /\ ((Stop id (runtime w)).1 = Ok tt ->
            exists tr,
              calls (recreateContainer service container w).2
              = calls w
                  ++ [CallStop id;
                      CallContainerRename id
                        (substring 0 12 id ++ "_"
                         ++ getContainerName container)%string]
                  ++ tr))
    /\ ((String.length id < 12)%nat ->
        (Stop id (runtime w)).1 = Ok tt ->
        (recreateContainer service container w).1 = Panics).
  Proof.
    intros id. split; [apply string_prefix_None|]. split.
    - intros Hlen. split.
      + pose proof (recreateContainer_no_panic service container Hlen w) as Hw.
        unfold no_panic in Hw. intros Hp. by rewrite Hp in Hw.
      + intros Hstop. rewrite recreateContainer_phases. unfold bind.
        pose proof (recreate_prepare_calls service container w) as Hcalls.
        assert (calls (recreate_prepare service container w).2
                = calls w ++ [CallStop id;
                              CallContainerRename id (tmpName container)])
          as E1.
        { clear Hcalls. unfold recreate_prepare, bind, emit.
          rewrite invoke_eq. simpl. fold id. rewrite Hstop.
          rewrite (string_prefix_Some _ _ Hlen). fold (tmpName container).
          rewrite invoke_eq. simpl.
          destruct (ContainerRename _ _ _).1 as [[]|e]; simpl.
          - destruct (Atoi _); simpl; by rewrite <- app_assoc.
          - by rewrite <- app_assoc. }
        clear Hcalls. fold (tmpName container).
        destruct (recreate_prepare service container w) as [r1 w1].
        simpl in E1.
        destruct r1 as [number|e| |];
          try (exists []; simpl; by rewrite E1).
        pose proof (runContainer_calls service (getContainerName container)
                      number (Some container) w1) as (rc & E2 & _).
        destruct (runContainer _ _ _ _ w1) as [r2 w2]. simpl in E2.
        destruct r2 as [[]|e| |];
          try (exists rc; simpl; rewrite E2, E1; by rewrite <- app_assoc).
        exists (rc ++ [CallDelete id]).
        rewrite recreate_finish_calls, E2, E1. by rewrite <- !app_assoc.
    - intros Hlen Hstop. apply string_prefix_None in Hlen.
      unfold recreateContainer, bind, emit. rewrite invoke_eq. simpl.
      fold id. by rewrite Hstop, Hlen.
  Qed.

End RecreateFacts.

(** ** The lifecycle propagator *)

Section PropagatorFacts.
Context `{Collaborators}.

Lemma contains_spec slice item : contains slice item = true <-> item ∈ slice.
  Proof.
    induction slice as [|v slice IH]; simpl.
    - split; [done|]. intros Hin. by apply elem_of_nil in Hin.
    - destruct (String.eqb_spec v item) as [->|Hne].
      + split; [|done]. intros _. by left.
      + rewrite IH. split; [by right|].
        intros Hin. apply elem_of_cons in Hin as [?|?]; [congruence|done].
  Qed.

  (** One step of the loop writes the marked copy, or nothing. *)
Lemma setDependentLifecycle_step_insert service strategy services i s :
    services !! i = Some s ->
    setDependentLifecycle_step service strategy services i
    = <[i := if contains (GetDependencies s) service
             then with_lifecycle strategy s else s]> services.
  Proof.
    intros Hs. unfold setDependentLifecycle_step. rewrite Hs.
    destruct (contains _ _); [done|]. by rewrite list_insert_id.
  Qed.

Lemma setDependentLifecycle_loop service strategy n : forall k services i,
    foldl (setDependentLifecycle_step service strategy) services (seq k n) !! i
    = if decide (k <= i < k + n)%nat
      then (fun s => if contains (GetDependencies s) service
                     then with_lifecycle strategy s else s) <$> services !! i
      else services !! i.
  Proof.
    induction n as [|n IH]; intros k services i; simpl.
    - case_decide; [lia|done].
    - rewrite IH.
      destruct (services !! k) as [s|] eqn:Hk.
      + rewrite (setDependentLifecycle_step_insert _ _ _ _ _ Hk).
        destruct (decide (i = k)) as [->|Hne].
        * rewrite list_lookup_insert_eq by (by eapply lookup_lt_Some).
          rewrite Hk. repeat case_decide; try lia. done.
        * rewrite list_lookup_insert_ne by done.
          repeat case_decide; try lia; done.
      + assert (setDependentLifecycle_step service strategy services k
                = services) as ->.
        { unfold setDependentLifecycle_step. by rewrite Hk. }
        destruct (decide (i = k)) as [->|Hne].
        * rewrite Hk. by repeat case_decide.
        * repeat case_decide; try lia; done.
  Qed.

  (** The loop over the indices is a map over the services. *)
Lemma setDependentLifecycle_map p service strategy :
    Project.Services (setDependentLifecycle p service strategy)
    = (fun s => if contains (GetDependencies s) service
                then with_lifecycle strategy s else s)
        <$> Project.Services p.
  Proof.
    unfold setDependentLifecycle. simpl. apply list_eq. intros i.
    rewrite setDependentLifecycle_loop, list_lookup_fmap.
    case_decide as Hi; [done|].
    rewrite (lookup_ge_None_2 (Project.Services p) i) by lia. done.
  Qed.

  (** C3. [setDependentLifecycle] keeps the project's name and the number
      and order of its services.  A service whose dependency list
      includes the given name gets the lifecycle annotation set to the
      strategy, whatever it was, and keeps everything else; every other
      service is unchanged. *)
Theorem setDependentLifecycle_marks_dependents p service strategy :
    let p' := setDependentLifecycle p service strategy in
    Project.Name p' = Project.Name p
    /\ length (Project.Services p') = length (Project.Services p)
    /\ forall i s,
        Project.Services p !! i = Some s ->
        exists s',
          Project.Services p' !! i = Some s'
          /\ (service ∈ GetDependencies s ->
              extension s' extLifecycle = Some (ExtString strategy)
              /\ (forall key, key <> extLifecycle ->
                              extension s' key = extension s key)
              /\ ServiceConfig.Name s' = ServiceConfig.Name s
              /\ ServiceConfig.Scale s' = ServiceConfig.Scale s
              /\ ServiceConfig.Deploy s' = ServiceConfig.Deploy s
              /\ ServiceConfig.DependsOn s' = ServiceConfig.DependsOn s
              /\ ServiceConfig.Networks s' = ServiceConfig.Networks s)
          /\ (service ∉ GetDependencies s -> s' = s).
  Proof.
    intros p'. split; [done|]. subst p'.
    rewrite setDependentLifecycle_map. split; [by rewrite length_fmap|].
    intros i s Hs. rewrite list_lookup_fmap, Hs. simpl.
    eexists. split; [done|].
    destruct (contains (GetDependencies s) service) eqn:Hc.
    - split; [|intros Hn; destruct Hn; by apply contains_spec].
      intros _. unfold extension, with_lifecycle. simpl.
      split; [by rewrite lookup_insert_eq|].
      split; [|done]. intros key Hkey. rewrite lookup_insert_ne by done.
      by destruct (ServiceConfig.Extensions s).
    - split; [|done]. intros Hin. apply contains_spec in Hin. congruence.
  Qed.

End PropagatorFacts.

(** ** The health gate *)

Section HealthFacts.
Context `{LabelKeys} `{Collaborators} {RT : Type} `{Runtime RT}.
Implicit Types w : World RT.

Lemma isServiceHealthy_listed service w cs rt1 :
    ContainerList (list_filters (Project.Name (project w)) service) (runtime w)
    = (Ok cs, rt1) ->
    isServiceHealthy service w
    = isServiceHealthy_range service cs
        (mkWorld rt1
           (calls w ++ [CallContainerList
                          (list_filters (Project.Name (project w)) service)])
           (events w) (project w) (dispatched w) (group_err w)).
  Proof.
    intros Hlist. unfold isServiceHealthy, bind, get_project.
    rewrite invoke_eq, Hlist. done.
  Qed.

Lemma passes_status j :
    passes j ->
    exists state health,
      Inspect.State j = Some state /\ Inspect.Health_ state = Some health
      /\ String.eqb (Inspect.Status health) "starting" = false
      /\ String.eqb (Inspect.Status health) "unhealthy" = false.
  Proof.
    intros (status & Hs & Hns & Hnu). unfold health_status in Hs.
    destruct (Inspect.State j) as [state|]; [|done].
    destruct (Inspect.Health_ state) as [health|] eqn:Hh; [|done].
    injection Hs as <-. exists state, health.
    split; [done|]. split; [done|]. split; by apply String.eqb_neq.
  Qed.

  (** The containers that pass are skipped by the loop. *)
Lemma isServiceHealthy_range_skip service before : forall rest w js rt2,
    inspected (runtime w) before js rt2 -> Forall passes js ->
    exists w2,
      runtime w2 = rt2
      /\ isServiceHealthy_range service (before ++ rest) w
         = isServiceHealthy_range service rest w2.
  Proof.
    induction before as [|c before IH]; intros rest w js rt2 Hins Hpass.
    - inversion Hins; subst. by exists w.
    - inversion Hins as [|? ? j rt1 ? js' ? Hc Hrest]; subst.
      apply Forall_cons in Hpass as [Hj Hpass].
      apply passes_status in Hj as (state & health & Hst & Hh & Hs1 & Hs2).
      simpl. unfold bind at 1. rewrite invoke_eq, Hc. simpl.
      rewrite Hst, Hh, Hs1, Hs2.
      by apply (IH rest _ js' rt2).
  Qed.

  (** C4, as the code has it. The containers are looked at in the order
      of the listing and the first one that does not pass decides: an
      error when it has no health check, not yet healthy, without an
      error, when it is starting or unhealthy.  The service is healthy
      when every listed container has a health check and none is
      starting or unhealthy. *)
Theorem isServiceHealthy_first_decides service w cs rt1 :
    ContainerList (list_filters (Project.Name (project w)) service) (runtime w)
    = (Ok cs, rt1) ->
    (forall before c after js rt2 j rt3,
        cs = before ++ c :: after ->
        inspected rt1 before js rt2 -> Forall passes js ->
        ContainerInspect (ID c) rt2 = (Ok j, rt3) ->
        (health_status j = None ->
         (isServiceHealthy service w).1 = Fails (NoHealthcheck service))
        /\ (health_status j = Some "starting"
            \/ health_status j = Some "unhealthy" ->
            (isServiceHealthy service w).1 = Returns false))
    /\ (forall js rt2,
          inspected rt1 cs js rt2 -> Forall passes js ->
          (isServiceHealthy service w).1 = Returns true).
  Proof.
    intros Hlist. rewrite (isServiceHealthy_listed _ _ _ _ Hlist).
    set (w1 := mkWorld rt1 _ _ _ _ _).
    change rt1 with (runtime w1). split.
    - intros before c after js rt2 j rt3 -> Hins Hpass Hc.
      destruct (isServiceHealthy_range_skip service before (c :: after)
                  w1 js rt2 Hins Hpass) as (w2 & Hrt & ->).
      simpl. unfold bind. rewrite invoke_eq, Hrt, Hc. simpl.
      unfold health_status.
      destruct (Inspect.State j) as [state|]; [|by split; [|intros []]].
      destruct (Inspect.Health_ state) as [health|]; simpl.
      + split; [done|]. intros [[= ->]|[= ->]]; done.
      + split; [done|]. by intros [|].
    - intros js rt2 Hins Hpass.
      destruct (isServiceHealthy_range_skip service cs [] w1 js rt2
                  Hins Hpass) as (w2 & Hrt & Heq).
      rewrite app_nil_r in Heq. by rewrite Heq.
  Qed.


End HealthFacts.

(** ** Tasks and the errgroup *)

Section GroupFacts.
Context `{LabelKeys} `{Collaborators} {RT : Type} `{Runtime RT}.
Implicit Types w : World RT.

Lemma run_task_same_dispatched t : respects same_dispatched (run_task t).
  Proof.
    destruct t; simpl;
      unfold createContainer, stopAndDelete, recreateContainer,
        restartContainer, runContainer, connectContainerToNetwork;
      try destruct (string_prefix _ _);
      respects_steps; apply allows_same_dispatched.
  Qed.

Lemma run_task_no_polling t : ends_in no_polling (run_task t).
  Proof.
    destruct t; simpl;
      unfold createContainer, stopAndDelete, recreateContainer,
        restartContainer, runContainer, connectContainerToNetwork;
      try destruct (string_prefix _ _);
      ends_in_steps; done.
  Qed.

  (** Of the four tasks only a recreate can panic, on a short identifier. *)
Lemma run_task_settles t :
    match t with
    | TaskRecreate _ c => (12 <= String.length (ID c))%nat
    | _ => True
    end ->
    ends_in returns_or_fails (run_task t).
  Proof.
    intros Ht w.
    assert (no_panic (ending_of (run_task t w).1)) as Hp.
    { destruct t; simpl;
        try (by apply recreateContainer_no_panic);
        unfold createContainer, stopAndDelete, restartContainer,
          runContainer, connectContainerToNetwork;
        revert w; ends_in_steps; done. }
    pose proof (run_task_no_polling t w) as Hq.
    unfold no_panic, no_polling, returns_or_fails in *.
    destruct (ending_of _); auto; done.
  Qed.

  (** A task that is handed over is recorded; the loop goes on unless
      the task panics. *)
Lemma eg_Go_inv t w :
    (exists w', eg_Go t w = (Returns tt, w')
                /\ dispatched w' = dispatched w ++ [t])
    \/ (eg_Go t w).1 = Panics.
  Proof.
    unfold eg_Go, bind, record_task, go.
    pose proof (run_task_same_dispatched t
                  (mkWorld (runtime w) (calls w) (events w) (project w)
                           (dispatched w ++ [t]) (group_err w))) as Hd.
    pose proof (run_task_no_polling t
                  (mkWorld (runtime w) (calls w) (events w) (project w)
                           (dispatched w ++ [t]) (group_err w))) as Hq.
    unfold same_dispatched in Hd.
    destruct (run_task t _) as [[[]|e| |] w1]; simpl in *.
    - left. eauto.
    - left. eauto.
    - by right.
    - done.
  Qed.

Lemma eg_Go_settles t w :
    ends_in returns_or_fails (run_task t) ->
    exists w', eg_Go t w = (Returns tt, w')
               /\ dispatched w' = dispatched w ++ [t].
  Proof.
    intros Ht. destruct (eg_Go_inv t w) as [?|Hp]; [done|].
    exfalso. revert Hp. unfold eg_Go, bind, record_task, go.
    match goal with
    | |- context [run_task t ?w0] => specialize (Ht w0)
    end.
    destruct (run_task t _) as [[[]|e| |] w1]; simpl in *; try done;
      by destruct Ht.
  Qed.

  (** A loop that hands over a task, or nothing, per element. *)
Lemma for_range_dispatch_Returns {A} (xs : list A) (g : A -> option Task)
      (body : A -> M RT unit) :
    (forall x w, body x w = dispatch (g x) w) ->
    forall w w',
      for_range xs body w = (Returns tt, w') ->
      dispatched w' = dispatched w ++ omap g xs.
  Proof.
    intros Hbody. induction xs as [|x xs IH]; intros w w'; simpl.
    - intros [= <-]. by rewrite app_nil_r.
    - intros Hrun. apply bind_Returns_inv in Hrun as ([] & w1 & Hx & Hrest).
      apply IH in Hrest. rewrite Hbody in Hx. rewrite Hrest.
      destruct (g x) as [t|]; simpl in *.
      + destruct (eg_Go_inv t w) as [(w1' & E & Hd)|Hp];
          [|by rewrite Hx in Hp].
        rewrite Hx in E. injection E as <-. by rewrite Hd, <- app_assoc.
      + by injection Hx as <-.
  Qed.

Lemma for_range_dispatch_total {A} (xs : list A) (g : A -> option Task)
      (body : A -> M RT unit) :
    (forall x w, body x w = dispatch (g x) w) ->
    (forall x t, x ∈ xs -> g x = Some t ->
                 ends_in returns_or_fails (run_task t)) ->
    forall w, exists w',
      for_range xs body w = (Returns tt, w')
      /\ dispatched w' = dispatched w ++ omap g xs.
  Proof.
    intros Hbody. induction xs as [|x xs IH]; intros Hok w; simpl.
    - exists w. by rewrite app_nil_r.
    - assert (exists w1, body x w = (Returns tt, w1)) as [w1 Hx].
      { rewrite Hbody. destruct (g x) as [t|] eqn:Hg; simpl; [|by eexists].
        destruct (eg_Go_settles t w) as (w1 & E & _); [|by eexists].
        eapply Hok; [by left|done]. }
      destruct (IH (fun x' t Hin => Hok x' t (list_elem_of_further _ _ _ Hin))
                   w1) as (w' & Hrest & _).
      exists w'. rewrite (bind_Returns _ _ _ _ _ Hx). split; [done|].
      eapply (for_range_dispatch_Returns (x :: xs) g body Hbody w w').
      simpl. by rewrite (bind_Returns _ _ _ _ _ Hx).
  Qed.

End GroupFacts.

(** ** The reconciler *)

Section ReconcilerFacts.
Context `{LabelKeys} `{Collaborators} {RT : Type} `{Runtime RT}.
Implicit Types w : World RT.

Lemma bind_ext {A B} (m : M RT A) (k k' : A -> M RT B) w :
    (forall a w1, k a w1 = k' a w1) -> bind m k w = bind m k' w.
  Proof.
    intros Hk. unfold bind. by destruct (m w) as [[a|e| |] w1].
  Qed.

Lemma for_range_ext {A} (xs : list A) (body body' : A -> M RT unit) :
    (forall x, x ∈ xs -> forall w, body x w = body' x w) ->
    forall w, for_range xs body w = for_range xs body' w.
  Proof.
    induction xs as [|x xs IH]; intros Hbody w; simpl; [done|].
    unfold bind. rewrite (Hbody x) by by left.
    destruct (body' x w) as [[[]|e| |] w1]; try done.
    apply IH. intros x' Hin. apply Hbody. by right.
  Qed.

Lemma respects_for_range_in (R : relation (World RT)) `{!PreOrder R}
      {A} (xs : list A) (body : A -> M RT unit) :
    (forall x, x ∈ xs -> respects R (body x)) -> respects R (for_range xs body).
  Proof.
    induction xs as [|x xs IH]; intros Hbody; simpl.
    - by apply respects_ret.
    - apply respects_bind; [done|apply Hbody; by left|].
      intros _. apply IH. intros x' Hin. apply Hbody. by right.
  Qed.

Lemma omap_Some_fmap {A B} (f : A -> B) (xs : list A) :
    omap (fun x => Some (f x)) xs = f <$> xs.
  Proof. induction xs as [|x xs IH]; [done|]. simpl; f_equal; apply IH. Qed.

Lemma for_range_nothing {A} (xs : list A) (g : A -> option Task)
      (body : A -> M RT unit) :
    (forall x w, body x w = dispatch (g x) w) ->
    (forall x, x ∈ xs -> g x = None) ->
    forall w, for_range xs body w = (Returns tt, w).
  Proof.
    intros Hbody. induction xs as [|x xs IH]; intros Hnone w; simpl; [done|].
    unfold bind. rewrite Hbody, (Hnone x) by by left. simpl.
    apply IH. intros x' Hin. apply Hnone. by right.
  Qed.

  (** *** Scale up *)

Lemma foldr_max_lower ns : 0 <= foldr Z.max 0 ns.
  Proof. induction ns as [|n ns IH]; simpl; lia. Qed.

  (** C6, as the code has it. When every instance-number label parses,
      [nextContainerNumber] returns one more than the largest of 0 and
      the numbers read, provided that is below the largest [int]; it
      returns 1 on the empty list.  A scale-up to [scale] then hands one
      create task per missing container to the group, with the
      consecutive numbers from that value on, as long as they fit
      [int]. *)
Theorem next_number_and_scale_up service actual ns scale w :
    Forall2 (fun c n => Atoi (label c containerNumberLabel) = Ok n) actual ns ->
    let top := foldr Z.max 0 ns in
    let name n := (Project.Name (project w) ++ "_" ++ ServiceConfig.Name service
                   ++ "_" ++ pretty n)%string in
    top < MaxInt ->
    nextContainerNumber actual = Ok (top + 1)
    /\ (actual = [] -> nextContainerNumber actual = Ok 1)
    /\ (len actual < scale -> top + (scale - len actual) <= MaxInt ->
        exists w',
          scaleUp service actual scale w = (Returns tt, w')
          /\ dispatched w'
             = dispatched w
               ++ ((fun i => TaskCreate service (name (top + 1 + i))
                                        (top + 1 + i))
                     <$> seqZ 0 (scale - len actual))).
  Proof.
    intros Hns top name Htop.
    pose proof (foldr_max_lower ns) as Hlow. fold top in Hlow.
    assert (nextContainerNumber actual = Ok (top + 1)) as Hnext.
    { unfold nextContainerNumber.
      rewrite (nextContainerNumber_from_Ok _ _ _ Hns). fold top.
      rewrite wrap_id; [done|]. unfold MinInt, MaxInt, intSize in *. lia. }
    split; [done|]. split.
    { intros ->. apply Forall2_nil_inv_l in Hns. by subst ns. }
    intros Hlen Hfit. unfold scaleUp.
    destruct (Z.ltb_spec (len actual) scale); [|lia].
    rewrite Hnext. unfold lift, ret, bind, get_project. simpl.
    set (g := fun i => TaskCreate service (name (top + 1 + i)) (top + 1 + i)).
    destruct (for_range_dispatch_total
                (seqZ 0 (scale - len actual)) (fun i => Some (g i))
                (fun i => eg_Go (g i))) with (w := w)
      as (w' & Hrun & Hd).
    - done.
    - intros i t _ [= <-]. by apply run_task_settles.
    - exists w'. rewrite omap_Some_fmap in Hd. split; [|done].
      rewrite <- Hrun. apply for_range_ext. intros i Hi w0.
      apply elem_of_seqZ in Hi. unfold g, name.
      rewrite wrap_id; [done|]. unfold MinInt, MaxInt, intSize in *. lia.
  Qed.

  (** *** Scale down *)

Lemma index_nat {A} (xs : list A) (k : nat) : index xs (Z.of_nat k) = xs !! k.
  Proof.
    unfold index. destruct (Z.ltb_spec (Z.of_nat k) 0); [lia|].
    by rewrite Nat2Z.id.
  Qed.

  (** The index loop of the scale-down visits the tail of the listing. *)
Lemma scaleDown_loop_tail (actual : list Container) m : forall k w,
    (k + m = length actual)%nat ->
    for_range (seqZ (Z.of_nat k) (Z.of_nat m))
      (fun i => match index actual i with
                | None => panic
                | Some container => eg_Go (TaskStopDelete container)
                end) w
    = for_range (drop k actual) (fun c => eg_Go (TaskStopDelete c)) w.
  Proof.
    induction m as [|m IH]; intros k w Hk.
    - rewrite drop_ge by lia. done.
    - destruct (lookup_lt_is_Some_2 actual k) as [c Hc]; [lia|].
      rewrite seqZ_cons by lia. rewrite (drop_S _ _ _ Hc). simpl.
      rewrite index_nat, Hc. apply bind_ext. intros _ w1.
      replace (Z.succ (Z.of_nat k)) with (Z.of_nat (S k)) by lia.
      replace (Z.pred (Z.of_nat (S m))) with (Z.of_nat m) by lia.
      apply IH. lia.
  Qed.

Lemma stopAndDelete_calls c w :
    calls (stopAndDelete c w).2
    = calls w ++ CallStop (ID c)
        :: match (Stop (ID c) (runtime w)).1 with
           | Ok _ => [CallDelete (ID c)]
           | Err _ => []
           end.
  Proof.
    unfold stopAndDelete, bind. rewrite invoke_eq.
    destruct (Stop _ _).1 as [[]|e]; simpl; [|done].
    rewrite invoke_eq. simpl. by rewrite <- app_assoc.
  Qed.

Lemma eg_Go_stopAndDelete_calls c :
    respects (calls_grow (fun call => call = CallStop (ID c)
                                      \/ call = CallDelete (ID c)))
             (eg_Go (TaskStopDelete c)).
  Proof.
    unfold eg_Go. simpl. unfold stopAndDelete.
    respects_steps;
      try apply respects_calls_record; apply allows_calls_grow; auto.
  Qed.


  (** *** The drift pass *)

Lemma driftPass_dispatch service expected c w :
    (let diverged :=
       negb (String.eqb (label c configHashLabel) expected) in
     if diverged
        || bool_decide (extension service extLifecycle
                        = Some (ExtString forceRecreate))
     then eg_Go (TaskRecreate service c)
     else if String.eqb (State c) "running" then ret tt
     else eg_Go (TaskRestart service c)) w
    = dispatch (drift_task service expected c) w.
  Proof.
    unfold drift_task. simpl.
    destruct (String.eqb_spec (label c configHashLabel) expected) as [Hl|Hl];
      simpl.
    - case_bool_decide as Hf.
      + rewrite decide_True by by right. done.
      + rewrite decide_False by (intros [?|?]; done).
        destruct (String.eqb_spec (State c) "running") as [Hs|Hs].
        * by rewrite decide_True.
        * by rewrite decide_False.
    - rewrite decide_True by by left. done.
  Qed.

  (** What the tasks of the drift pass ask of the runtime. *)
Lemma go_calls (body : M RT unit) w : calls (go body w).2 = calls (body w).2.
  Proof. unfold go. by destruct (body w) as [[[]|e| |] w1]. Qed.

Lemma eg_Go_calls t w :
    calls (eg_Go t w).2 = calls (run_task t (record_task t w).2).2.
  Proof. unfold eg_Go, bind. simpl. apply go_calls. Qed.

Lemma recreateContainer_calls_grow service c :
    respects (calls_grow (fun call => run_call call \/ recreate_call c call))
             (recreateContainer service c).
  Proof.
    unfold recreateContainer, runContainer, connectContainerToNetwork.
    destruct (string_prefix _ _) as [prefix|] eqn:Hp.
    - apply string_prefix_inv in Hp as [_ ->]. fold (tmpName c).
      respects_steps; apply allows_calls_grow; unfold recreate_call;
        first [left; reflexivity|auto].
    - respects_steps; apply allows_calls_grow; unfold recreate_call;
        first [left; reflexivity|auto].
  Qed.

Lemma emit_invoke_first {A} e call (op : RT -> result A * RT)
      (k : A -> M RT unit) w :
    (forall a, respects (calls_grow (fun _ => True)) (k a)) ->
    exists tr,
      calls (bind (emit e) (fun _ => bind (invoke call op) k) w).2
      = calls w ++ call :: tr.
  Proof.
    intros Hk. unfold bind at 1. unfold emit at 1. unfold bind.
    rewrite invoke_eq. destruct (op _).1 as [a|err]; simpl.
    - match goal with
      | |- context [k a ?w1] => destruct (Hk a w1) as (tr & -> & _)
      end.
      exists tr. simpl. by rewrite <- app_assoc.
    - by exists [].
  Qed.

Lemma recreateContainer_first_call service c w :
    exists tr,
      calls (recreateContainer service c w).2 = calls w ++ CallStop (ID c) :: tr.
  Proof.
    unfold recreateContainer. apply emit_invoke_first. intros _.
    unfold runContainer, connectContainerToNetwork.
    destruct (string_prefix _ _);
      respects_steps; by apply allows_calls_grow.
  Qed.

Lemma restartContainer_calls service c w :
    calls (restartContainer service c w).2 = calls w ++ [CallStart (ID c)].
  Proof.
    unfold restartContainer, bind, emit. rewrite invoke_eq.
    by destruct (Start _ _).1.
  Qed.

Lemma eg_Go_first_call t call w :
    first_call t = Some call ->
    exists tr, calls (eg_Go t w).2 = calls w ++ call :: tr.
  Proof.
    intros Ht. rewrite eg_Go_calls.
    destruct t as [| |service c|service c]; try done;
      injection Ht as <-; simpl.
    - apply (recreateContainer_first_call service c (record_task _ w).2).
    - exists []. apply (restartContainer_calls service c (record_task _ w).2).
  Qed.

Lemma eg_Go_drift_calls service expected c t :
    drift_task service expected c = Some t ->
    respects (calls_grow (fun call => run_call call
                                      \/ drift_call service expected c call))
             (eg_Go t).
  Proof.
    unfold drift_task, drift_call. intros Ht.
    repeat case_decide; try done; injection Ht as <-; unfold eg_Go; simpl.
    - apply respects_bind; [apply _|apply respects_calls_record|]. intros _.
      apply respects_go; [apply _|]. intros w0.
      eapply calls_grow_weaken; [|apply recreateContainer_calls_grow].
      intros call [?|?]; auto.
    - unfold restartContainer.
      respects_steps; try apply respects_calls_record;
        apply allows_calls_grow; auto.
  Qed.

  (** A loop of tasks that returns has made the first call of each. *)
Lemma for_range_first_calls {A} (xs : list A) (g : A -> option Task)
      (body : A -> M RT unit) :
    (forall x w, body x w = dispatch (g x) w) ->
    forall w w',
      for_range xs body w = (Returns tt, w') ->
      exists tr, calls w' = calls w ++ tr
                 /\ forall x t call, x ∈ xs -> g x = Some t ->
                                     first_call t = Some call -> call ∈ tr.
  Proof.
    intros Hbody. induction xs as [|x xs IH]; intros w w'; simpl.
    - intros [= <-]. exists []. rewrite app_nil_r. split; [done|].
      intros x t call Hx. by apply elem_of_nil in Hx.
    - intros Hrun. apply bind_Returns_inv in Hrun as ([] & w1 & Hx & Hrest).
      destruct (IH _ _ Hrest) as (tr2 & E2 & Hxs).
      assert (exists tr1, calls w1 = calls w ++ tr1
                          /\ forall t call, g x = Some t ->
                                            first_call t = Some call ->
                                            call ∈ tr1) as (tr1 & E1 & Hx1).
      { rewrite Hbody in Hx. destruct (g x) as [t|]; simpl in Hx.
        - destruct (first_call t) as [call|] eqn:Hcall.
          + destruct (eg_Go_first_call t call w Hcall) as (tr & Etr).
            rewrite Hx in Etr. exists (call :: tr). split; [done|].
            intros t' call' [= <-]. rewrite Hcall. intros [= <-]. by left.
          + assert (respects (calls_grow (fun _ => True)) (eg_Go t)) as Hgrow.
            { unfold eg_Go. destruct t; simpl;
                unfold createContainer, stopAndDelete, recreateContainer,
                  restartContainer, runContainer, connectContainerToNetwork;
                try destruct (string_prefix _ _);
                respects_steps; try apply respects_calls_record;
                by apply allows_calls_grow. }
            destruct (Hgrow w) as (tr & Etr & _). rewrite Hx in Etr.
            exists tr. split; [done|]. intros t' call' [= <-]. congruence.
        - injection Hx as <-. exists []. rewrite app_nil_r. split; [done|].
          done. }
      exists (tr1 ++ tr2). rewrite E2, E1, app_assoc. split; [done|].
      intros x' t call Hin Hg Hcall. apply elem_of_app.
      apply elem_of_cons in Hin as [->|Hin]; [left|right]; eauto.
  Qed.

  (** The calls of a drift pass that returns. *)
Lemma driftPass_calls service expected actual w w' :
    driftPass service expected actual w = (Returns tt, w') ->
    exists tr,
      calls w' = calls w ++ tr
      /\ Forall (fun call =>
                   run_call call
                   \/ exists c, c ∈ actual
                                /\ drift_call service expected c call) tr
      /\ forall c t call, c ∈ actual ->
           drift_task service expected c = Some t ->
           first_call t = Some call -> call ∈ tr.
  Proof.
    intros Hrun.
    destruct (for_range_first_calls actual (drift_task service expected) _
                (fun c w0 => driftPass_dispatch service expected c w0)
                w w' Hrun) as (tr & Etr & Hfirst).
    exists tr. split; [done|]. split; [|done].
    assert (forall c, c ∈ actual ->
              respects
                (calls_grow (fun call =>
                   run_call call
                   \/ exists c, c ∈ actual
                                /\ drift_call service expected c call))
                (dispatch (drift_task service expected c)))
      as Hbody.
    { intros c Hc w0.
      destruct (drift_task service expected c) as [t|] eqn:Ht; simpl;
        [|reflexivity].
      eapply calls_grow_weaken; [|by apply (eg_Go_drift_calls _ _ _ _ Ht)].
      intros call [?|?]; eauto. }
    assert (for_range actual
              (fun c => dispatch (drift_task service expected c)) w
            = (Returns tt, w')) as Hrun'.
    { rewrite <- Hrun. unfold driftPass. symmetry. apply for_range_ext.
      intros c _ w0. apply driftPass_dispatch. }
    destruct (respects_for_range_in _ actual
                (fun c => dispatch (drift_task service expected c)) Hbody w)
      as (tr' & Etr' & Htr').
    rewrite Hrun' in Etr'. simpl in Etr'.
    rewrite Etr in Etr'. by apply app_inv_head in Etr' as <-.
  Qed.

  (** C2. In the drift pass a recreate is handed to the group for a
      container exactly when its fingerprint label differs from the
      expected fingerprint or the service carries the force-recreate
      annotation; otherwise nothing is handed over for a container that
      is running, and a restart for one that is not.  What is handed
      over runs [recreateContainer], or [restartContainer], on that
      container: the pass has stopped every container it recreates and
      started every one it restarts, and besides the calls of
      [runContainer] for the replacements the runtime has only seen the
      calls of a recreate for the former and the start of the latter.
      The pass returns whenever the identifiers of the containers have
      12 bytes or more. *)
Theorem drift_pass_decisions service expected actual w :
    let forced :=
      extension service extLifecycle = Some (ExtString forceRecreate) in
    let diverged c := label c configHashLabel <> expected in
    (Forall (fun c => (12 <= String.length (ID c))%nat) actual ->
     (driftPass service expected actual w).1 = Returns tt)
    /\ (forall c,
          eg_Go (TaskRecreate service c)
          = bind (record_task (TaskRecreate service c))
                 (fun _ => go (recreateContainer service c))
          /\ eg_Go (TaskRestart service c)
             = bind (record_task (TaskRestart service c))
                    (fun _ => go (restartContainer service c)))
    /\ forall w',
        driftPass service expected actual w = (Returns tt, w') ->
        exists tasks tr,
          dispatched w' = dispatched w ++ tasks
          /\ tasks = omap (drift_task service expected) actual
          /\ calls w' = calls w ++ tr
          /\ Forall (fun call =>
                       run_call call
                       \/ exists c, c ∈ actual
                                    /\ drift_call service expected c call) tr
          /\ forall c, c ∈ actual ->
               (TaskRecreate service c ∈ tasks <-> diverged c \/ forced)
               /\ (diverged c \/ forced -> CallStop (ID c) ∈ tr)
               /\ (~ (diverged c \/ forced) -> State c = "running" ->
                   forall t, t ∈ tasks -> task_container t <> Some c)
               /\ (~ (diverged c \/ forced) -> State c <> "running" ->
                   TaskRestart service c ∈ tasks /\ CallStart (ID c) ∈ tr).
  Proof.
    intros forced diverged. split; [|split].
    - intros Hids.
      destruct (for_range_dispatch_total actual (drift_task service expected)
                  (fun container =>
                     let diverged :=
                       negb (String.eqb (label container configHashLabel)
                                        expected) in
                     if diverged
                        || bool_decide (extension service extLifecycle
                                        = Some (ExtString forceRecreate))
                     then eg_Go (TaskRecreate service container)
                     else if String.eqb (State container) "running"
                          then ret tt
                          else eg_Go (TaskRestart service container)))
        with (w := w) as (w' & Hrun & _).
      + intros c w0. apply driftPass_dispatch.
      + intros c t Hc Ht. apply run_task_settles.
        rewrite Forall_forall in Hids. unfold drift_task in Ht.
        repeat case_decide; try done; injection Ht as <-; auto.
      + exact (f_equal fst Hrun).
    - done.
    - intros w' Hrun.
      destruct (driftPass_calls _ _ _ _ _ Hrun) as (tr & Etr & Htr & Hfirst).
      exists (omap (drift_task service expected) actual), tr.
      split.
      { eapply for_range_dispatch_Returns; [|exact Hrun].
        intros c w0. apply driftPass_dispatch. }
      split; [done|]. split; [done|]. split; [done|]. intros c Hc.
      assert (forall t, t ∈ omap (drift_task service expected) actual ->
                exists c', c' ∈ actual /\ drift_task service expected c' = Some t)
        as Hin by (intros t; by rewrite list_elem_of_omap).
      split; [split|split; [|split]].
      + intros (c' & _ & Ht)%Hin. unfold drift_task in Ht.
        repeat case_decide; try done; by injection Ht as <-.
      + intros Hd. apply list_elem_of_omap. exists c. split; [done|].
        unfold drift_task. by rewrite decide_True.
      + intros Hd. apply (Hfirst c (TaskRecreate service c)); [done| |done].
        unfold drift_task. by rewrite decide_True.
      + intros Hno Hrunning t (c' & _ & Ht)%Hin Htc.
        unfold drift_task in Ht.
        repeat case_decide; try done; injection Ht as <-;
          simpl in Htc; injection Htc as ->; done.
      + intros Hno Hstopped.
        assert (drift_task service expected c = Some (TaskRestart service c))
          as Ht.
        { unfold drift_task. rewrite decide_False by done.
          by rewrite decide_False. }
        split.
        * apply list_elem_of_omap. by exists c.
        * by apply (Hfirst c (TaskRestart service c)).
  Qed.

End ReconcilerFacts.

(** ** Parse errors of the allocator *)

Section AllocatorFacts.
Context `{LabelKeys}.

Lemma Atoi_Err_NumError s e :
    Atoi s = Err e -> exists kind, e = NumError "Atoi" s kind.
  Proof.
    unfold Atoi. destruct (split_sign s) as [neg body].
    destruct body as [|a body]; [intros [= <-]; by eexists|].
    destruct (ParseUint_loop 0 _) as [kind|v]; [intros [= <-]; by eexists|].
    destruct (in_range _); [done|]. intros [= <-]. by eexists.
  Qed.

Lemma nextContainerNumber_from_Err_source cs : forall max e,
    nextContainerNumber_from max cs = Err e ->
    exists c, c ∈ cs /\ Atoi (label c containerNumberLabel) = Err e.
  Proof.
    induction cs as [|c cs IH]; intros max e; simpl; [done|].
    destruct (Atoi (label c containerNumberLabel)) as [n|e'] eqn:Hc.
    - intros (c' & Hin & He)%IH. exists c'. split; [by right|done].
    - intros [= <-]. exists c. split; [by left|done].
  Qed.

  (** C5, as the code has it. [nextContainerNumber] fails exactly when
      the instance-number label of some container, read as the empty
      string when the container has none, is not a run of decimal digits
      with at most one sign in front whose value fits [int]; the error
      is then the parse error of [strconv.Atoi] for such a label. *)
Theorem nextContainerNumber_fails_iff cs :
    ((exists e, nextContainerNumber cs = Err e)
     <-> exists c, c ∈ cs
                   /\ ~ exists n, int_literal (label c containerNumberLabel) n
                                  /\ MinInt <= n <= MaxInt)
    /\ forall e, nextContainerNumber cs = Err e ->
         exists c kind,
           c ∈ cs /\ e = NumError "Atoi" (label c containerNumberLabel) kind.
  Proof.
    split.
    - unfold nextContainerNumber. rewrite nextContainerNumber_from_Err.
      split; intros (c & Hin & Hc); exists c; split; try done;
        by apply Atoi_Err_iff.
    - intros e (c & Hin & Hc)%nextContainerNumber_from_Err_source.
      apply Atoi_Err_NumError in Hc as [kind ->]. by exists c, kind.
  Qed.

End AllocatorFacts.

(** ** No-op stability *)

Section StabilityFacts.
Context `{LabelKeys} `{Collaborators} {RT : Type} `{Runtime RT}.
Implicit Types w : World RT.

Lemma isServiceHealthy_range_reads_only service containers :
    respects (calls_grow reads_only) (isServiceHealthy_range service containers).
  Proof.
    induction containers as [|c containers IH]; simpl.
    - apply respects_ret. apply _.
    - apply respects_bind; [apply _| |].
      + apply respects_invoke. by apply allows_calls_grow.
      + intros j. destruct (Inspect.State j) as [state|];
          [|apply respects_fail; apply _].
        destruct (Inspect.Health_ state) as [health|];
          [|apply respects_fail; apply _].
        repeat (destruct (String.eqb _ _); [apply respects_ret; apply _|]).
        exact IH.
  Qed.

Lemma isServiceHealthy_reads_only service :
    respects (calls_grow reads_only) (isServiceHealthy service).
  Proof.
    unfold isServiceHealthy.
    apply respects_bind; [apply _|apply respects_get_project; apply _|].
    intros p. apply respects_bind; [apply _| |].
    - apply respects_invoke. by apply allows_calls_grow.
    - intros containers. apply isServiceHealthy_range_reads_only.
  Qed.

Lemma poll_reads_only fuel dep :
    respects (calls_grow reads_only) (poll fuel dep).
  Proof.
    induction fuel as [|fuel IH]; simpl.
    - apply respects_polling. apply _.
    - apply respects_bind; [apply _|apply isServiceHealthy_reads_only|].
      intros [|]; [apply respects_ret; apply _|exact IH].
  Qed.

Lemma waitDependencies_reads_only fuel service :
    respects (calls_grow reads_only) (waitDependencies fuel service).
  Proof.
    unfold waitDependencies.
    apply respects_bind; [apply _|apply respects_calls_reset|]. intros _.
    apply respects_bind; [apply _| |intros _; apply respects_eg_Wait; apply _].
    apply respects_for_range; [apply _|]. intros [dep config].
    destruct (String.eqb _ _); [|apply respects_ret; apply _].
    apply respects_go; [apply _|]. apply poll_reads_only.
  Qed.

  (** C8. When the listing has as many containers as the service's
      scale, every one of them carries the current fingerprint and is
      running, and the service has no force-recreate annotation,
      [ensureService] returns without an error, hands nothing to the
      group and calls the runtime only to list and to inspect: no
      create, stop, start, rename, delete or network call is made. *)
Theorem ensureService_noop fuel service w w1 actual rt2 expected :
    let filters := list_filters (Project.Name (project w1))
                                (ServiceConfig.Name service) in
    waitDependencies fuel service w = (Returns tt, w1) ->
    ContainerList filters (runtime w1) = (Ok actual, rt2) ->
    len actual = getScale service ->
    jsonHash service = Ok expected ->
    Forall (fun c => label c configHashLabel = expected
                     /\ State c = "running") actual ->
    extension service extLifecycle <> Some (ExtString forceRecreate) ->
    exists w',
      ensureService fuel service w = (Returns tt, w')
      /\ dispatched w' = []
      /\ runtime w' = rt2
      /\ exists tr, calls w' = calls w ++ tr
                    /\ Forall (fun c => is_mutation c = false) tr.
  Proof.
    intros filters Hwait Hlist Hscale Hhash Hall Hext.
    pose proof (waitDependencies_reads_only fuel service w) as (tr & Etr & Htr).
    rewrite Hwait in Etr. simpl in Etr.
    eexists. split; [|split; [|split]].
    - unfold ensureService.
      rewrite (bind_Returns _ _ _ _ _ Hwait).
      unfold bind at 1, get_project at 1. unfold bind at 1.
      rewrite invoke_eq. fold filters. rewrite Hlist. simpl.
      unfold reconcile, bind, errgroup_WithContext, scaleUp, scaleDown.
      simpl. rewrite <- Hscale.
      rewrite Z.ltb_irrefl, Z.gtb_ltb, Z.ltb_irrefl. simpl.
      rewrite Hhash. simpl. unfold driftPass.
      erewrite (for_range_nothing actual (drift_task service expected));
        [reflexivity| |].
      + intros c w0. apply driftPass_dispatch.
      + intros c Hc. rewrite Forall_forall in Hall.
        destruct (Hall c Hc) as [Hl Hs]. unfold drift_task.
        rewrite decide_False by (intros [?|?]; done).
        by rewrite decide_True.
    - done.
    - done.
    - exists (tr ++ [CallContainerList filters]). simpl.
      rewrite Etr, <- app_assoc. split; [done|].
      apply Forall_app. split; [done|]. by constructor.
  Qed.

End StabilityFacts.

(** ** The reference runtime keeps the laws *)

Section SimFacts.
Import Sim.

Lemma substring_all s : substring 0 (String.length s) s = s.
Proof. induction s as [|a s IH]; simpl; [done|]. by rewrite IH. Qed.

Lemma canonical_set_name name e : canonical (summary (set_name name e)) = name.
Proof.
  unfold canonical, set_name. simpl. rewrite Nat.sub_0_r. apply substring_all.
Qed.

Lemma find_update id' id f rt :
  (forall e, ID (summary (f e)) = ID (summary e)) ->
  find id' (update id f rt)
  = (fun e => if has_id id e then f e else e) <$> find id' rt.
Proof.
  intros Hf. unfold find, update. simpl.
  induction (entries rt) as [|e es IH]; simpl; [done|].
  assert (has_id id' (if has_id id e then f e else e) = has_id id' e) as ->.
  { unfold has_id. destruct (String.eqb (ID (summary e)) id); [|done].
    by rewrite Hf. }
  by destruct (has_id id' e).
Qed.

Lemma find_Some_id id rt e : find id rt = Some e -> has_id id e = true.
Proof. unfold find. intros Hf. by apply find_some in Hf as [_ ?]. Qed.

Lemma name_entries es f1 f2 g1 g2 id :
  name (Sim.mk es f1 g1) id = name (Sim.mk es f2 g2) id.
Proof. done. Qed.

Lemma guarded_name_eq {A} (op : Sim.t -> result A * Sim.t) rt id :
  (forall rt0, name (op rt0).2 id = name rt0 id) ->
  name (guarded op rt).2 id = name rt id.
Proof.
  intros Hop. unfold guarded. destruct (faults rt) as [|[err|] rest]; simpl.
  - apply Hop.
  - done.
  - by rewrite Hop.
Qed.

Lemma guarded_name_kept {A} (op : Sim.t -> result A * Sim.t) rt id n :
  (forall rt0, name rt0 id = Some n -> name (op rt0).2 id = Some n) ->
  name rt id = Some n -> name (guarded op rt).2 id = Some n.
Proof.
  intros Hop Hn. unfold guarded. destruct (faults rt) as [|[err|] rest]; simpl.
  - by apply Hop.
  - done.
  - by apply Hop.
Qed.

Lemma guarded_name_set (op : Sim.t -> result unit * Sim.t) rt id n :
  (forall rt0, (op rt0).1 = Ok tt -> name (op rt0).2 id = Some n) ->
  (guarded op rt).1 = Ok tt -> name (guarded op rt).2 id = Some n.
Proof.
  intros Hop. unfold guarded. destruct (faults rt) as [|[err|] rest]; simpl.
  - apply Hop.
  - done.
  - apply Hop.
Qed.

Lemma on_container_name id f rt id' :
  (forall e, ID (summary (f e)) = ID (summary e)) ->
  (forall e, Names (summary (f e)) = Names (summary e)) ->
  name (on_container id f rt).2 id' = name rt id'.
Proof.
  intros Hid Hnames. unfold on_container.
  destruct (find id rt) as [found|]; [|done]. simpl. unfold name.
  rewrite (find_update _ _ _ _ Hid).
  destruct (find id' rt) as [e'|]; [|done]. simpl.
  destruct (has_id id e'); [|done]. unfold canonical. by rewrite Hnames.
Qed.

Lemma find_app_Some id es e extra :
  List.find (has_id id) es = Some e ->
  List.find (has_id id) (es ++ extra) = Some e.
Proof.
  induction es as [|e0 es IH]; simpl; [done|].
  by destruct (has_id id e0).
Qed.

Lemma Sim_laws : RuntimeLaws Sim.t Sim.name.
Proof.
  split.
  - intros id rt id'. apply (guarded_name_eq (A:=unit)). intros rt0.
    by apply on_container_name.
  - intros id n rt. apply guarded_name_set. intros rt0.
    unfold on_container. destruct (find id rt0) as [e|] eqn:He; [|done].
    intros _. simpl. unfold name.
    rewrite find_update by done. rewrite He. simpl.
    rewrite (find_Some_id _ _ _ He). by rewrite canonical_set_name.
  - intros opts n rt id' n'. apply (guarded_name_kept (A:=string)).
    intros rt0 Hn. unfold new. destruct (fresh rt0) as [|id ids]; [done|].
    destruct (find id rt0); [done|]. simpl. unfold name, find in *. simpl.
    destruct (List.find (has_id id') (entries rt0)) as [e|] eqn:He; [|done].
    by rewrite (find_app_Some _ _ _ _ He).
  - intros net id aliases rt id'. apply (guarded_name_eq (A:=unit)).
    intros rt0. unfold connect. by destruct (find id rt0).
  - intros id rt id'. apply (guarded_name_eq (A:=unit)). intros rt0.
    by apply on_container_name.
Qed.

End SimFacts.

(** ** The claims on the scenario *)

Module Cases.
Import Sim Scenario.


(** C2 on three containers: nothing for [web_1], a recreate for the
    stale [web_2], which is stopped, a restart for the stopped [web_3],
    which is started. *)
Lemma drift_pass_decisions_witness :
  let w := Sim.world three_web proj in
  let actual := [web_1; web_2; web_3] in
  let w' := (driftPass web "web" actual w).2 in
  Forall (fun c => (12 <= String.length (ID c))%nat) actual
  /\ driftPass web "web" actual w = (Returns tt, w')
  /\ dispatched w' = [TaskRecreate web web_2; TaskRestart web web_3]
  /\ (TaskRecreate web web_2 ∈ dispatched w'
      <-> label web_2 configHashLabel <> "web"
          \/ extension web extLifecycle = Some (ExtString forceRecreate))
  /\ (CallStop (ID web_2) ∈ calls w')
  /\ (CallStart (ID web_3) ∈ calls w')
  /\ eg_Go (TaskRecreate web web_2) w
     = bind (record_task (TaskRecreate web web_2))
            (fun _ => go (recreateContainer web web_2)) w.
Proof.
  intros w actual w'.
  assert (Forall (fun c => (12 <= String.length (ID c))%nat) actual) as Hids.
  { repeat constructor; vm_compute; lia. }
  assert (driftPass web "web" actual w = (Returns tt, w')) as Hrun
    by (vm_compute; reflexivity).
  assert (label web_2 configHashLabel <> "web") as Hstale
    by (vm_compute; discriminate).
  assert (~ (label web_3 configHashLabel <> "web"
             \/ extension web extLifecycle = Some (ExtString forceRecreate)))
    as Hsync.
  { intros [Hl|Hf]; [apply Hl; vm_compute; reflexivity|discriminate Hf]. }
  assert (State web_3 <> "running") as Hstopped by discriminate.
  split; [exact Hids|]. split; [exact Hrun|]. split; [vm_compute; reflexivity|].
  destruct (drift_pass_decisions web "web" actual w) as (_ & Hgo & Hpass).
  destruct (Hpass w' Hrun) as (tasks & tr & Hd & _ & Hcalls & _ & Hc).
  simpl in Hcalls. rewrite Hd, Hcalls. simpl.
  destruct (Hc web_2) as (Hiff & Hstop & _); [right; left|].
  destruct (Hc web_3) as (_ & _ & _ & Hstart); [right; right; left|].
  split; [exact Hiff|]. split; [apply Hstop; left; exact Hstale|].
  split; [exact (proj2 (Hstart Hsync Hstopped))|].
  by rewrite (proj1 (Hgo web_2)).
Defined.

(** C3 on the project: [api] and [worker] depend on [web] and are
    marked, [db] and [web] itself are not. *)
Lemma setDependentLifecycle_marks_dependents_witness :
  let p' := setDependentLifecycle proj "web" forceRecreate in
  Project.Services proj !! 1%nat = Some api
  /\ ("web" ∈ GetDependencies api)
  /\ (exists s', Project.Services p' !! 1%nat = Some s'
                 /\ extension s' extLifecycle = Some (ExtString forceRecreate))
  /\ ("web" ∉ GetDependencies db)
  /\ Project.Services p' !! 3%nat = Some db.
Proof.
  intros p'.
  assert ("web" ∈ GetDependencies api) as Hapi by (simpl; left).
  assert ("web" ∉ GetDependencies db) as Hdb by (simpl; apply not_elem_of_nil).
  split; [reflexivity|]. split; [exact Hapi|].
  pose proof (setDependentLifecycle_marks_dependents proj "web" forceRecreate)
    as (_ & _ & Hservices).
  split.
  - destruct (Hservices 1%nat api eq_refl) as (s' & Hs' & Hmarked & _).
    exists s'. split; [exact Hs'|]. by apply Hmarked.
  - split; [exact Hdb|].
    destruct (Hservices 3%nat db eq_refl) as (s' & Hs' & _ & Hkept).
    rewrite (Hkept Hdb) in Hs'. exact Hs'.
Defined.

(** C4 at two listings of the same containers: with the starting one
    first the gate answers not yet healthy although [db_2] has no health
    check; with [db_2] first it fails although [db_1] is starting. *)
Lemma health_gate_follows_listing_order :
  let filters := list_filters "proj" "db" in
  let unchecked := Inspect.mk (Some (Inspect.mkState None)) in
  let starting := Inspect.mk (Some (Inspect.mkState
                                      (Some (Inspect.mkHealth "starting")))) in
  health_status unchecked = None
  /\ health_status starting = Some "starting"
  /\ ((ContainerList filters starting_then_unchecked).1 = Ok [db_1; db_2]
      /\ (ContainerInspect (ID db_2) starting_then_unchecked).1 = Ok unchecked
      /\ (isServiceHealthy "db" (Sim.world starting_then_unchecked proj)).1
         = Returns false)
  /\ ((ContainerList filters unchecked_then_starting).1 = Ok [db_2; db_1]
      /\ (ContainerInspect (ID db_1) unchecked_then_starting).1 = Ok starting
      /\ (isServiceHealthy "db" (Sim.world unchecked_then_starting proj)).1
         = Fails (NoHealthcheck "db")).
Proof. vm_compute. repeat split. Qed.

Lemma isServiceHealthy_first_decides_witness :
  let w := Sim.world healthy_then_starting proj in
  let healthy := Inspect.mk (Some (Inspect.mkState
                                     (Some (Inspect.mkHealth "healthy")))) in
  let starting := Inspect.mk (Some (Inspect.mkState
                                      (Some (Inspect.mkHealth "starting")))) in
  ContainerList (list_filters (Project.Name (project w)) "db") (runtime w)
  = (Ok [db_1; db_2], healthy_then_starting)
  /\ inspected healthy_then_starting [db_1] [healthy] healthy_then_starting
  /\ Forall passes [healthy]
  /\ ContainerInspect (ID db_2) healthy_then_starting
     = (Ok starting, healthy_then_starting)
  /\ (isServiceHealthy "db" w).1 = Returns false.
Proof.
  intros w healthy starting.
  assert (ContainerList (list_filters (Project.Name (project w)) "db")
                        (runtime w)
          = (Ok [db_1; db_2], healthy_then_starting)) as Hlist
    by (vm_compute; reflexivity).
  assert (inspected healthy_then_starting [db_1] [healthy]
                    healthy_then_starting) as Hins.
  { eapply inspected_cons; [vm_compute; reflexivity|constructor]. }
  assert (Forall passes [healthy]) as Hpass.
  { repeat constructor. exists "healthy". repeat split; discriminate. }
  assert (ContainerInspect (ID db_2) healthy_then_starting
          = (Ok starting, healthy_then_starting)) as Hc
    by (vm_compute; reflexivity).
  repeat (split; [assumption|]).
  apply (proj1 (isServiceHealthy_first_decides "db" w _ _ Hlist)
           [db_1] db_2 [] [healthy] _ starting _ eq_refl Hins Hpass Hc).
  by left.
Defined.

(** C5 at two labels: ["-5"] is no non-negative integer and is accepted;
    ["9223372036854775808"] is one and is rejected. *)
Lemma allocator_signed_accepted_large_rejected :
  let minus_five := numbered "-5" in
  let large := numbered "9223372036854775808" in
  (is_nonneg_decimal (label minus_five containerNumberLabel) = false
   /\ nextContainerNumber [minus_five] = Ok 1)
  /\ (is_nonneg_decimal (label large containerNumberLabel) = true
      /\ nextContainerNumber [large]
         = Err (NumError "Atoi" "9223372036854775808" ErrRange)).
Proof. vm_compute. repeat split. Qed.

Lemma nextContainerNumber_fails_iff_witness :
  let cs := [numbered "1"; numbered "x7"] in
  (exists c, c ∈ cs
             /\ ~ exists n, int_literal (label c containerNumberLabel) n
                            /\ MinInt <= n <= MaxInt)
  /\ exists e, nextContainerNumber cs = Err e.
Proof.
  intros cs.
  assert (exists c, c ∈ cs
                    /\ ~ exists n, int_literal (label c containerNumberLabel) n
                                   /\ MinInt <= n <= MaxInt) as Hbad.
  { exists (numbered "x7"). split; [right; left|].
    apply Atoi_Err_iff. eexists. vm_compute. reflexivity. }
  split; [exact Hbad|].
  exact (proj2 (proj1 (nextContainerNumber_fails_iff cs)) Hbad).
Defined.

(** C6 at two labels that parse: after the largest [int] the next number
    wraps around, and below zero the next number is 1. *)
Lemma allocator_wraps_and_starts_at_one :
  let largest := numbered "9223372036854775807" in
  let minus_five := numbered "-5" in
  (Atoi (label largest containerNumberLabel) = Ok 9223372036854775807
   /\ nextContainerNumber [largest] = Ok (-9223372036854775808)
   /\ nextContainerNumber [largest] <> Ok (9223372036854775807 + 1))
  /\ (Atoi (label minus_five containerNumberLabel) = Ok (-5)
      /\ nextContainerNumber [minus_five] = Ok 1
      /\ nextContainerNumber [minus_five] <> Ok (-5 + 1)).
Proof. vm_compute. repeat split; discriminate. Qed.

Lemma next_number_and_scale_up_witness :
  let w := Sim.world three_web proj in
  let actual := [web_1; web_3] in
  let w' := (scaleUp web actual 4 w).2 in
  Forall2 (fun c n => Atoi (label c containerNumberLabel) = Ok n) actual [1; 3]
  /\ foldr Z.max 0 [1; 3] < MaxInt
  /\ len actual < 4
  /\ foldr Z.max 0 [1; 3] + (4 - len actual) <= MaxInt
  /\ nextContainerNumber actual = Ok 4
  /\ exists w',
       scaleUp web actual 4 w = (Returns tt, w')
       /\ dispatched w' = [TaskCreate web "proj_web_4" 4;
                           TaskCreate web "proj_web_5" 5].
Proof.
  intros w actual w'.
  assert (Forall2 (fun c n => Atoi (label c containerNumberLabel) = Ok n)
                  actual [1; 3]) as Hns.
  { repeat constructor; vm_compute; reflexivity. }
  assert (foldr Z.max 0 [1; 3] < MaxInt) as Htop by (vm_compute; reflexivity).
  assert (len actual < 4) as Hlen by (vm_compute; reflexivity).
  assert (foldr Z.max 0 [1; 3] + (4 - len actual) <= MaxInt) as Hfit
    by (vm_compute; discriminate).
  repeat (split; [assumption|]).
  pose proof (next_number_and_scale_up web actual [1; 3] 4 w Hns Htop)
    as (Hnext & _ & Hup).
  split; [exact Hnext|].
  destruct (Hup Hlen Hfit) as (w0 & Hrun & Hd).
  exists w0. split; [exact Hrun|]. rewrite Hd. vm_compute. reflexivity.
Defined.



(** C8 on a converged runtime: [api] is at scale, in sync and running,
    and its gate opens at the first poll. *)
Lemma ensureService_noop_witness :
  let w := Sim.world converged proj in
  let w1 := (waitDependencies 1 api w).2 in
  waitDependencies 1 api w = (Returns tt, w1)
  /\ ContainerList (list_filters (Project.Name (project w1))
                                 (ServiceConfig.Name api)) (runtime w1)
     = (Ok [api_1], converged)
  /\ len [api_1] = getScale api
  /\ jsonHash api = Ok "api"
  /\ Forall (fun c => label c configHashLabel = "api"
                      /\ State c = "running") [api_1]
  /\ extension api extLifecycle <> Some (ExtString forceRecreate)
  /\ exists w',
       ensureService 1 api w = (Returns tt, w')
       /\ dispatched w' = []
       /\ Forall (fun c => is_mutation c = false) (calls w').
Proof.
  intros w w1.
  assert (waitDependencies 1 api w = (Returns tt, w1)) as Hwait
    by (vm_compute; reflexivity).
  assert (ContainerList (list_filters (Project.Name (project w1))
                                      (ServiceConfig.Name api)) (runtime w1)
          = (Ok [api_1], converged)) as Hlist
    by (vm_compute; reflexivity).
  assert (len [api_1] = getScale api) as Hscale by reflexivity.
  assert (jsonHash api = Ok "api") as Hhash by reflexivity.
  assert (Forall (fun c => label c configHashLabel = "api"
                           /\ State c = "running") [api_1]) as Hall.
  { repeat constructor. }
  assert (extension api extLifecycle <> Some (ExtString forceRecreate))
    as Hext by discriminate.
  repeat (split; [assumption|]).
  destruct (ensureService_noop 1 api w w1 [api_1] converged "api"
              Hwait Hlist Hscale Hhash Hall Hext)
    as (w' & Hrun & Hd & _ & tr & Hcalls & Htr).
  exists w'. split; [exact Hrun|]. split; [exact Hd|].
  rewrite Hcalls. exact Htr.
Defined.

(** C9 on an identifier of 20 bytes and on one of 7 bytes. *)
Lemma recreate_needs_12_byte_id_witness :
  ((12 <= String.length (ID web_2))%nat
   /\ (recreateContainer web web_2 (Sim.world three_web proj)).1 <> Panics)
  /\ ((String.length (ID web_4) < 12)%nat
      /\ (Stop (ID web_4) (runtime (Sim.world short_id proj))).1 = Ok tt
      /\ (recreateContainer web web_4 (Sim.world short_id proj)).1 = Panics).
Proof.
  assert ((12 <= String.length (ID web_2))%nat) as Hlong
    by (vm_compute; lia).
  assert ((String.length (ID web_4) < 12)%nat) as Hshort
    by (vm_compute; lia).
  assert ((Stop (ID web_4) (runtime (Sim.world short_id proj))).1 = Ok tt)
    as Hstop by (vm_compute; reflexivity).
  split.
  - split; [exact Hlong|].
    exact (proj1 (proj1 (proj2 (recreate_needs_12_byte_id
                                  web web_2 (Sim.world three_web proj)))
                        Hlong)).
  - split; [exact Hshort|]. split; [exact Hstop|].
    exact (proj2 (proj2 (recreate_needs_12_byte_id
                           web web_4 (Sim.world short_id proj)))
                 Hshort Hstop).
Defined.


End Cases.

(** * Further properties of [convergence.go] *)

(** ** [getScale] and the allocator *)

Section ScaleFacts.
Context `{LabelKeys}.

Lemma wrap_zero z : wrap z = 0 <-> z mod 2 ^ 64 = 0.
Proof.
  unfold wrap, intSize.
  change (2 ^ (64 - 1)) with 9223372036854775808.
  change (2 ^ 64) with 18446744073709551616.
  split; intros Hz.
  - assert ((z + 9223372036854775808) mod 18446744073709551616
            = 9223372036854775808) as Hm by lia.
    clear Hz.
    pose proof (Z.div_mod z 18446744073709551616 ltac:(lia)).
    pose proof (Z.mod_pos_bound z 18446744073709551616 ltac:(lia)).
    pose proof (Z.div_mod (z + 9223372036854775808) 18446744073709551616
                  ltac:(lia)).
    rewrite Hm in *. lia.
  - pose proof (Z.div_mod z 18446744073709551616 ltac:(lia)) as Hd.
    rewrite Hz in Hd.
    replace (z + 9223372036854775808)
      with (9223372036854775808
            + (z / 18446744073709551616) * 18446744073709551616) by lia.
    rewrite Z.mod_add by lia. rewrite Z.mod_small; lia.
Qed.

(** X1. The desired scale is 0 only through the replica override: with
    no override [getScale] never returns 0, whatever [Scale] is, and with
    one it returns 0 exactly when the [uint64] is 0. *)
Theorem getScale_zero_iff config :
  getScale config = 0
  <-> exists deploy replicas,
        ServiceConfig.Deploy config = Some deploy
        /\ Replicas deploy = Some replicas
        /\ replicas mod 2 ^ 64 = 0.
Proof.
  unfold getScale.
  assert ((if negb (ServiceConfig.Scale config =? 0)
           then ServiceConfig.Scale config else 1) <> 0) as Hscale.
  { destruct (Z.eqb_spec (ServiceConfig.Scale config) 0); simpl; lia. }
  destruct (ServiceConfig.Deploy config) as [deploy|].
  - destruct (Replicas deploy) as [replicas|] eqn:Hr.
    + rewrite wrap_zero. split.
      * intros Hz. by exists deploy, replicas.
      * intros (d & r & [= <-] & Hr' & Hz). congruence.
    + split; [done|]. intros (d & r & [= <-] & Hr' & _). congruence.
  - split; [done|]. by intros (d & r & ? & _).
Qed.

Lemma foldr_max_upper ns n : n ∈ ns -> n <= foldr Z.max 0 ns.
Proof.
  induction ns as [|k ns IH]; simpl.
  - intros Hn. by apply elem_of_nil in Hn.
  - intros [->|Hn]%elem_of_cons; [lia|]. apply IH in Hn. lia.
Qed.

Lemma nextContainerNumber_top actual ns :
  Forall2 (fun c n => Atoi (label c containerNumberLabel) = Ok n) actual ns ->
  foldr Z.max 0 ns < MaxInt ->
  nextContainerNumber actual = Ok (foldr Z.max 0 ns + 1).
Proof.
  intros Hns Htop. unfold nextContainerNumber.
  rewrite (nextContainerNumber_from_Ok _ _ _ Hns).
  pose proof (foldr_max_lower ns).
  rewrite wrap_id; [done|]. unfold MinInt, MaxInt, intSize in *. lia.
Qed.

(** X2. The number [nextContainerNumber] returns is not in use: it is at
    least 1 and greater than every instance number read off the list, as
    long as the largest of them is below the largest [int]. *)
Theorem nextContainerNumber_fresh actual ns next :
  Forall2 (fun c n => Atoi (label c containerNumberLabel) = Ok n) actual ns ->
  foldr Z.max 0 ns < MaxInt ->
  nextContainerNumber actual = Ok next ->
  1 <= next /\ (forall n, n ∈ ns -> n < next) /\ next ∉ ns.
Proof.
  intros Hns Htop Hnext.
  rewrite (nextContainerNumber_top _ _ Hns Htop) in Hnext.
  injection Hnext as <-.
  pose proof (foldr_max_lower ns).
  assert (forall n, n ∈ ns -> n < foldr Z.max 0 ns + 1) as Hlt.
  { intros n Hn%foldr_max_upper. lia. }
  split; [lia|]. split; [done|]. intros Hin%Hlt. lia.
Qed.

Lemma nextContainerNumber_from_perm cs cs' :
  cs ≡ₚ cs' ->
  forall max n,
    nextContainerNumber_from max cs = Ok n
    <-> nextContainerNumber_from max cs' = Ok n.
Proof.
  induction 1 as [|c cs cs' _ IH|c1 c2 cs|cs1 cs2 cs3 _ IH1 _ IH2];
    intros max n; simpl.
  - done.
  - destruct (Atoi (label c containerNumberLabel)); [apply IH|done].
  - destruct (Atoi (label c1 containerNumberLabel)) as [n1|];
      destruct (Atoi (label c2 containerNumberLabel)) as [n2|]; try done.
    assert ((if n1 >? (if n2 >? max then n2 else max) then n1
             else if n2 >? max then n2 else max)
            = (if n2 >? (if n1 >? max then n1 else max) then n2
               else if n1 >? max then n1 else max)) as ->; [|done].
    destruct (Z.gtb_spec n2 max); destruct (Z.gtb_spec n1 max);
      repeat match goal with
             | |- context [?a >? ?b] => destruct (Z.gtb_spec a b)
             end; lia.
  - by rewrite IH1, IH2.
Qed.

(** X3. The result does not depend on the order in which the runtime
    lists the containers: a listing and any permutation of it give the
    same number, or both fail. *)
Theorem nextContainerNumber_permutation cs cs' :
  cs ≡ₚ cs' ->
  (forall n, nextContainerNumber cs = Ok n <-> nextContainerNumber cs' = Ok n)
  /\ ((exists e, nextContainerNumber cs = Err e)
      <-> (exists e, nextContainerNumber cs' = Err e)).
Proof.
  intros Hperm. split.
  - intros n. by apply nextContainerNumber_from_perm.
  - unfold nextContainerNumber. rewrite !nextContainerNumber_from_Err.
    split; intros (c & Hin & He); exists c; split; try done.
    + by rewrite <- Hperm.
    + by rewrite Hperm.
Qed.

Lemma nextContainerNumber_from_first_error before : forall max c after e,
  Forall parses before ->
  Atoi (label c containerNumberLabel) = Err e ->
  nextContainerNumber_from max (before ++ c :: after) = Err e.
Proof.
  induction before as [|b before IH]; intros max c after e Hbefore Hc; simpl.
  - by rewrite Hc.
  - apply Forall_cons in Hbefore as [[n Hb] Hbefore]. rewrite Hb.
    by apply IH.
Qed.

(** X4. The loop of [nextContainerNumber] stops at the first label that
    does not parse and returns that label's error; the containers listed
    after it are not looked at. *)
Theorem nextContainerNumber_first_error before c after e :
  Forall parses before ->
  Atoi (label c containerNumberLabel) = Err e ->
  nextContainerNumber (before ++ c :: after) = Err e.
Proof. apply nextContainerNumber_from_first_error. Qed.

End ScaleFacts.

(** ** Propagation, applied more than once *)

Section PropagationAlgebra.
Context `{Collaborators}.

Lemma with_lifecycle_twice s1 s2 s :
  with_lifecycle s2 (with_lifecycle s1 s) = with_lifecycle s2 s.
Proof.
  unfold with_lifecycle. simpl. by rewrite insert_insert_eq.
Qed.

(** X5. Last writer wins: propagating a strategy for a service and then
    another one for the same service leaves the project as the second
    propagation alone would, provided the dependency list of a service
    does not depend on its extensions. *)
Theorem setDependentLifecycle_overwrites p service s1 s2 :
  (forall strategy s,
      GetDependencies (with_lifecycle strategy s) = GetDependencies s) ->
  setDependentLifecycle (setDependentLifecycle p service s1) service s2
  = setDependentLifecycle p service s2.
Proof.
  intros Hdeps.
  assert (forall q q' : Project,
            Project.Name q = Project.Name q' ->
            Project.Services q = Project.Services q' -> q = q') as Hext.
  { intros [] []. simpl. congruence. }
  apply Hext; [done|].
  rewrite !setDependentLifecycle_map, <- list_fmap_compose.
  apply list_fmap_ext. intros i s _. simpl.
  destruct (contains (GetDependencies s) service) eqn:Hs.
  - by rewrite Hdeps, Hs, with_lifecycle_twice.
  - by rewrite Hs.
Qed.

(** X6. Propagating the same strategy for two services marks the same
    dependents in either order, under the same proviso. *)
Theorem setDependentLifecycle_commutes p service1 service2 strategy :
  (forall strategy s,
      GetDependencies (with_lifecycle strategy s) = GetDependencies s) ->
  setDependentLifecycle (setDependentLifecycle p service1 strategy)
                        service2 strategy
  = setDependentLifecycle (setDependentLifecycle p service2 strategy)
                          service1 strategy.
Proof.
  intros Hdeps.
  assert (forall q q' : Project,
            Project.Name q = Project.Name q' ->
            Project.Services q = Project.Services q' -> q = q') as Hext.
  { intros [] []. simpl. congruence. }
  apply Hext; [done|].
  rewrite !setDependentLifecycle_map, <- !list_fmap_compose.
  apply list_fmap_ext. intros i s _. simpl.
  destruct (contains (GetDependencies s) service1) eqn:H1;
    destruct (contains (GetDependencies s) service2) eqn:H2;
    rewrite ?Hdeps, ?H1, ?H2, ?with_lifecycle_twice; done.
Qed.

End PropagationAlgebra.

(** ** What the lifecycle operations leave behind *)

Section EffectFacts.
Context `{LabelKeys} `{Collaborators} {RT : Type} `{Runtime RT}.
Implicit Types w : World RT.

(** The network loop of [runContainer]: all the calls and a return, or
    the calls up to the one that failed. *)
Lemma connect_loop_shape projectName service id nets : forall w r w',
  for_range nets
    (fun net => connectContainerToNetwork id (ServiceConfig.Name service)
                  (projectName ++ "_" ++ net)%string) w = (r, w') ->
  events w' = events w
  /\ project w' = project w
  /\ ((r = Returns tt
       /\ calls w'
          = calls w
            ++ ((fun net => CallNetworkConnect
                              (projectName ++ "_" ++ net)%string id
                              [ServiceConfig.Name service]) <$> nets))
      \/ (exists e k,
            r = Fails e
            /\ (k < length nets)%nat
            /\ calls w'
               = calls w
                 ++ ((fun net => CallNetworkConnect
                                   (projectName ++ "_" ++ net)%string id
                                   [ServiceConfig.Name service])
                       <$> take (S k) nets))).
Proof.
  induction nets as [|net nets IH]; intros w r w'.
  - simpl. intros [= <- <-]. split; [done|]. split; [done|]. left.
    by rewrite app_nil_r.
  - cbn [for_range]. unfold bind, connectContainerToNetwork at 1.
    rewrite invoke_eq.
    destruct (NetworkConnect _ _ _ _).1 as [[]|e] eqn:Hc.
    + intros (He & Hp & Hcalls)%IH. simpl in *.
      split; [done|]. split; [done|].
      destruct Hcalls as [[Hr Hcalls]|(e & k & Hr & Hk & Hcalls)].
      * left. split; [done|]. rewrite Hcalls. by rewrite <- app_assoc.
      * right. exists e, (S k). split; [done|]. split; [lia|].
        rewrite Hcalls. by rewrite <- app_assoc.
    + intros [= <- <-]. simpl. split; [done|]. split; [done|].
      right. exists e, 0%nat.
      split; [done|]. split; [lia|]. by rewrite take_0.
Qed.

(** How a run of [runContainer] can go. *)
Lemma runContainer_shape service name number container w :
  let r := runContainer service name number container w in
  events r.2 = events w
  /\ project r.2 = project w
  /\ match getContainerCreateOptions (project w) service number container with
     | Err e => r = (Fails e, w)
     | Ok opts =>
         match (create opts name (runtime w)).1 with
         | Err e => r.1 = Fails e /\ calls r.2 = calls w ++ [CallCreate opts name]
         | Ok id =>
             let connects :=
               connect_calls (Project.Name (project w)) service id in
             (exists e k,
                 r.1 = Fails e
                 /\ (k < length connects)%nat
                 /\ calls r.2
                    = calls w ++ CallCreate opts name :: take (S k) connects)
             \/ ((r.1 = Returns tt \/ exists e, r.1 = Fails e)
                 /\ calls r.2
                    = calls w ++ CallCreate opts name
                        :: connects ++ [CallContainerStart id])
         end
     end.
Proof.
  intros r. subst r. unfold runContainer, bind, get_project, lift.
  destruct (getContainerCreateOptions _ _ _ _) as [opts|e]; simpl; [|done].
  rewrite invoke_eq.
  destruct (create opts name (runtime w)).1 as [id|e]; simpl; [|done].
  destruct (for_range _ _ _) as [r1 w2] eqn:Hloop.
  apply connect_loop_shape in Hloop as (He & Hp & Hcalls). simpl in *.
  destruct Hcalls as [[-> Hcalls]|(e & k & -> & Hk & Hcalls)].
  - rewrite invoke_eq. simpl. rewrite He, Hp. split; [done|]. split; [done|].
    right. split.
    + destruct (ContainerStart id (runtime w2)).1 as [[]|e]; eauto.
    + rewrite Hcalls. unfold connect_calls.
      by rewrite <- !app_assoc.
  - split; [done|]. split; [done|]. left. exists e, k.
    split; [done|]. unfold connect_calls. rewrite length_fmap.
    split; [done|]. simpl. rewrite Hcalls, <- fmap_take.
    by rewrite <- app_assoc.
Qed.

(** X7. A successful [runContainer] has made exactly these calls, in
    this order: create with the options of [getContainerCreateOptions]
    and the given name, one network connect per network of the service,
    to the network [project_net] with the service name as the only
    alias, and the start of the container that create returned. *)
Theorem runContainer_success_calls service name number container w w' :
  runContainer service name number container w = (Returns tt, w') ->
  exists opts id rt1,
    getContainerCreateOptions (project w) service number container = Ok opts
    /\ create opts name (runtime w) = (Ok id, rt1)
    /\ calls w'
       = calls w ++ CallCreate opts name
           :: connect_calls (Project.Name (project w)) service id
           ++ [CallContainerStart id]
    /\ events w' = events w
    /\ project w' = project w.
Proof.
  intros Hrun.
  pose proof (runContainer_shape service name number container w)
    as (He & Hp & Hshape).
  rewrite Hrun in He, Hp, Hshape. simpl in *.
  destruct (getContainerCreateOptions _ _ _ _) as [opts|e]; [|done].
  destruct (create opts name (runtime w)) as [[id|e] rt1] eqn:Hcreate;
    simpl in *; [|by destruct Hshape].
  destruct Hshape as [(e & k & ? & _)|(_ & Hcalls)]; [done|].
  by exists opts, id, rt1.
Qed.

(** X8. [runContainer] starts a container only after create and every
    network connect have succeeded: whenever a start call has been made,
    it is the last call, and the create call and all the connects come
    before it. *)
Theorem runContainer_start_is_last service name number container w id :
  let w' := (runContainer service name number container w).2 in
  CallContainerStart id ∈ drop (length (calls w)) (calls w') ->
  exists opts,
    calls w'
    = calls w ++ CallCreate opts name
        :: connect_calls (Project.Name (project w)) service id
        ++ [CallContainerStart id].
Proof.
  intros w'. subst w'.
  pose proof (runContainer_shape service name number container w)
    as (_ & _ & Hshape).
  destruct (getContainerCreateOptions _ _ _ _) as [opts|e].
  - destruct (create opts name (runtime w)).1 as [id'|e].
    + destruct Hshape as [(e & k & _ & _ & Hcalls)|(_ & Hcalls)];
        rewrite Hcalls, drop_app_length; intros Hin.
      * apply elem_of_cons in Hin as [?|Hin]; [done|].
        apply elem_of_take in Hin as (i & Hi & _).
        unfold connect_calls in Hi. rewrite list_lookup_fmap in Hi.
        by destruct (_ !! i).
      * apply elem_of_cons in Hin as [?|Hin]; [done|].
        apply elem_of_app in Hin as [Hin|Hin].
        -- unfold connect_calls in Hin.
           apply list_elem_of_fmap in Hin as (net & ? & _). done.
        -- apply list_elem_of_singleton in Hin as [= ->]. by exists opts.
    + destruct Hshape as [_ Hcalls]. rewrite Hcalls, drop_app_length.
      intros Hin. apply list_elem_of_singleton in Hin. done.
  - rewrite Hshape. simpl. rewrite drop_all. intros Hin.
    by apply elem_of_nil in Hin.
Qed.

End EffectFacts.

(** ** Events and the project *)

Section TaskEffectFacts.
Context `{LabelKeys} `{Collaborators} {RT : Type} `{Runtime RT}.
Implicit Types w : World RT.

Lemma recreate_prepare_frame service container w :
  events (recreate_prepare service container w).2
  = events w ++ [mkEvent (ServiceConfig.Name service) Working "Recreate"]
  /\ project (recreate_prepare service container w).2 = project w.
Proof.
  unfold recreate_prepare, bind, emit, panic. rewrite invoke_eq. simpl.
  destruct (Stop _ _).1 as [[]|e]; [|done].
  destruct (string_prefix _ _) as [prefix|]; [|done].
  rewrite invoke_eq. simpl.
  destruct (ContainerRename _ _ _).1 as [[]|e]; [|done].
  by destruct (Atoi _).
Qed.

Lemma recreate_prepare_Returns_calls service container w number w1 :
  recreate_prepare service container w = (Returns number, w1) ->
  calls w1 = calls w ++ [CallStop (ID container);
                         CallContainerRename (ID container)
                                             (tmpName container)]
  /\ Atoi (label container containerNumberLabel) = Ok number.
Proof.
  unfold recreate_prepare, bind, emit, panic. rewrite invoke_eq. simpl.
  destruct (Stop _ _).1 as [[]|e]; [|done].
  destruct (string_prefix _ _) as [prefix|] eqn:Hp; [|done].
  apply string_prefix_inv in Hp as [_ ->]. fold (tmpName container).
  rewrite invoke_eq. simpl.
  destruct (ContainerRename _ _ _).1 as [[]|e]; [|done].
  destruct (Atoi _) as [n|e]; [|done]. simpl.
  intros [= <- <-]. simpl. by rewrite <- app_assoc.
Qed.

Lemma recreate_finish_effects service container w :
  let r := recreate_finish service container w in
  calls r.2 = calls w ++ [CallDelete (ID container)]
  /\ match (Delete (ID container) (runtime w)).1 with
     | Ok _ =>
         r.1 = Returns tt
         /\ events r.2
            = events w
              ++ [mkEvent (ServiceConfig.Name service) Done "Recreated"]
         /\ project r.2
            = setDependentLifecycle (project w) (ServiceConfig.Name service)
                                    forceRecreate
     | Err e => r.1 = Fails e /\ events r.2 = events w /\ project r.2 = project w
     end.
Proof.
  unfold recreate_finish, bind, emit, get_project, set_project.
  rewrite invoke_eq. simpl. by destruct (Delete _ _).1 as [[]|e].
Qed.

(** X9. Every create, recreate and restart emits its start event first
    and its done event last, and the done event only when the operation
    returned without an error; the stop-and-delete of the scale-down
    emits nothing.  No other event is emitted. *)
Theorem run_task_events t w :
  events (run_task t w).2
  = events w ++ started_events t
      ++ match (run_task t w).1 with
         | Returns _ => done_events t
         | _ => []
         end.
Proof.
  destruct t as [service name number|container|service container
                 |service container]; simpl.
  - unfold createContainer, bind, emit.
    match goal with
    | |- context [runContainer ?s ?n ?k ?c ?w0] =>
        pose proof (runContainer_shape s n k c w0) as (He & _);
        destruct (runContainer s n k c w0) as [[[]|e| |] w1]
    end; simpl in *; rewrite He; by rewrite <- ?app_assoc, ?app_nil_r.
  - unfold stopAndDelete, bind. rewrite invoke_eq.
    destruct (Stop _ _).1 as [[]|e]; simpl.
    + rewrite invoke_eq. destruct (Delete _ _).1 as [[]|e]; simpl;
        by rewrite app_nil_r.
    + by rewrite app_nil_r.
  - rewrite recreateContainer_phases. unfold bind.
    pose proof (recreate_prepare_frame service container w) as [He1 _].
    destruct (recreate_prepare service container w) as [[number|e| |] w1];
      simpl in *; try (by rewrite He1).
    pose proof (runContainer_shape service (getContainerName container)
                  number (Some container) w1) as (He2 & _).
    destruct (runContainer _ _ _ _ w1) as [[[]|e| |] w2];
      simpl in *; try (by rewrite He2, He1).
    pose proof (recreate_finish_effects service container w2) as [_ Hf].
    destruct (Delete _ _).1 as [[]|e];
      destruct (recreate_finish service container w2) as [r3 w3];
      simpl in *.
    + destruct Hf as (-> & -> & _). by rewrite He2, He1, <- app_assoc.
    + destruct Hf as (-> & -> & _). by rewrite He2, He1.
  - unfold restartContainer, bind, emit. rewrite invoke_eq. simpl.
    destruct (Start _ _).1 as [[]|e]; simpl; by rewrite <- ?app_assoc.
Qed.

(** X10. Only a recreate that has succeeded touches the project: it
    leaves it as [setDependentLifecycle] with the force-recreate strategy
    does.  A recreate that fails or panics, and every other task, leaves
    the project as it was. *)
Theorem run_task_project t w :
  project (run_task t w).2
  = match t, (run_task t w).1 with
    | TaskRecreate service _, Returns _ =>
        setDependentLifecycle (project w) (ServiceConfig.Name service)
                              forceRecreate
    | _, _ => project w
    end.
Proof.
  destruct t as [service name number|container|service container
                 |service container]; simpl.
  - unfold createContainer, bind, emit.
    match goal with
    | |- context [runContainer ?s ?n ?k ?c ?w0] =>
        pose proof (runContainer_shape s n k c w0) as (_ & Hp & _);
        destruct (runContainer s n k c w0) as [[[]|e| |] w1]
    end; simpl in *; by rewrite Hp.
  - unfold stopAndDelete, bind. rewrite invoke_eq.
    destruct (Stop _ _).1 as [[]|e]; simpl; [|done].
    rewrite invoke_eq. by destruct (Delete _ _).1 as [[]|e].
  - rewrite recreateContainer_phases. unfold bind.
    pose proof (recreate_prepare_frame service container w) as [_ Hp1].
    destruct (recreate_prepare service container w) as [[number|e| |] w1];
      simpl in *; try done.
    pose proof (runContainer_shape service (getContainerName container)
                  number (Some container) w1) as (_ & Hp2 & _).
    destruct (runContainer _ _ _ _ w1) as [[[]|e| |] w2];
      simpl in *; try (by rewrite Hp2, Hp1).
    pose proof (recreate_finish_effects service container w2) as [_ Hf].
    destruct (Delete _ _).1 as [[]|e];
      destruct (recreate_finish service container w2) as [r3 w3];
      simpl in *.
    + destruct Hf as (-> & _ & ->). by rewrite Hp2, Hp1.
    + destruct Hf as (-> & _ & ->). by rewrite Hp2, Hp1.
  - unfold restartContainer, bind, emit. rewrite invoke_eq. simpl.
    by destruct (Start _ _).1 as [[]|e].
Qed.

(** X11. A recreate that succeeds has made exactly these calls: stop and
    rename of the old container, then the calls of the create step with
    the old container's name, the number parsed from its label and the
    old container itself handed to [getContainerCreateOptions], then the
    delete of the old container. *)
Theorem recreateContainer_success_calls service container w w' :
  recreateContainer service container w = (Returns tt, w') ->
  exists number opts id,
    Atoi (label container containerNumberLabel) = Ok number
    /\ getContainerCreateOptions (project w) service number (Some container)
       = Ok opts
    /\ calls w'
       = calls w
         ++ [CallStop (ID container);
             CallContainerRename (ID container) (tmpName container)]
         ++ CallCreate opts (getContainerName container)
              :: connect_calls (Project.Name (project w)) service id
         ++ [CallContainerStart id; CallDelete (ID container)].
Proof.
  rewrite recreateContainer_phases. unfold bind.
  pose proof (recreate_prepare_frame service container w) as [_ Hp1].
  destruct (recreate_prepare service container w) as [[number|e| |] w1]
    eqn:Hprepare; try done.
  apply recreate_prepare_Returns_calls in Hprepare as [E1 Hnumber].
  pose proof (runContainer_shape service (getContainerName container)
                number (Some container) w1) as (_ & _ & Hshape).
  simpl in Hp1. rewrite Hp1 in Hshape.
  destruct (runContainer _ _ _ _ w1) as [[[]|e| |] w2]; try done.
  intros Hfinish.
  pose proof (recreate_finish_effects service container w2) as [E3 _].
  rewrite Hfinish in E3. simpl in *.
  destruct (getContainerCreateOptions _ _ _ _) as [opts|e] eqn:Hopts;
    [|done].
  destruct (create opts _ (runtime w1)).1 as [id|e]; [|by destruct Hshape].
  destruct Hshape as [(e & k & ? & _)|(_ & E2)]; [done|].
  exists number, opts, id. split; [done|]. split; [done|].
  rewrite E3, E2, E1. rewrite <- !app_assoc. simpl.
  by rewrite <- !app_assoc.
Qed.

(** X12. The instance-number label is parsed only after the stop and the
    rename: a recreate of a container whose label does not parse, on a
    runtime that stops and renames it, returns the parse error having
    made these two calls and no other, so the container is left stopped
    under its temporary name and nothing replaces it. *)
Theorem recreateContainer_label_error service container w e :
  (12 <= String.length (ID container))%nat ->
  (Stop (ID container) (runtime w)).1 = Ok tt ->
  (ContainerRename (ID container) (tmpName container)
                   (Stop (ID container) (runtime w)).2).1 = Ok tt ->
  Atoi (label container containerNumberLabel) = Err e ->
  (recreateContainer service container w).1 = Fails e
  /\ calls (recreateContainer service container w).2
     = calls w ++ [CallStop (ID container);
                   CallContainerRename (ID container) (tmpName container)]
  /\ project (recreateContainer service container w).2 = project w.
Proof.
  intros Hlen Hstop Hrename Hlabel.
  unfold recreateContainer, bind, emit. rewrite invoke_eq. simpl.
  rewrite Hstop, (string_prefix_Some _ _ Hlen). fold (tmpName container).
  rewrite invoke_eq. simpl. rewrite Hrename, Hlabel. simpl.
  by rewrite <- app_assoc.
Qed.

End TaskEffectFacts.

(** ** The gate, once more *)

Section GateFacts.
Context `{LabelKeys} `{Collaborators} {RT : Type} `{Runtime RT}.
Implicit Types w : World RT.

#[global] Instance same_project_preorder : PreOrder (same_project (RT:=RT)).
Proof.
  split; [done|]. unfold same_project. intros w1 w2 w3 E1 E2. congruence.
Qed.

#[global] Instance same_events_preorder : PreOrder (same_events (RT:=RT)).
Proof.
  split; [done|]. unfold same_events. intros w1 w2 w3 E1 E2. congruence.
Qed.

(** The gate respects every relation that runtime calls and the group's
    error do not disturb. *)
Lemma gate_respects (R : relation (World RT)) `{!PreOrder R} :
  (forall A c (op : RT -> result A * RT), allows R c op) ->
  (forall w err,
      R w (mkWorld (runtime w) (calls w) (events w) (project w)
                   (dispatched w) err)) ->
  forall fuel dep (deps : list (string * ServiceDependency)),
    respects R
      (bind (for_range deps
               (fun '(_, config) =>
                  if String.eqb (Condition config) "service_healthy"
                  then go (poll fuel dep)
                  else ret tt))
            (fun _ => eg_Wait)).
Proof.
  intros Hcall Hgroup fuel polled deps.
  assert (forall A c (op : RT -> result A * RT), respects R (invoke c op))
    as Hinvoke.
  { intros A c op w. rewrite invoke_world. apply Hcall. }
  assert (forall service containers,
            respects R (isServiceHealthy_range service containers)) as Hrange.
  { intros service containers.
    induction containers as [|c containers IH]; simpl.
    - by apply respects_ret.
    - apply respects_bind; [done|apply Hinvoke|].
      intros j. destruct (Inspect.State j) as [state|];
        [|by apply respects_fail].
      destruct (Inspect.Health_ state) as [health|];
        [|by apply respects_fail].
      repeat (destruct (String.eqb _ _); [by apply respects_ret|]).
      exact IH. }
  assert (forall dep, respects R (poll fuel dep)) as Hpoll.
  { intros dep. induction fuel as [|fuel IH]; simpl.
    - by apply respects_polling.
    - apply respects_bind; [done| |].
      + unfold isServiceHealthy.
        apply respects_bind; [done|intros w; reflexivity|].
        intros p. apply respects_bind; [done|apply Hinvoke|].
        intros containers. apply Hrange.
      + intros [|]; [by apply respects_ret|exact IH]. }
  apply respects_bind; [done| |].
  - apply respects_for_range; [done|]. intros [visited config].
    destruct (String.eqb _ _); [|by apply respects_ret].
    intros w. specialize (Hpoll polled w). unfold go.
    destruct (poll fuel polled w) as [[[]|e| |] w1]; simpl in *; try done.
    etrans; [done|]. apply Hgroup.
  - intros _ w. unfold eg_Wait. destruct (group_err w); reflexivity.
Qed.

Lemma waitDependencies_quiet fuel service w :
  let w' := (waitDependencies fuel service w).2 in
  calls_grow reads_only w w'
  /\ project w' = project w
  /\ events w' = events w
  /\ dispatched w' = [].
Proof.
  intros w'. subst w'. split; [apply waitDependencies_reads_only|].
  split; [|split].
  - exact (gate_respects same_project ltac:(done) ltac:(done) fuel
             (last_visited (ServiceConfig.DependsOn service))
             (ServiceConfig.DependsOn service) (errgroup_WithContext w).2).
  - exact (gate_respects same_events ltac:(done) ltac:(done) fuel
             (last_visited (ServiceConfig.DependsOn service))
             (ServiceConfig.DependsOn service) (errgroup_WithContext w).2).
  - exact (gate_respects same_dispatched ltac:(done) ltac:(done) fuel
             (last_visited (ServiceConfig.DependsOn service))
             (ServiceConfig.DependsOn service) (errgroup_WithContext w).2).
Qed.

(** X13. The gate never changes anything: whatever the dependencies
    report and however the wait ends, the runtime has only been asked to
    list and to inspect, the project and the progress events are as
    before and nothing has been handed to a group. *)
Theorem waitDependencies_only_reads fuel service w :
  let w' := (waitDependencies fuel service w).2 in
  (exists tr, calls w' = calls w ++ tr
              /\ Forall (fun c => is_mutation c = false) tr)
  /\ project w' = project w
  /\ events w' = events w
  /\ dispatched w' = [].
Proof. apply waitDependencies_quiet. Qed.

Lemma for_range_skip {A} (xs : list A) (body : A -> M RT unit) w :
  (forall x, x ∈ xs -> forall w0, body x w0 = (Returns tt, w0)) ->
  for_range xs body w = (Returns tt, w).
Proof.
  induction xs as [|x xs IH]; intros Hbody; simpl; [done|].
  unfold bind. rewrite (Hbody x) by by left.
  apply IH. intros x' Hin. apply Hbody. by right.
Qed.

(** X14. Only the condition [service_healthy] makes [ensureService]
    wait: when no dependency of the service carries it,
    [waitDependencies] returns at once, with any fuel, without a call to
    the runtime. *)
Theorem waitDependencies_other_conditions fuel service w :
  (forall dep config,
      (dep, config) ∈ ServiceConfig.DependsOn service ->
      Condition config <> "service_healthy") ->
  (waitDependencies fuel service w).1 = Returns tt
  /\ calls (waitDependencies fuel service w).2 = calls w
  /\ runtime (waitDependencies fuel service w).2 = runtime w.
Proof.
  intros Hdeps. unfold waitDependencies, bind, errgroup_WithContext.
  rewrite for_range_skip; [done|].
  intros [dep config] Hin w0.
  destruct (String.eqb_spec (Condition config) "service_healthy") as [Hc|_];
    [|done].
  by apply Hdeps in Hin.
Qed.

(** X15. [ensureService] gives up before it changes anything when the
    gate or the listing fails: it returns the gate's error, or the error
    of the list call, and up to then the runtime has only been asked to
    list and to inspect and nothing has been handed to the group. *)
Theorem ensureService_fails_early fuel service w :
  (forall e w1,
      waitDependencies fuel service w = (Fails e, w1) ->
      ensureService fuel service w = (Fails e, w1)
      /\ dispatched w1 = []
      /\ calls_grow reads_only w w1)
  /\ (forall w1 e rt2,
        waitDependencies fuel service w = (Returns tt, w1) ->
        ContainerList (list_filters (Project.Name (project w1))
                                    (ServiceConfig.Name service)) (runtime w1)
        = (Err e, rt2) ->
        (ensureService fuel service w).1 = Fails e
        /\ dispatched (ensureService fuel service w).2 = []
        /\ calls_grow reads_only w (ensureService fuel service w).2).
Proof.
  pose proof (waitDependencies_quiet fuel service w) as (Hcalls & _ & _ & Hd).
  split.
  - intros e w1 Hwait. rewrite Hwait in Hcalls, Hd.
    unfold ensureService. by rewrite (bind_Fails _ _ _ _ _ Hwait).
  - intros w1 e rt2 Hwait Hlist. rewrite Hwait in Hcalls, Hd. simpl in *.
    unfold ensureService. rewrite (bind_Returns _ _ _ _ _ Hwait).
    unfold bind, get_project. rewrite invoke_eq, Hlist. simpl.
    split; [done|]. split; [done|].
    destruct Hcalls as (tr & -> & Htr).
    exists (tr ++ [CallContainerList
                     (list_filters (Project.Name (project w1))
                                   (ServiceConfig.Name service))]).
    rewrite <- app_assoc. split; [done|].
    apply Forall_app. split; [done|]. by constructor.
Qed.

#[global] Instance polls_preorder dep : PreOrder (polls (RT:=RT) dep).
Proof.
  split.
  - intros w. split; reflexivity.
  - intros w1 w2 w3 [E1 H1'] [E2 H2']. split; [congruence|].
    rewrite E1 in H2'. by etrans.
Qed.

Lemma polls_same_calls dep w w' :
  project w' = project w -> calls w' = calls w -> polls dep w w'.
Proof.
  intros Ep Ec. split; [done|]. exists []. by rewrite app_nil_r.
Qed.

Lemma isServiceHealthy_range_polls dep service containers :
  respects (polls dep) (isServiceHealthy_range service containers).
Proof.
  induction containers as [|c containers IH]; simpl.
  - apply respects_ret. apply _.
  - apply respects_bind; [apply _| |].
    + intros w. rewrite invoke_world. split; [done|].
      exists [CallContainerInspect (ID c)]. split; [done|].
      constructor; [|done]. right. by eexists.
    + intros j. destruct (Inspect.State j) as [state|];
        [|apply respects_fail; apply _].
      destruct (Inspect.Health_ state) as [health|];
        [|apply respects_fail; apply _].
      repeat (destruct (String.eqb _ _); [apply respects_ret; apply _|]).
      exact IH.
Qed.

(** A poll begins with its list call. *)
Lemma isServiceHealthy_polls dep w :
  polls dep w (isServiceHealthy dep w).2
  /\ exists tr, calls (isServiceHealthy dep w).2
                = calls w ++ poll_list_call (project w) dep :: tr.
Proof.
  unfold isServiceHealthy, bind, get_project. rewrite invoke_eq.
  set (w1 := mkWorld _ _ _ _ _ _).
  assert (polls dep w w1) as Hlist.
  { split; [done|]. exists [poll_list_call (project w) dep].
    split; [done|]. constructor; [by left|done]. }
  destruct (ContainerList _ _).1 as [containers|e]; simpl.
  - pose proof (isServiceHealthy_range_polls dep dep containers w1)
      as Hrange.
    split; [by etrans|].
    destruct Hrange as (_ & tr & -> & _). exists tr. subst w1. simpl.
    by rewrite <- app_assoc.
  - split; [done|]. by exists [].
Qed.

Lemma poll_polls fuel dep : respects (polls dep) (poll fuel dep).
Proof.
  induction fuel as [|fuel IH]; simpl.
  - apply respects_polling. apply _.
  - apply respects_bind; [apply _|intros w; apply isServiceHealthy_polls|].
    intros [|]; [apply respects_ret; apply _|exact IH].
Qed.

Lemma poll_first_call fuel dep w :
  exists tr, calls (poll (S fuel) dep w).2
             = calls w ++ poll_list_call (project w) dep :: tr.
Proof.
  simpl. unfold bind.
  destruct (isServiceHealthy_polls dep w) as [_ (tr & Etr)].
  destruct (isServiceHealthy dep w) as [[[|]|e| |] w1]; simpl in *;
    try by exists tr.
  destruct (poll_polls fuel dep w1) as (_ & tr' & -> & _).
  exists (tr ++ tr'). rewrite Etr. by rewrite <- app_assoc.
Qed.

Lemma go_poll_polls fuel dep : respects (polls dep) (go (poll fuel dep)).
Proof.
  intros w. pose proof (poll_polls fuel dep w) as Hpoll. unfold go.
  by destruct (poll fuel dep w) as [[[]|e| |] w1].
Qed.

Lemma gate_loop_polls fuel dep (deps : list (string * ServiceDependency)) :
  respects (polls dep)
    (for_range deps
       (fun '(_, config) =>
          if String.eqb (Condition config) "service_healthy"
          then go (poll fuel dep)
          else ret tt)).
Proof.
  apply respects_for_range; [apply _|]. intros [visited config].
  destruct (String.eqb _ _); [apply go_poll_polls|apply respects_ret; apply _].
Qed.

Lemma gate_loop_first_call fuel dep
    (deps : list (string * ServiceDependency)) :
  (exists visited config,
      (visited, config) ∈ deps /\ Condition config = "service_healthy") ->
  forall w, exists tr,
    calls (for_range deps
             (fun '(_, config) =>
                if String.eqb (Condition config) "service_healthy"
                then go (poll (S fuel) dep)
                else ret tt) w).2
    = calls w ++ poll_list_call (project w) dep :: tr.
Proof.
  pose proof (poll_first_call fuel dep) as Hfirst.
  remember (S fuel) as n eqn:Hn. clear Hn.
  induction deps as [|[visited config] deps IH]; intros Hgated w.
  { destruct Hgated as (? & ? & Hin & _). by apply elem_of_nil in Hin. }
  simpl. unfold bind.
  destruct (String.eqb_spec (Condition config) "service_healthy") as [Hc|Hc].
  - destruct (Hfirst w) as (tr & Etr).
    rewrite <- go_calls in Etr.
    destruct (go (poll n dep) w) as [[[]|e| |] w1]; simpl in *;
      try by exists tr.
    destruct (gate_loop_polls n dep deps w1) as (_ & tr' & -> & _).
    exists (tr ++ tr'). rewrite Etr. by rewrite <- app_assoc.
  - simpl. apply IH.
    destruct Hgated as (visited' & config' & Hin & Hcond).
    apply elem_of_cons in Hin as [[= -> ->]|Hin]; [done|].
    by exists visited', config'.
Qed.

Lemma bind_eg_Wait_calls (m : M RT unit) w :
  calls (bind m (fun _ => eg_Wait) w).2 = calls (m w).2.
Proof.
  unfold bind. destruct (m w) as [[[]|e| |] w1]; simpl; try done.
  unfold eg_Wait. by destruct (group_err w1).
Qed.

(** X23. All the goroutines of the gate poll one dependency, the key of
    [DependsOn] that the range loop visited last: the loop variable is
    shared and is read after the first tick.  Whatever the conditions of
    the other dependencies, the only list call of [waitDependencies] is
    the one for the containers of that key, and it is made as soon as one
    dependency, this one or another, carries [service_healthy]. *)
Theorem waitDependencies_polls_last_visited fuel service w :
  let dep := last_visited (ServiceConfig.DependsOn service) in
  let w' := (waitDependencies fuel service w).2 in
  (exists tr, calls w' = calls w ++ tr
              /\ Forall (poll_call (project w) dep) tr)
  /\ ((0 < fuel)%nat ->
      (exists visited config,
          (visited, config) ∈ ServiceConfig.DependsOn service
          /\ Condition config = "service_healthy") ->
      exists tr, calls w' = calls w ++ poll_list_call (project w) dep :: tr).
Proof.
  intros dep w'. subst w'.
  assert (calls (waitDependencies fuel service w).2
          = calls (for_range (ServiceConfig.DependsOn service)
                     (fun '(_, config) =>
                        if String.eqb (Condition config) "service_healthy"
                        then go (poll fuel dep)
                        else ret tt) (errgroup_WithContext w).2).2) as ->.
  { unfold waitDependencies, bind at 1. unfold errgroup_WithContext at 1.
    by rewrite bind_eg_Wait_calls. }
  split.
  - by destruct (gate_loop_polls fuel dep (ServiceConfig.DependsOn service)
                   (errgroup_WithContext w).2) as (_ & tr & Etr & Htr);
      exists tr.
  - intros Hfuel Hgated. destruct fuel as [|fuel]; [lia|].
    apply (gate_loop_first_call fuel dep _ Hgated (errgroup_WithContext w).2).
Qed.

Lemma isServiceHealthy_range_skip_calls service before :
  forall rest w js rt2,
    inspected (runtime w) before js rt2 -> Forall passes js ->
    exists w2,
      runtime w2 = rt2
      /\ calls w2 = calls w ++ (CallContainerInspect ∘ ID <$> before)
      /\ isServiceHealthy_range service (before ++ rest) w
         = isServiceHealthy_range service rest w2.
Proof.
  induction before as [|c before IH]; intros rest w js rt2 Hins Hpass.
  - inversion Hins; subst. exists w. by rewrite app_nil_r.
  - inversion Hins as [|? ? j rt1 ? js' ? Hc Hrest]; subst.
    apply Forall_cons in Hpass as [Hj Hpass].
    apply passes_status in Hj as (state & health & Hst & Hh & Hs1 & Hs2).
    simpl. unfold bind at 1. rewrite invoke_eq, Hc. simpl.
    rewrite Hst, Hh, Hs1, Hs2.
    match goal with
    | |- context [isServiceHealthy_range service (before ++ rest) ?w1] =>
        destruct (IH rest w1 js' rt2 Hrest Hpass) as (w2 & Hrt & Hcalls & Heq)
    end.
    exists w2. split; [done|]. split; [|done].
    rewrite Hcalls. simpl. by rewrite <- app_assoc.
Qed.

(** X16. [isServiceHealthy] stops at the first container that does not
    pass or cannot be inspected: it has then made the list call and one
    inspect call for each container up to that one, in listing order,
    and none for the containers listed after it; an error of the
    inspect call is returned as it is. *)
Theorem isServiceHealthy_stops_inspecting
    service w before c after js rt1 rt2 r rt3 :
  let filters := list_filters (Project.Name (project w)) service in
  ContainerList filters (runtime w) = (Ok (before ++ c :: after), rt1) ->
  inspected rt1 before js rt2 ->
  Forall passes js ->
  ContainerInspect (ID c) rt2 = (r, rt3) ->
  (forall j, r = Ok j -> ~ passes j) ->
  calls (isServiceHealthy service w).2
  = calls w ++ CallContainerList filters
      :: (CallContainerInspect ∘ ID <$> before ++ [c])
  /\ runtime (isServiceHealthy service w).2 = rt3
  /\ (forall e, r = Err e -> (isServiceHealthy service w).1 = Fails e).
Proof.
  intros filters Hlist Hins Hpass Hc Hno.
  rewrite (isServiceHealthy_listed _ _ _ _ Hlist).
  set (w1 := mkWorld rt1 _ _ _ _ _).
  destruct (isServiceHealthy_range_skip_calls service before (c :: after)
              w1 js rt2 Hins Hpass) as (w2 & Hrt & Hcalls & ->).
  simpl. unfold bind. rewrite invoke_eq, Hrt, Hc. simpl.
  assert (calls w2 ++ [CallContainerInspect (ID c)]
          = calls w ++ CallContainerList filters
              :: (CallContainerInspect ∘ ID <$> before ++ [c])) as Hall.
  { rewrite Hcalls. subst w1. simpl. rewrite fmap_app.
    by rewrite <- !app_assoc. }
  destruct r as [j|e]; simpl.
  - specialize (Hno j eq_refl).
    destruct (Inspect.State j) as [state|] eqn:Hst; simpl; [|done].
    destruct (Inspect.Health_ state) as [health|] eqn:Hh; simpl; [|done].
    destruct (String.eqb_spec (Inspect.Status health) "starting") as [?|Hs1];
      simpl; [done|].
    destruct (String.eqb_spec (Inspect.Status health) "unhealthy") as [?|Hs2];
      simpl; [done|].
    destruct Hno. exists (Inspect.Status health). unfold health_status.
    by rewrite Hst, Hh.
  - split; [done|]. split; [done|]. by intros ? [= ->].
Qed.

End GateFacts.

(** ** The reconciler, once more *)

Section ReconcileFacts.
Context `{LabelKeys} `{Collaborators} {RT : Type} `{Runtime RT}.
Implicit Types w : World RT.

#[global] Instance dispatched_grow_preorder P :
  PreOrder (dispatched_grow (RT:=RT) P).
Proof.
  split.
  - intros w. exists []. by rewrite app_nil_r.
  - intros w1 w2 w3 (ts1 & E1 & H1') (ts2 & E2 & H2').
    exists (ts1 ++ ts2). rewrite E2, E1, app_assoc. split; [done|].
    by apply Forall_app.
Qed.

#[global] Instance dispatched_grow_frame P : Frame (dispatched_grow (RT:=RT) P).
Proof.
  split; [apply _|..]; intros; exists []; simpl; by rewrite app_nil_r.
Qed.

Lemma eg_Go_grow (P : Task -> Prop) t :
  P t -> respects (dispatched_grow P) (eg_Go t).
Proof.
  intros Ht w. destruct (eg_Go_inv t w) as [(w' & -> & Hd)|Hp].
  - exists [t]. split; [done|]. by constructor.
  - revert Hp. unfold eg_Go, bind, record_task, go.
    match goal with
    | |- context [run_task t ?w0] =>
        pose proof (run_task_same_dispatched t w0) as Hd;
        destruct (run_task t w0) as [[[]|e| |] w1]
    end; simpl in *; try done.
    intros _. exists [t]. unfold same_dispatched in Hd. simpl in Hd.
    split; [done|]. by constructor.
Qed.

Lemma scaleUp_grow (P : Task -> Prop) service actual scale :
  (len actual < scale -> forall t, is_create_task t = true -> P t) ->
  respects (dispatched_grow P) (scaleUp service actual scale).
Proof.
  intros HP. unfold scaleUp. destruct (Z.ltb_spec (len actual) scale).
  - apply respects_bind; [apply _|apply respects_lift; apply _|].
    intros next.
    apply respects_bind; [apply _|apply respects_get_project; apply _|].
    intros p. apply respects_for_range; [apply _|]. intros i.
    by apply eg_Go_grow, HP.
  - apply respects_ret. apply _.
Qed.

Lemma scaleDown_grow (P : Task -> Prop) actual scale :
  (scale < len actual -> forall t, is_stop_delete_task t = true -> P t) ->
  respects (dispatched_grow P) (scaleDown actual scale).
Proof.
  intros HP. unfold scaleDown. destruct (Z.gtb_spec (len actual) scale).
  - apply respects_bind; [apply _| |].
    + apply respects_for_range; [apply _|]. intros i.
      destruct (index actual i); [|apply respects_panic; apply _].
      apply eg_Go_grow, HP; [lia|done].
    + intros _. destruct (slice_to actual scale);
        [apply respects_ret|apply respects_panic]; apply _.
  - apply respects_ret. apply _.
Qed.

Lemma driftPass_grow (P : Task -> Prop) service expected actual :
  (forall t, is_create_task t = false -> is_stop_delete_task t = false -> P t) ->
  respects (dispatched_grow P) (driftPass service expected actual).
Proof.
  intros HP. unfold driftPass. apply respects_for_range; [apply _|].
  intros c. simpl. destruct (_ || _); [by apply eg_Go_grow, HP|].
  destruct (String.eqb _ _); [apply respects_ret; apply _|].
  by apply eg_Go_grow, HP.
Qed.

Lemma reconcile_grow (P : Task -> Prop) service actual w :
  (len actual < getScale service ->
   forall t, is_create_task t = true -> P t) ->
  (getScale service < len actual ->
   forall t, is_stop_delete_task t = true -> P t) ->
  (forall t, is_create_task t = false -> is_stop_delete_task t = false -> P t) ->
  Forall P (dispatched (reconcile service actual w).2).
Proof.
  intros Hup Hdown Hdrift.
  assert (respects (dispatched_grow P)
            (bind (scaleUp service actual (getScale service))
               (fun _ =>
                  bind (scaleDown actual (getScale service))
                    (fun actual' =>
                       bind (lift (jsonHash service))
                         (fun expected =>
                            bind (driftPass service expected actual')
                                 (fun _ => eg_Wait)))))) as Hrest.
  { apply respects_bind; [apply _|by apply scaleUp_grow|intros _].
    apply respects_bind; [apply _|by apply scaleDown_grow|intros actual'].
    apply respects_bind; [apply _|apply respects_lift; apply _|].
    intros expected.
    apply respects_bind; [apply _|by apply driftPass_grow|].
    intros _. apply respects_eg_Wait. apply _. }
  destruct (Hrest (errgroup_WithContext w).2) as (ts & Hts & HP).
  assert (dispatched (reconcile service actual w).2 = ts) as ->; [|done].
  exact Hts.
Qed.

(** X17. One pass of the reconciler never scales a service both ways,
    however it ends: with at least as many containers as the scale no
    create is handed to the group, and with at most as many no
    stop-and-delete is. *)
Theorem reconcile_one_direction service actual w :
  let w' := (reconcile service actual w).2 in
  (getScale service <= len actual ->
   Forall (fun t => is_create_task t = false) (dispatched w'))
  /\ (len actual <= getScale service ->
      Forall (fun t => is_stop_delete_task t = false) (dispatched w')).
Proof.
  intros w'. subst w'. split; intros Hlen.
  - apply reconcile_grow; [lia| |done].
    intros _ t Ht. by destruct t.
  - apply reconcile_grow; [|lia|done].
    intros _ t Ht. by destruct t.
Qed.

Lemma reconcile_unfold service actual w :
  reconcile service actual w
  = bind (scaleUp service actual (getScale service))
      (fun _ =>
         bind (scaleDown actual (getScale service))
           (fun actual' =>
              bind (lift (jsonHash service))
                (fun expected =>
                   bind (driftPass service expected actual')
                        (fun _ => eg_Wait))))
      (errgroup_WithContext w).2.
Proof. done. Qed.

Lemma scaleUp_dispatched service actual scale next w :
  len actual < scale ->
  nextContainerNumber actual = Ok next ->
  exists w',
    scaleUp service actual scale w = (Returns tt, w')
    /\ dispatched w'
       = dispatched w
         ++ ((fun i => TaskCreate service
                         (Project.Name (project w) ++ "_"
                          ++ ServiceConfig.Name service ++ "_"
                          ++ pretty (wrap (next + i)))%string
                         (wrap (next + i)))
               <$> seqZ 0 (scale - len actual)).
Proof.
  intros Hlen Hnext. unfold scaleUp.
  destruct (Z.ltb_spec (len actual) scale); [|lia].
  rewrite Hnext. unfold lift, ret, bind, get_project. simpl.
  destruct (for_range_dispatch_total
              (seqZ 0 (scale - len actual))
              (fun i => Some (TaskCreate service
                                (Project.Name (project w) ++ "_"
                                 ++ ServiceConfig.Name service ++ "_"
                                 ++ pretty (wrap (next + i)))%string
                                (wrap (next + i))))
              (fun i => eg_Go (TaskCreate service
                                 (Project.Name (project w) ++ "_"
                                  ++ ServiceConfig.Name service ++ "_"
                                  ++ pretty (wrap (next + i)))%string
                                 (wrap (next + i))))) with (w := w)
    as (w' & Hrun & Hd).
  - done.
  - intros i t _ [= <-]. by apply run_task_settles.
  - exists w'. by rewrite omap_Some_fmap in Hd.
Qed.

Lemma scaleDown_returns actual scale w :
  0 <= scale -> scale < len actual ->
  exists w',
    scaleDown actual scale w = (Returns (take (Z.to_nat scale) actual), w')
    /\ dispatched w'
       = dispatched w ++ (TaskStopDelete <$> drop (Z.to_nat scale) actual).
Proof.
  intros Hscale Hlen. unfold scaleDown.
  destruct (Z.gtb_spec (len actual) scale); [|lia].
  assert (forall w0,
            for_range (seqZ scale (len actual - scale))
              (fun i => match index actual i with
                        | None => panic
                        | Some container => eg_Go (TaskStopDelete container)
                        end) w0
            = for_range (drop (Z.to_nat scale) actual)
                        (fun c => eg_Go (TaskStopDelete c)) w0) as Hloop.
  { intros w0. unfold len in *.
    rewrite <- (Z2Nat.id scale) at 1 2 by done.
    rewrite <- Nat2Z.inj_sub by lia.
    apply scaleDown_loop_tail. lia. }
  destruct (for_range_dispatch_total (drop (Z.to_nat scale) actual)
              (fun c => Some (TaskStopDelete c))
              (fun c => eg_Go (TaskStopDelete c))) with (w := w)
    as (w' & Hrun & Hd).
  - done.
  - intros c t _ [= <-]. by apply run_task_settles.
  - exists w'. unfold bind. rewrite Hloop, Hrun.
    unfold slice_to, len in *.
    destruct (Z.ltb_spec scale 0); [lia|].
    destruct (Z.ltb_spec (Z.of_nat (length actual)) scale); [lia|].
    simpl. by rewrite omap_Some_fmap in Hd.
Qed.

(** X18. The fingerprint is computed after the scaling: when [jsonHash]
    fails, for a scale that is not negative and a listing whose labels
    parse if containers are missing, the pass returns the hash error
    without waiting for the group, yet one create per missing container,
    or one stop-and-delete per excess container, has already been handed
    over; no recreate and no restart has. *)
Theorem reconcile_hash_error service actual w e :
  jsonHash service = Err e ->
  0 <= getScale service ->
  (len actual < getScale service ->
   exists next, nextContainerNumber actual = Ok next) ->
  let w' := (reconcile service actual w).2 in
  (reconcile service actual w).1 = Fails e
  /\ Forall (fun t => is_create_task t || is_stop_delete_task t = true)
            (dispatched w')
  /\ length (dispatched w') = Z.abs_nat (getScale service - len actual).
Proof.
  intros Hhash Hscale Hnext w'. subst w'. rewrite reconcile_unfold.
  set (w0 := (errgroup_WithContext w).2).
  assert (dispatched w0 = []) as Hd0 by done.
  destruct (Z.lt_trichotomy (len actual) (getScale service))
    as [Hlt|[Heq|Hgt]].
  - destruct (Hnext Hlt) as [next Hn].
    destruct (scaleUp_dispatched service actual _ next w0 Hlt Hn)
      as (w1 & Hrun & Hd).
    rewrite (bind_Returns _ _ _ _ _ Hrun). unfold scaleDown.
    destruct (Z.gtb_spec (len actual) (getScale service)); [lia|].
    unfold bind, ret. rewrite Hhash. simpl. split; [done|].
    rewrite Hd, Hd0. simpl. split.
    + apply Forall_fmap, Forall_forall. by intros i _.
    + rewrite length_fmap, length_seqZ. lia.
  - unfold scaleUp, scaleDown. rewrite Heq.
    rewrite Z.ltb_irrefl, Z.gtb_ltb, Z.ltb_irrefl.
    unfold bind, ret. rewrite Hhash. simpl. rewrite Z.sub_diag.
    by repeat split.
  - destruct (scaleDown_returns actual _ w0 Hscale Hgt) as (w1 & Hrun & Hd).
    match goal with
    | |- context [bind ?m ?k w0] =>
        assert (bind m k w0 = (Fails e, w1)) as ->
    end.
    { unfold scaleUp.
      destruct (Z.ltb_spec (len actual) (getScale service)); [lia|].
      unfold bind at 1, ret at 1.
      rewrite (bind_Returns _ _ _ _ _ Hrun).
      unfold bind. by rewrite Hhash. }
    simpl. split; [done|].
    rewrite Hd, Hd0. simpl. split.
    + apply Forall_fmap, Forall_forall. by intros c _.
    + rewrite length_fmap, length_drop. unfold len in *. lia.
Qed.

(** X19. A label that does not parse stops a scale-up before anything
    is created: with fewer containers than the scale and a failing
    [nextContainerNumber], the pass returns the parse error, has called
    nothing and has handed nothing to the group. *)
Theorem reconcile_label_error service actual w e :
  len actual < getScale service ->
  nextContainerNumber actual = Err e ->
  reconcile service actual w = (Fails e, (errgroup_WithContext w).2).
Proof.
  intros Hlen Hnext. rewrite reconcile_unfold. unfold scaleUp.
  destruct (Z.ltb_spec (len actual) (getScale service)); [|lia].
  rewrite Hnext. done.
Qed.

(** X20. A negative scale makes the pass panic: [getScale] below 0 sends
    the scale-down loop to index the listing at that negative position,
    before anything has been called or handed to the group, and also
    when the listing is empty. *)
Theorem reconcile_negative_scale service actual w :
  getScale service < 0 ->
  reconcile service actual w = (Panics, (errgroup_WithContext w).2).
Proof.
  intros Hneg. rewrite reconcile_unfold. unfold scaleUp, scaleDown.
  assert (0 <= len actual) as Hlen by (unfold len; lia).
  destruct (Z.ltb_spec (len actual) (getScale service)); [lia|].
  destruct (Z.gtb_spec (len actual) (getScale service)); [|lia].
  rewrite seqZ_cons by lia. cbn [for_range]. unfold index.
  destruct (Z.ltb_spec (getScale service) 0); [|lia]. done.
Qed.

Lemma omap_fmap_Some {A B C} (f : A -> B) (g : B -> option C) (h : A -> C)
    (xs : list A) :
  (forall x, g (f x) = Some (h x)) -> omap g (f <$> xs) = h <$> xs.
Proof.
  intros Hg. induction xs as [|x xs IH]; [done|].
  simpl. rewrite Hg. simpl. f_equal. apply IH.
Qed.

(** X21. The containers of one scale-up do not collide: when the labels
    parse and the numbers fit [int], the creates handed to the group are
    as many as containers are missing, their numbers differ from one
    another and from every number in use, and so do their names. *)
Theorem scaleUp_batch_distinct service actual ns scale w :
  Forall2 (fun c n => Atoi (label c containerNumberLabel) = Ok n) actual ns ->
  len actual < scale ->
  foldr Z.max 0 ns + (scale - len actual) <= MaxInt ->
  exists w' ts,
    scaleUp service actual scale w = (Returns tt, w')
    /\ dispatched w' = dispatched w ++ ts
    /\ length ts = Z.to_nat (scale - len actual)
    /\ Forall (fun t => is_create_task t = true) ts
    /\ NoDup (omap task_number ts)
    /\ NoDup (omap task_name ts)
    /\ forall n, n ∈ omap task_number ts -> n ∉ ns.
Proof.
  intros Hns Hlen Hfit.
  pose proof (foldr_max_lower ns) as Hlow.
  assert (foldr Z.max 0 ns < MaxInt) as Htop by lia.
  pose proof (nextContainerNumber_top _ _ Hns Htop) as Hnext.
  destruct (scaleUp_dispatched service actual scale _ w Hlen Hnext)
    as (w' & Hrun & Hd).
  eexists w', _. split; [done|]. split; [exact Hd|].
  assert (forall i, i ∈ seqZ 0 (scale - len actual) ->
            wrap (foldr Z.max 0 ns + 1 + i) = foldr Z.max 0 ns + 1 + i)
    as Hwrap.
  { intros i Hi%elem_of_seqZ. apply wrap_id.
    unfold MinInt, MaxInt, intSize in *. lia. }
  assert (forall i j,
            i ∈ seqZ 0 (scale - len actual) ->
            j ∈ seqZ 0 (scale - len actual) ->
            wrap (foldr Z.max 0 ns + 1 + i) = wrap (foldr Z.max 0 ns + 1 + j) ->
            i = j) as Hinj.
  { intros i j Hi Hj. rewrite !Hwrap by done. lia. }
  split; [by rewrite length_fmap, length_seqZ|].
  split; [apply Forall_fmap, Forall_forall; by intros i _|].
  split; [|split].
  - erewrite omap_fmap_Some; [|by intros i].
    apply NoDup_fmap_2_strong; [done|apply NoDup_seqZ].
  - erewrite omap_fmap_Some; [|by intros i].
    apply NoDup_fmap_2_strong; [|apply NoDup_seqZ].
    intros i j Hi Hj Heq. apply (Hinj i j Hi Hj).
    by repeat apply (inj (String.append _)) in Heq; apply (inj pretty) in Heq.
  - erewrite omap_fmap_Some; [|by intros i].
    intros n (i & -> & Hi)%list_elem_of_fmap Hin.
    rewrite Hwrap in Hin by done. apply elem_of_seqZ in Hi.
    apply foldr_max_upper in Hin. lia.
Qed.

Lemma recreateContainer_Returns_project service container w w' :
  recreateContainer service container w = (Returns tt, w') ->
  project w'
  = setDependentLifecycle (project w) (ServiceConfig.Name service)
                          forceRecreate.
Proof.
  rewrite recreateContainer_phases. unfold bind.
  pose proof (recreate_prepare_frame service container w) as [_ Hp1].
  destruct (recreate_prepare service container w) as [[number|e| |] w1];
    try done.
  pose proof (runContainer_shape service (getContainerName container)
                number (Some container) w1) as (_ & Hp2 & _).
  destruct (runContainer _ _ _ _ w1) as [[[]|e| |] w2]; try done.
  intros Hfinish.
  pose proof (recreate_finish_effects service container w2) as [_ Hf].
  rewrite Hfinish in Hf. simpl in *.
  destruct (Delete _ _).1 as [[]|e]; [|by destruct Hf].
  destruct Hf as (_ & _ & ->). by rewrite Hp2, Hp1.
Qed.

(** X22. A recreate cascades: after a successful recreate of a container
    of a service, every service of the project that lists it as a
    dependency carries the force-recreate annotation, so that a drift
    pass run for that service as the project now has it hands a recreate
    to the group for each of its containers, whatever their fingerprint
    and state: the task runs [recreateContainer], every container of the
    listing has been stopped when the pass returns, and the runtime has
    seen no call but those of a recreate, none of a restart. *)
Theorem recreate_forces_dependents service container w w' i dependent :
  recreateContainer service container w = (Returns tt, w') ->
  Project.Services (project w) !! i = Some dependent ->
  ServiceConfig.Name service ∈ GetDependencies dependent ->
  exists marked,
    Project.Services (project w') !! i = Some marked
    /\ extension marked extLifecycle = Some (ExtString forceRecreate)
    /\ forall expected actual w0 w0',
         driftPass marked expected actual w0 = (Returns tt, w0') ->
         dispatched w0' = dispatched w0 ++ (TaskRecreate marked <$> actual)
         /\ (forall c, eg_Go (TaskRecreate marked c)
                       = bind (record_task (TaskRecreate marked c))
                              (fun _ => go (recreateContainer marked c)))
         /\ exists tr,
              calls w0' = calls w0 ++ tr
              /\ (forall c, c ∈ actual -> CallStop (ID c) ∈ tr)
              /\ Forall (fun call =>
                           run_call call
                           \/ exists c, c ∈ actual /\ recreate_call c call) tr.
Proof.
  intros Hrun Hi Hdep. apply recreateContainer_Returns_project in Hrun.
  exists (with_lifecycle forceRecreate dependent).
  assert (extension (with_lifecycle forceRecreate dependent) extLifecycle
          = Some (ExtString forceRecreate)) as Hmarked.
  { unfold extension, with_lifecycle. simpl. by rewrite lookup_insert_eq. }
  split; [|split; [done|]].
  - rewrite Hrun, setDependentLifecycle_map, list_lookup_fmap, Hi. simpl.
    apply contains_spec in Hdep. by rewrite Hdep.
  - intros expected actual w0 w0' Hpass.
    assert (forall c, drift_task (with_lifecycle forceRecreate dependent)
                                 expected c
                      = Some (TaskRecreate
                                (with_lifecycle forceRecreate dependent) c))
      as Htask.
    { intros c. unfold drift_task. by rewrite decide_True by by right. }
    split; [|split; [done|]].
    + rewrite <- (omap_Some_fmap (TaskRecreate _)).
      eapply (for_range_dispatch_Returns actual
                (fun c => Some (TaskRecreate
                                  (with_lifecycle forceRecreate dependent) c)));
        [|exact Hpass].
      intros c w1.
      etrans; [apply (driftPass_dispatch _ expected c w1)|].
      by rewrite Htask.
    + destruct (driftPass_calls _ _ _ _ _ Hpass) as (tr & Etr & Htr & Hfirst).
      exists tr. split; [done|]. split.
      * intros c Hc. by apply (Hfirst c _ _ Hc (Htask c)).
      * eapply Forall_impl; [exact Htr|]. simpl.
        intros call [?|(c & Hc & [[_ Hcall]|[Hno _]])]; [by left| |].
        -- right. by exists c.
        -- destruct Hno. by right.
Qed.

End ReconcileFacts.

(** ** The further properties on the scenario *)

Module MoreCases.
Import Sim Scenario Scenario2.

Lemma nextContainerNumber_fresh_witness :
  let actual := [web_1; web_3] in
  Forall2 (fun c n => Atoi (label c containerNumberLabel) = Ok n) actual [1; 3]
  /\ foldr Z.max 0 [1; 3] < MaxInt
  /\ nextContainerNumber actual = Ok 4
  /\ 1 <= 4
  /\ (forall n, n ∈ [1; 3] -> n < 4)
  /\ 4 ∉ [1; 3].
Proof.
  intros actual.
  assert (Forall2 (fun c n => Atoi (label c containerNumberLabel) = Ok n)
                  actual [1; 3]) as Hns.
  { repeat constructor; vm_compute; reflexivity. }
  assert (foldr Z.max 0 [1; 3] < MaxInt) as Htop by (vm_compute; reflexivity).
  assert (nextContainerNumber actual = Ok 4) as Hnext
    by (vm_compute; reflexivity).
  repeat (split; [assumption|]).
  exact (nextContainerNumber_fresh actual [1; 3] 4 Hns Htop Hnext).
Defined.

Lemma nextContainerNumber_permutation_witness :
  [web_1; web_3] ≡ₚ [web_3; web_1]
  /\ (nextContainerNumber [web_1; web_3] = Ok 4
      <-> nextContainerNumber [web_3; web_1] = Ok 4).
Proof.
  assert ([web_1; web_3] ≡ₚ [web_3; web_1]) as Hperm by apply perm_swap.
  split; [exact Hperm|].
  exact (proj1 (nextContainerNumber_permutation _ _ Hperm) 4).
Defined.

Lemma nextContainerNumber_first_error_witness :
  let e := NumError "Atoi" "x" ErrSyntax in
  Forall parses [web_1]
  /\ Atoi (label web_x containerNumberLabel) = Err e
  /\ nextContainerNumber ([web_1] ++ web_x :: [web_3]) = Err e.
Proof.
  intros e.
  assert (Forall parses [web_1]) as Hbefore.
  { repeat constructor. exists 1. vm_compute. reflexivity. }
  assert (Atoi (label web_x containerNumberLabel) = Err e) as Hc
    by (vm_compute; reflexivity).
  split; [exact Hbefore|]. split; [exact Hc|].
  exact (nextContainerNumber_first_error [web_1] web_x [web_3] e Hbefore Hc).
Defined.

Lemma setDependentLifecycle_overwrites_witness :
  (forall strategy s,
      GetDependencies (with_lifecycle strategy s) = GetDependencies s)
  /\ setDependentLifecycle (setDependentLifecycle proj "web" "first")
                           "web" forceRecreate
     = setDependentLifecycle proj "web" forceRecreate.
Proof.
  assert (forall strategy s,
             GetDependencies (with_lifecycle strategy s) = GetDependencies s)
    as Hdeps by reflexivity.
  split; [exact Hdeps|].
  exact (setDependentLifecycle_overwrites proj "web" "first" forceRecreate
           Hdeps).
Defined.

Lemma setDependentLifecycle_commutes_witness :
  (forall strategy s,
      GetDependencies (with_lifecycle strategy s) = GetDependencies s)
  /\ setDependentLifecycle (setDependentLifecycle proj "web" forceRecreate)
                           "db" forceRecreate
     = setDependentLifecycle (setDependentLifecycle proj "db" forceRecreate)
                             "web" forceRecreate.
Proof.
  assert (forall strategy s,
             GetDependencies (with_lifecycle strategy s) = GetDependencies s)
    as Hdeps by reflexivity.
  split; [exact Hdeps|].
  exact (setDependentLifecycle_commutes proj "web" "db" forceRecreate Hdeps).
Defined.

Lemma runContainer_success_calls_witness :
  let w := Sim.world three_web proj in
  let w' := (runContainer web "proj_web_4" 4 None w).2 in
  runContainer web "proj_web_4" 4 None w = (Returns tt, w')
  /\ exists opts id,
       calls w'
       = calls w ++ CallCreate opts "proj_web_4"
           :: connect_calls (Project.Name (project w)) web id
           ++ [CallContainerStart id].
Proof.
  intros w w'.
  assert (runContainer web "proj_web_4" 4 None w = (Returns tt, w')) as Hrun
    by (vm_compute; reflexivity).
  split; [exact Hrun|].
  destruct (runContainer_success_calls web "proj_web_4" 4 None w w' Hrun)
    as (opts & id & rt1 & _ & _ & Hcalls & _).
  exists opts, id. exact Hcalls.
Defined.

Lemma runContainer_start_is_last_witness :
  let w := Sim.world three_web proj in
  let w' := (runContainer web "proj_web_4" 4 None w).2 in
  CallContainerStart new_id ∈ drop (length (calls w)) (calls w')
  /\ exists opts,
       calls w'
       = calls w ++ CallCreate opts "proj_web_4"
           :: connect_calls (Project.Name (project w)) web new_id
           ++ [CallContainerStart new_id].
Proof.
  intros w w'.
  assert (CallContainerStart new_id ∈ drop (length (calls w)) (calls w'))
    as Hin.
  { vm_compute. do 2 apply list_elem_of_further. apply list_elem_of_here. }
  split; [exact Hin|].
  exact (runContainer_start_is_last web "proj_web_4" 4 None w new_id Hin).
Defined.

Lemma recreateContainer_success_calls_witness :
  let w := Sim.world three_web proj in
  let w' := (recreateContainer web web_2 w).2 in
  recreateContainer web web_2 w = (Returns tt, w')
  /\ exists number opts id,
       Atoi (label web_2 containerNumberLabel) = Ok number
       /\ calls w'
          = calls w
            ++ [CallStop (ID web_2);
                CallContainerRename (ID web_2) (tmpName web_2)]
            ++ CallCreate opts (getContainerName web_2)
                 :: connect_calls (Project.Name (project w)) web id
            ++ [CallContainerStart id; CallDelete (ID web_2)].
Proof.
  intros w w'.
  assert (recreateContainer web web_2 w = (Returns tt, w')) as Hrun
    by (vm_compute; reflexivity).
  split; [exact Hrun|].
  destruct (recreateContainer_success_calls web web_2 w w' Hrun)
    as (number & opts & id & Hnumber & _ & Hcalls).
  exists number, opts, id. split; [exact Hnumber|exact Hcalls].
Defined.

Lemma recreateContainer_label_error_witness :
  let w := Sim.world unnumbered proj in
  let e := NumError "Atoi" "x" ErrSyntax in
  (12 <= String.length (ID web_x))%nat
  /\ (Stop (ID web_x) (runtime w)).1 = Ok tt
  /\ (ContainerRename (ID web_x) (tmpName web_x)
                      (Stop (ID web_x) (runtime w)).2).1 = Ok tt
  /\ Atoi (label web_x containerNumberLabel) = Err e
  /\ (recreateContainer web web_x w).1 = Fails e
  /\ calls (recreateContainer web web_x w).2
     = calls w ++ [CallStop (ID web_x);
                   CallContainerRename (ID web_x) (tmpName web_x)]
  /\ project (recreateContainer web web_x w).2 = project w.
Proof.
  intros w e.
  assert ((12 <= String.length (ID web_x))%nat) as Hlen by (vm_compute; lia).
  assert ((Stop (ID web_x) (runtime w)).1 = Ok tt) as Hstop
    by (vm_compute; reflexivity).
  assert ((ContainerRename (ID web_x) (tmpName web_x)
                           (Stop (ID web_x) (runtime w)).2).1 = Ok tt)
    as Hrename by (vm_compute; reflexivity).
  assert (Atoi (label web_x containerNumberLabel) = Err e) as Hlabel
    by (vm_compute; reflexivity).
  repeat (split; [assumption|]).
  exact (recreateContainer_label_error web web_x w e Hlen Hstop Hrename
           Hlabel).
Defined.

Lemma waitDependencies_other_conditions_witness :
  let w := Sim.world three_web proj in
  (forall dep config,
      (dep, config) ∈ ServiceConfig.DependsOn worker ->
      Condition config <> "service_healthy")
  /\ (waitDependencies 5 worker w).1 = Returns tt
  /\ calls (waitDependencies 5 worker w).2 = calls w.
Proof.
  intros w.
  assert (forall dep config,
             (dep, config) ∈ ServiceConfig.DependsOn worker ->
             Condition config <> "service_healthy") as Hdeps.
  { intros dep config Hin. simpl in Hin.
    apply list_elem_of_singleton in Hin. injection Hin as _ ->. discriminate. }
  split; [exact Hdeps|].
  destruct (waitDependencies_other_conditions 5 worker w Hdeps)
    as (Hr & Hcalls & _).
  split; [exact Hr|exact Hcalls].
Defined.

Lemma ensureService_fails_early_witness :
  let w := Sim.world three_web proj in
  let w1 := (waitDependencies 3 edge w).2 in
  let v := Sim.world listing_fails proj in
  let v1 := (waitDependencies 1 edge v).2 in
  (waitDependencies 3 edge w = (Fails (NoHealthcheck "web"), w1)
   /\ ensureService 3 edge w = (Fails (NoHealthcheck "web"), w1)
   /\ dispatched w1 = [])
  /\ (waitDependencies 1 edge v = (Returns tt, v1)
      /\ ContainerList (list_filters (Project.Name (project v1))
                                     (ServiceConfig.Name edge)) (runtime v1)
         = (Err (ApiError "list failed"),
            (ContainerList (list_filters (Project.Name (project v1))
                                         (ServiceConfig.Name edge))
                           (runtime v1)).2)
      /\ (ensureService 1 edge v).1 = Fails (ApiError "list failed")
      /\ dispatched (ensureService 1 edge v).2 = []).
Proof.
  intros w w1 v v1.
  assert (waitDependencies 3 edge w = (Fails (NoHealthcheck "web"), w1))
    as Hgate by (vm_compute; reflexivity).
  assert (waitDependencies 1 edge v = (Returns tt, v1)) as Hwait
    by (vm_compute; reflexivity).
  assert (ContainerList (list_filters (Project.Name (project v1))
                                      (ServiceConfig.Name edge)) (runtime v1)
          = (Err (ApiError "list failed"),
             (ContainerList (list_filters (Project.Name (project v1))
                                          (ServiceConfig.Name edge))
                            (runtime v1)).2)) as Hlist
    by (vm_compute; reflexivity).
  split.
  - split; [exact Hgate|].
    destruct (proj1 (ensureService_fails_early 3 edge w) _ w1 Hgate)
      as (Hrun & Hd & _).
    split; [exact Hrun|exact Hd].
  - split; [exact Hwait|]. split; [exact Hlist|].
    destruct (proj2 (ensureService_fails_early 1 edge v) v1 _ _ Hwait Hlist)
      as (Hrun & Hd & _).
    split; [exact Hrun|exact Hd].
Defined.

(** X23 on [api], which waits for the health of [web] and is started
    after [db], visited in this order: its gate lists the containers of
    [db], never those of [web], and opens while [web_1] is starting. *)
Lemma waitDependencies_polls_last_visited_witness :
  let w := Sim.world web_starting proj in
  let w' := (waitDependencies 1 api w).2 in
  last_visited (ServiceConfig.DependsOn api) = "db"
  /\ (0 < 1)%nat
  /\ (("web", mkDependency "service_healthy") ∈ ServiceConfig.DependsOn api)
  /\ (isServiceHealthy "web" w).1 = Returns false
  /\ (waitDependencies 1 api w).1 = Returns tt
  /\ Forall (poll_call proj "db") (calls w')
  /\ exists tr, calls w' = CallContainerList (list_filters "proj" "db") :: tr.
Proof.
  intros w w'.
  assert ((0 < 1)%nat) as Hfuel by lia.
  assert (("web", mkDependency "service_healthy") ∈ ServiceConfig.DependsOn api)
    as Hin by left.
  split; [reflexivity|]. split; [exact Hfuel|]. split; [exact Hin|].
  split; [vm_compute; reflexivity|]. split; [vm_compute; reflexivity|].
  destruct (waitDependencies_polls_last_visited 1 api w)
    as [(tr & Etr & Htr) Hfirst].
  split.
  - fold w' in Etr. simpl in Etr. rewrite Etr. exact Htr.
  - apply Hfirst; [exact Hfuel|].
    exists "web", (mkDependency "service_healthy"). split; [exact Hin|].
    reflexivity.
Defined.

Lemma isServiceHealthy_stops_inspecting_witness :
  let w := Sim.world starting_then_unchecked proj in
  let filters := list_filters (Project.Name (project w)) "db" in
  let starting := Inspect.mk (Some (Inspect.mkState
                                      (Some (Inspect.mkHealth "starting")))) in
  ContainerList filters (runtime w)
  = (Ok ([] ++ db_1 :: [db_2]), starting_then_unchecked)
  /\ inspected starting_then_unchecked [] [] starting_then_unchecked
  /\ Forall passes []
  /\ ContainerInspect (ID db_1) starting_then_unchecked
     = (Ok starting, starting_then_unchecked)
  /\ (forall j, Ok starting = Ok j -> ~ passes j)
  /\ calls (isServiceHealthy "db" w).2
     = calls w ++ [CallContainerList filters; CallContainerInspect (ID db_1)].
Proof.
  intros w filters starting.
  assert (ContainerList filters (runtime w)
          = (Ok ([] ++ db_1 :: [db_2]), starting_then_unchecked)) as Hlist
    by (vm_compute; reflexivity).
  assert (inspected starting_then_unchecked [] [] starting_then_unchecked)
    as Hins by constructor.
  assert (Forall passes []) as Hpass by constructor.
  assert (ContainerInspect (ID db_1) starting_then_unchecked
          = (Ok starting, starting_then_unchecked)) as Hc
    by (vm_compute; reflexivity).
  assert (forall j, Ok starting = Ok j -> ~ passes j) as Hno.
  { intros j Hj. injection Hj as <-. intros (status & Hs & Hn & _).
    cbv in Hs. injection Hs as Hs. apply Hn. symmetry. exact Hs. }
  split; [exact Hlist|]. split; [exact Hins|]. split; [exact Hpass|].
  split; [exact Hc|]. split; [exact Hno|].
  destruct (isServiceHealthy_stops_inspecting "db" w [] db_1 [db_2] []
              starting_then_unchecked starting_then_unchecked (Ok starting)
              starting_then_unchecked Hlist Hins Hpass Hc Hno)
    as [Hcalls _].
  exact Hcalls.
Defined.

Lemma reconcile_one_direction_witness :
  let w := Sim.world three_web proj in
  let actual := [web_1; web_2; web_3] in
  getScale web <= len actual
  /\ Forall (fun t => is_create_task t = false)
            (dispatched (reconcile web actual w).2).
Proof.
  intros w actual.
  assert (getScale web <= len actual) as Hlen by (vm_compute; discriminate).
  split; [exact Hlen|].
  exact (proj1 (reconcile_one_direction web actual w) Hlen).
Defined.

Lemma reconcile_hash_error_witness :
  let w := Sim.world three_web proj in
  let actual := [web_1; web_2; web_3] in
  let e := ApiError "hash failed" in
  @jsonHash hash_fails web = Err e
  /\ 0 <= getScale web
  /\ (len actual < getScale web ->
      exists next, nextContainerNumber actual = Ok next)
  /\ (@reconcile Sim.keys hash_fails Sim.t Sim.api web actual w).1 = Fails e
  /\ length (dispatched
               (@reconcile Sim.keys hash_fails Sim.t Sim.api web actual w).2)
     = 1%nat.
Proof.
  intros w actual e.
  assert (@jsonHash hash_fails web = Err e) as Hhash by reflexivity.
  assert (0 <= getScale web) as Hscale by (vm_compute; discriminate).
  assert (len actual < getScale web ->
          exists next, nextContainerNumber actual = Ok next) as Hnext.
  { intros Hlt. vm_compute in Hlt. discriminate. }
  repeat (split; [assumption|]).
  destruct (@reconcile_hash_error Sim.keys hash_fails Sim.t Sim.api
              web actual w e Hhash Hscale Hnext) as (Hr & _ & Hlen).
  split; [exact Hr|exact Hlen].
Defined.

Lemma reconcile_label_error_witness :
  let w := Sim.world unnumbered proj in
  let e := NumError "Atoi" "x" ErrSyntax in
  len [web_x] < getScale web
  /\ nextContainerNumber [web_x] = Err e
  /\ reconcile web [web_x] w = (Fails e, (errgroup_WithContext w).2).
Proof.
  intros w e.
  assert (len [web_x] < getScale web) as Hlen by (vm_compute; reflexivity).
  assert (nextContainerNumber [web_x] = Err e) as Hnext
    by (vm_compute; reflexivity).
  split; [exact Hlen|]. split; [exact Hnext|].
  exact (reconcile_label_error web [web_x] w e Hlen Hnext).
Defined.

Lemma reconcile_negative_scale_witness :
  let w := Sim.world three_web proj in
  getScale negative < 0
  /\ reconcile negative [] w = (Panics, (errgroup_WithContext w).2)
  /\ reconcile negative [web_1] w = (Panics, (errgroup_WithContext w).2).
Proof.
  intros w.
  assert (getScale negative < 0) as Hneg by (vm_compute; reflexivity).
  split; [exact Hneg|]. split.
  - exact (reconcile_negative_scale negative [] w Hneg).
  - exact (reconcile_negative_scale negative [web_1] w Hneg).
Defined.

Lemma scaleUp_batch_distinct_witness :
  let w := Sim.world three_web proj in
  let actual := [web_1; web_3] in
  Forall2 (fun c n => Atoi (label c containerNumberLabel) = Ok n) actual [1; 3]
  /\ len actual < 4
  /\ foldr Z.max 0 [1; 3] + (4 - len actual) <= MaxInt
  /\ exists w' ts,
       scaleUp web actual 4 w = (Returns tt, w')
       /\ length ts = 2%nat
       /\ NoDup (omap task_number ts)
       /\ NoDup (omap task_name ts).
Proof.
  intros w actual.
  assert (Forall2 (fun c n => Atoi (label c containerNumberLabel) = Ok n)
                  actual [1; 3]) as Hns.
  { repeat constructor; vm_compute; reflexivity. }
  assert (len actual < 4) as Hlen by (vm_compute; reflexivity).
  assert (foldr Z.max 0 [1; 3] + (4 - len actual) <= MaxInt) as Hfit
    by (vm_compute; discriminate).
  repeat (split; [assumption|]).
  destruct (scaleUp_batch_distinct web actual [1; 3] 4 w Hns Hlen Hfit)
    as (w' & ts & Hrun & _ & Hlength & _ & Hnumbers & Hnames & _).
  exists w', ts. repeat split; assumption.
Defined.

Lemma recreate_forces_dependents_witness :
  let w := Sim.world cascade proj in
  let w' := (recreateContainer web web_2 w).2 in
  let marked := with_lifecycle forceRecreate api in
  let w'' := (driftPass marked "api" [api_1] w').2 in
  recreateContainer web web_2 w = (Returns tt, w')
  /\ Project.Services (project w) !! 1%nat = Some api
  /\ (ServiceConfig.Name web ∈ GetDependencies api)
  /\ Project.Services (project w') !! 1%nat = Some marked
  /\ extension marked extLifecycle = Some (ExtString forceRecreate)
  /\ label api_1 configHashLabel = "api"
  /\ State api_1 = "running"
  /\ driftPass marked "api" [api_1] w' = (Returns tt, w'')
  /\ dispatched w'' = dispatched w' ++ [TaskRecreate marked api_1]
  /\ (CallStop (ID api_1) ∈ calls w'').
Proof.
  intros w w' marked w''.
  assert (recreateContainer web web_2 w = (Returns tt, w')) as Hrun
    by (vm_compute; reflexivity).
  assert (Project.Services (project w) !! 1%nat = Some api) as Hi
    by reflexivity.
  assert (ServiceConfig.Name web ∈ GetDependencies api) as Hdep
    by (simpl; left).
  assert (Project.Services (project w') !! 1%nat = Some marked) as Hconcrete
    by (vm_compute; reflexivity).
  assert (label api_1 configHashLabel = "api") as Hsync
    by (vm_compute; reflexivity).
  assert (State api_1 = "running") as Hstate by reflexivity.
  assert (driftPass marked "api" [api_1] w' = (Returns tt, w'')) as Hdrift
    by (vm_compute; reflexivity).
  destruct (recreate_forces_dependents web web_2 w w' 1%nat api Hrun Hi Hdep)
    as (m & Hm & Hext & Hpass).
  assert (m = marked) as Heq.
  { rewrite Hconcrete in Hm. injection Hm as Hm. symmetry. exact Hm. }
  rewrite Heq in Hext, Hpass.
  destruct (Hpass "api" [api_1] w' w'' Hdrift)
    as (Hd & _ & tr & Hcalls & Hstop & _).
  repeat (split; [assumption|]).
  rewrite Hcalls. apply elem_of_app. right. apply Hstop. left.
Defined.

End MoreCases.
